(** * ERC3 agent: the task-completion control layer of [store_agent.py]

    A shallow embedding of the part of [src/erc_agent/store_agent.py] that
    decides how a task ends: the tool wrapper [ERC3Tool._run], the
    [verify_function] checkpoint, the module-level flags
    [_response_provided], [_verified] and [_last_verify_payload], the
    auto-completion code at the end of [run_agent], and the usage callback
    [ERC3LoggingCallback].

    Python code is embedded in a state-and-exception monad: a computation
    takes the current state and gives back either a value or a raised
    exception, together with the new state (assignments made before a
    [raise] stay in place, as in Python).  The external collaborators (the
    [erc3] client, its pydantic request classes, the LangGraph agent loop)
    are not part of the repository: the client is a record of oracles, and
    what the agent loop does is a list of events that ends by returning or
    by raising.

    Strings are the UTF-8 bytes of the Python text: [strip] removes the
    white space of Python, [lower] follows Python on ASCII and on the
    characters outside ASCII that the tests of the code can tell apart
    (see its definition), and [short_text] counts characters.
    Calls to [logger] change neither state nor results and are left out.
    Time stamps are integers (clock ticks) instead of floats. *)

From Stdlib Require Import ZArith QArith String Ascii List Bool Lia.
From stdpp Require Import gmap strings list fin_maps.

Local Open Scope Z_scope.
#[local] Set Warnings "-register-all".

(** ** Python values *)

(** The values that keyword arguments and dict entries take here.  Floats
    are left out. *)
Inductive pyval :=
| PNone
| PBool (b : bool)
| PInt (z : Z)
| PStr (s : string)
| PList (l : list pyval)
| PDict (d : list (string * pyval)).

Definition is_none (v : pyval) : bool :=
  match v with PNone => true | _ => false end.

(** Python truth value: [None], [False], [0], empty string, list or dict
    are false. *)
Definition truthy (v : pyval) : bool :=
  match v with
  | PNone => false
  | PBool b => b
  | PInt z => negb (z =? 0)
  | PStr s => negb (String.eqb s EmptyString)
  | PList l => match l with [] => false | _ => true end
  | PDict d => match d with [] => false | _ => true end
  end.

Definition type_name (v : pyval) : string :=
  match v with
  | PNone => "NoneType"
  | PBool _ => "bool"
  | PInt _ => "int"
  | PStr _ => "str"
  | PList _ => "list"
  | PDict _ => "dict"
  end.

(** ** Exceptions and results *)

(** [ApiException] carries [detail] and [api_error.error]; every other
    exception is identified with its message [str(e)]. *)
Inductive exn :=
| ApiException (detail : string) (api_error_error : string)
| Exception (msg : string).

Inductive result (A : Type) :=
| Ok (a : A)
| Raise (e : exn).
Arguments Ok {A} a.
Arguments Raise {A} e.

Definition is_ok {A} (r : result A) : bool :=
  match r with Ok _ => true | Raise _ => false end.

(** ** String helpers *)

Definition nl : string := String "010"%char EmptyString.

Definition lower_ascii (c : ascii) : ascii :=
  let n := nat_of_ascii c in
  if ((65 <=? n)%nat && (n <=? 90)%nat)%bool then ascii_of_nat (n + 32) else c.

(** The two characters outside ASCII whose lower case has an ASCII letter,
    in UTF-8: the Kelvin sign U+212A, which lowers to [k], and the capital
    I with a dot U+0130, which lowers to [i] followed by the combining dot
    U+0307. *)
Definition KELVIN_SIGN : string :=
  String "226" (String "132" (String "170" EmptyString)).
Definition CAPITAL_I_DOT : string := String "196" (String "176" EmptyString).
Definition SMALL_I_DOT : string :=
  String "i" (String "204" (String "135" EmptyString)).

(** [str.lower()] on the UTF-8 bytes of the text.  The letters A to Z, the
    Kelvin sign and the capital I with a dot are lowered as Python lowers
    them.  Every other character outside ASCII stays as it is where Python
    replaces it by another character outside ASCII: such a character has
    no ASCII byte before or after, so the comparisons of the source, which
    are with the ASCII words [none] and [ok_answer], come out the same. *)
Fixpoint lower (s : string) : string :=
  match s with
  | EmptyString => EmptyString
  | String c r =>
      match r with
      | String c2 r2 =>
          if (Ascii.eqb c "226" && Ascii.eqb c2 "132")%bool then
            match r2 with
            | String c3 r3 =>
                if Ascii.eqb c3 "170" then String "k" (lower r3)
                else String c (lower r)
            | EmptyString => String c (lower r)
            end
          else if (Ascii.eqb c "196" && Ascii.eqb c2 "176")%bool then
            String "i" (String "204" (String "135" (lower r2)))
          else String (lower_ascii c) (lower r)
      | EmptyString => String (lower_ascii c) EmptyString
      end
  end.

(** [needle in hay] *)
Fixpoint contains (needle hay : string) : bool :=
  String.prefix needle hay ||
  match hay with
  | EmptyString => false
  | String _ r => contains needle r
  end.

(** ASCII characters removed by [str.strip()]: tab, LF, VT, FF, CR, FS, GS,
    RS, US and space. *)
Definition is_space (c : ascii) : bool :=
  let n := nat_of_ascii c in
  (((9 <=? n)%nat && (n <=? 13)%nat) || ((28 <=? n)%nat && (n <=? 32)%nat))%bool.

(** Third byte of the white space characters U+2000 to U+200A, U+2028,
    U+2029 and U+202F, whose first two bytes are E2 80. *)
Definition is_space_e2_80 (c : ascii) : bool :=
  let n := nat_of_ascii c in
  (((128 <=? n)%nat && (n <=? 138)%nat) || (n =? 168)%nat || (n =? 169)%nat
   || (n =? 175)%nat)%bool.

(** Number of bytes of the white space character at the head of [s], 0
    when [s] does not start with one.  Python's white space: the ten ASCII
    characters above, U+0085 and U+00A0 (C2 85, C2 A0), U+1680 (E1 9A 80),
    U+2000 to U+200A, U+2028, U+2029, U+202F (E2 80 ..), U+205F (E2 81 9F)
    and U+3000 (E3 80 80). *)
Definition ws_len (s : string) : nat :=
  match s with
  | EmptyString => 0%nat
  | String c r =>
      if is_space c then 1%nat
      else
        match r with
        | EmptyString => 0%nat
        | String c2 r2 =>
            if (Ascii.eqb c "194" && (Ascii.eqb c2 "133" || Ascii.eqb c2 "160"))%bool
            then 2%nat
            else
              match r2 with
              | EmptyString => 0%nat
              | String c3 _ =>
                  if (Ascii.eqb c "225" && Ascii.eqb c2 "154" && Ascii.eqb c3 "128")%bool
                  then 3%nat
                  else if (Ascii.eqb c "226" && Ascii.eqb c2 "128" && is_space_e2_80 c3)%bool
                  then 3%nat
                  else if (Ascii.eqb c "226" && Ascii.eqb c2 "129" && Ascii.eqb c3 "159")%bool
                  then 3%nat
                  else if (Ascii.eqb c "227" && Ascii.eqb c2 "128" && Ascii.eqb c3 "128")%bool
                  then 3%nat
                  else 0%nat
              end
        end
  end.

(** [str.lstrip()]: [skip] counts the bytes still to drop of the white space
    character being removed. *)
Fixpoint lstrip_from (skip : nat) (s : string) : string :=
  match s with
  | EmptyString => EmptyString
  | String c r =>
      match skip with
      | S k => lstrip_from k r
      | O =>
          match ws_len s with
          | O => s
          | S n => lstrip_from n r
          end
      end
  end.

Definition lstrip (s : string) : string := lstrip_from 0 s.

(** [s] is made of white space characters only. *)
Fixpoint all_space_from (skip : nat) (s : string) : bool :=
  match s with
  | EmptyString => (skip =? 0)%nat
  | String c r =>
      match skip with
      | S k => all_space_from k r
      | O =>
          match ws_len s with
          | O => false
          | S n => all_space_from n r
          end
      end
  end.

Definition all_space (s : string) : bool := all_space_from 0 s.

(** [str.rstrip()]: the text up to the point from which only white space
    follows. *)
Fixpoint rstrip (s : string) : string :=
  match s with
  | EmptyString => EmptyString
  | String c r => if all_space s then EmptyString else String c (rstrip r)
  end.

Definition strip (s : string) : string := rstrip (lstrip s).

(** ** Words in the text, as the statements read them *)

(** [word] occurs in [text] as it stands. *)
Definition mentions (word text : string) : Prop :=
  exists pre post, text = pre +:+ word +:+ post.

(** [c] is the character [x] or, when [x] is a small letter, its
    capital. *)
Definition same_letter (c x : ascii) : Prop :=
  c = x \/
  ((97 <= nat_of_ascii x)%nat /\ (nat_of_ascii x <= 122)%nat /\
   nat_of_ascii x = (nat_of_ascii c + 32)%nat).

(** [w] is [word] in some letter case: character by character, a small
    letter of [word] standing for itself or its capital, and [k] also for
    the Kelvin sign. *)
Fixpoint spells (word w : string) : Prop :=
  match word with
  | EmptyString => w = EmptyString
  | String x word' =>
      (exists c w', w = String c w' /\ same_letter c x /\ spells word' w') \/
      (x = "k"%char /\ exists w', w = KELVIN_SIGN +:+ w' /\ spells word' w')
  end.

(** [word] occurs in [text] in some letter case. *)
Definition mentions_any_case (word text : string) : Prop :=
  exists pre w post, text = pre +:+ w +:+ post /\ spells word w.

(** Words in small ASCII letters and signs without the letter [i]: the
    words that the source looks for are of this kind. *)
Definition plain_char (x : ascii) : bool :=
  let n := nat_of_ascii x in
  ((n <? 128)%nat && negb ((65 <=? n)%nat && (n <=? 90)%nat)
   && negb (Ascii.eqb x "i"))%bool.

Fixpoint plain_word (w : string) : bool :=
  match w with
  | EmptyString => true
  | String x r => plain_char x && plain_word r
  end.

(** A text whose first byte is none of the bytes that end the Kelvin sign
    or the capital I with a dot. *)
Definition head_clean (t : string) : Prop :=
  forall c r, t = String c r ->
  c <> "132"%char /\ c <> "170"%char /\ c <> "176"%char.

(** [s.split(sep)] for a one-character separator: [cur] holds the piece
    being read, reversed. *)
Fixpoint split_acc (sep : ascii) (cur : string) (s : string) : list string :=
  match s with
  | EmptyString => [String.rev cur]
  | String c r =>
      if Ascii.eqb c sep then String.rev cur :: split_acc sep EmptyString r
      else split_acc sep (String c cur) r
  end.

Definition split (sep : ascii) (s : string) : list string :=
  split_acc sep EmptyString s.

(** [sep.join(l)] *)
Definition join (sep : string) (l : list string) : string := String.concat sep l.

(** ** The external API client *)

(** A request object: the pydantic class and the keyword arguments it was
    built from. *)
Record request := { req_class : string; req_args : gmap string pyval }.

(** One record handed to [log_llm]. *)
Record UsageRecord := {
  task_id : string;
  model : string;
  completion : string;
  duration_sec : Z;
  prompt_tokens : Z;
  completion_tokens : Z;
  cached_prompt_tokens : Z
}.

(** What the task did to the outside world, oldest call first, each call
    with what came back. *)
Inductive api_call :=
| Dispatched (r : request) (res : result string)
| LoggedLLM (u : UsageRecord) (res : result unit).

(** The collaborators of [run_agent].  The answers of the remote API may
    depend on everything it has been sent so far.
    - [request_class cls kw]: what building a [cls] from the keyword
      arguments [kw] raises, if anything;
    - [api_dispatch h r]: [store_api.dispatch(r)] after the calls [h]; a
      result stands for its [model_dump_json] text;
    - [api_log_llm h u]: [log_llm(...)] after the calls [h];
    - [api_who_am_i]: the set-up of [run_agent] before its [try] block
      ([get_erc_dev_client], [who_am_i], [get_employee], building the
      model and the agent);
    - [json_dumps v]: [json.dumps(v, ensure_ascii=False)]. *)
Record ERC3 := {
  request_class : string -> gmap string pyval -> option exn;
  api_dispatch : list api_call -> request -> result string;
  api_log_llm : list api_call -> UsageRecord -> result unit;
  api_who_am_i : result unit;
  json_dumps : pyval -> result string
}.

(** ** State *)

Record state := {
  _response_provided : bool;
  _verified : bool;
  _last_verify_payload : gmap string pyval;
  (* the outside world *)
  api_calls : list api_call;
  (* fields of the [ERC3LoggingCallback] instance *)
  start_time : option Z;
  total_duration : Z;
  total_completion_tokens : Z;
  total_prompt_tokens : Z;
  total_tokens : Z;
  call_count : nat
}.

Definition set_response_provided (b : bool) (s : state) : state :=
  {| _response_provided := b; _verified := _verified s;
     _last_verify_payload := _last_verify_payload s;
     api_calls := api_calls s; start_time := start_time s;
     total_duration := total_duration s;
     total_completion_tokens := total_completion_tokens s;
     total_prompt_tokens := total_prompt_tokens s;
     total_tokens := total_tokens s; call_count := call_count s |}.

Definition set_verified (b : bool) (p : gmap string pyval) (s : state) : state :=
  {| _response_provided := _response_provided s; _verified := b;
     _last_verify_payload := p;
     api_calls := api_calls s; start_time := start_time s;
     total_duration := total_duration s;
     total_completion_tokens := total_completion_tokens s;
     total_prompt_tokens := total_prompt_tokens s;
     total_tokens := total_tokens s; call_count := call_count s |}.

Definition record_call (c : api_call) (s : state) : state :=
  {| _response_provided := _response_provided s; _verified := _verified s;
     _last_verify_payload := _last_verify_payload s;
     api_calls := api_calls s ++ [c]; start_time := start_time s;
     total_duration := total_duration s;
     total_completion_tokens := total_completion_tokens s;
     total_prompt_tokens := total_prompt_tokens s;
     total_tokens := total_tokens s; call_count := call_count s |}.

(** ** The monad *)

Definition M (A : Type) : Type := state -> result A * state.

Definition ret {A} (a : A) : M A := fun s => (Ok a, s).

Definition raise {A} (e : exn) : M A := fun s => (Raise e, s).

Definition bind {A B} (m : M A) (k : A -> M B) : M B :=
  fun s =>
    match m s with
    | (Ok a, s') => k a s'
    | (Raise e, s') => (Raise e, s')
    end.

Notation "x <- m ;; k" := (bind m (fun x => k))
  (at level 100, m at next level, right associativity).
Notation "m ;;; k" := (bind m (fun _ => k))
  (at level 100, right associativity).

Definition get : M state := fun s => (Ok s, s).

Definition modify (f : state -> state) : M unit := fun s => (Ok tt, f s).

Definition lift {A} (r : result A) : M A := fun s => (r, s).

(** [try: m  except Exception as e: h e] *)
Definition try_except {A} (m : M A) (h : exn -> M A) : M A :=
  fun s =>
    match m s with
    | (Ok a, s') => (Ok a, s')
    | (Raise e, s') => h e s'
    end.

(** [try: m  finally: f]: [f] runs on both exits; an exception of [f]
    replaces the outcome of [m]. *)
Definition try_finally {A} (m : M A) (f : M unit) : M A :=
  fun s =>
    match m s with
    | (r, s') =>
        match f s' with
        | (Ok _, s'') => (r, s'')
        | (Raise e, s'') => (Raise e, s'')
        end
    end.

(** [store_api.dispatch(request)]: the call and its outcome enter the
    history. *)
Definition dispatch (api : ERC3) (r : request) : M string :=
  fun s =>
    let res := api_dispatch api (api_calls s) r in
    (res, record_call (Dispatched r res) s).

(** [api.log_llm(...)] *)
Definition log_llm (api : ERC3) (u : UsageRecord) : M unit :=
  fun s =>
    let res := api_log_llm api (api_calls s) u in
    (res, record_call (LoggedLLM u res) s).

(** Building a [cls] from keyword arguments: pydantic validation, then
    the request object. *)
Definition new_request (api : ERC3) (cls : string) (kw : gmap string pyval) : M request :=
  match request_class api cls kw with
  | Some e => raise e
  | None => ret {| req_class := cls; req_args := kw |}
  end.

(** ** [ERC3Tool] *)

Record ERC3Tool := { name : string; tool_request_class : string }.

Definition Req_ProvideAgentResponse : string := "Req_ProvideAgentResponse".

Definition ALREADY_COMPLETED : string :=
  "TASK ALREADY COMPLETED - Response was already provided. Stop calling tools.".

Definition COMPLETED_SUFFIX : string :=
  nl +:+ nl +:+ "TASK COMPLETED SUCCESSFULLY. You have provided the final response. Do not call any more tools. The task is finished.".

(** [v > n] for an int [n]: defined on ints and bools, [TypeError]
    otherwise. *)
Definition py_gt_int (v : pyval) (n : Z) : result bool :=
  match v with
  | PInt z => Ok (n <? z)
  | PBool b => Ok (n <? Z.b2z b)
  | _ => Raise (Exception ("'>' not supported between instances of '"
                           +:+ type_name v +:+ "' and 'int'"))
  end.

(** Lines 139-142: the page size is capped at 5. *)
Definition clamp_page (kwargs : gmap string pyval) : result (gmap string pyval) :=
  match kwargs !! "page" with
  | Some v =>
      if is_none v then Ok kwargs
      else match py_gt_int v 5 with
           | Ok true => Ok (<["page" := PInt 5]> kwargs)
           | Ok false => Ok kwargs
           | Raise e => Raise e
           end
  | None => Ok kwargs
  end.

(** The body of the [try] block of [_run]. *)
Definition _run_try (api : ERC3) (self : ERC3Tool) (kwargs : gmap string pyval) : M string :=
  kwargs' <- lift (clamp_page kwargs) ;;
  request <- new_request api (tool_request_class self) kwargs' ;;
  txt <- dispatch api request ;;
  if String.eqb (name self) Req_ProvideAgentResponse then
    modify (set_response_provided true) ;;;
    ret (txt +:+ COMPLETED_SUFFIX)
  else ret txt.

(** The two [except] clauses of [_run]. *)
Definition _run_except (e : exn) : M string :=
  match e with
  | ApiException detail _ => ret ("API Error: " +:+ detail)
  | Exception msg => ret ("Error: " +:+ msg)
  end.

Definition _run (api : ERC3) (self : ERC3Tool) (kwargs : gmap string pyval) : M string :=
  s <- get ;;
  if _response_provided s && String.eqb (name self) Req_ProvideAgentResponse then
    ret ALREADY_COMPLETED
  else
    try_except (_run_try api self kwargs) _run_except.

(** [create_erc3_tool(tool_name, tool_description, request_class, store_api)] *)
Definition create_erc3_tool (tool_name request_class : string) : ERC3Tool :=
  {| name := tool_name; tool_request_class := request_class |}.

(** The API tools of the list [tools] in [run_agent]. *)
Definition tools : list ERC3Tool :=
  [ create_erc3_tool "Req_ProvideAgentResponse" "Req_ProvideAgentResponse";
    create_erc3_tool "Req_ListProjects" "Req_ListProjects";
    create_erc3_tool "Req_ListEmployees" "Req_ListEmployees";
    create_erc3_tool "Req_ListCustomers" "Req_ListCustomers";
    create_erc3_tool "Req_GetCustomer" "Req_GetCustomer";
    create_erc3_tool "Req_GetEmployee" "Req_GetEmployee";
    create_erc3_tool "Req_GetProject" "Req_GetProject";
    create_erc3_tool "Req_GetTimeEntry" "Req_GetTimeEntry";
    create_erc3_tool "Req_SearchProjects" "Req_SearchProjects";
    create_erc3_tool "Req_SearchEmployees" "Req_SearchEmployees";
    create_erc3_tool "Req_LogTimeEntry" "Req_LogTimeEntry";
    create_erc3_tool "Req_SearchTimeEntries" "Req_SearchTimeEntries";
    create_erc3_tool "Req_SearchCustomers" "Req_SearchCustomers";
    create_erc3_tool "Req_UpdateTimeEntry" "Req_UpdateTimeEntry";
    create_erc3_tool "Req_UpdateProjectTeam" "Req_UpdateProjectTeam";
    create_erc3_tool "Req_UpdateProjectStatus" "Req_UpdateProjectStatus";
    create_erc3_tool "Req_UpdateEmployeeInfo" "Req_UpdateEmployeeInfo";
    create_erc3_tool "Req_TimeSummaryByProject" "Req_TimeSummaryByProject";
    create_erc3_tool "Req_TimeSummaryByEmployee" "Req_TimeSummaryByEmployee";
    create_erc3_tool "Req_ListWiki" "Req_ListWiki";
    create_erc3_tool "Req_LoadWiki" "Req_LoadWiki";
    create_erc3_tool "Req_SearchWiki" "Req_SearchWiki";
    create_erc3_tool "Req_UpdateWiki" "Req_UpdateWiki" ].

(** The terminal tool. *)
Definition provide_agent_response : ERC3Tool :=
  create_erc3_tool Req_ProvideAgentResponse Req_ProvideAgentResponse.

(** ** [think], [plan] and [verify] *)

Definition think_function (thoughts : string) : M string :=
  ret "Thoughts recorded. Continue with your task.".

Definition plan_function (plan : string) : M string :=
  ret "Plan recorded. Proceed with execution.".

(** The arguments of [verify], class [VerifyInput]. *)
Record VerifyInput := {
  outcome : string;
  employee_links : string;
  project_links : string;
  customer_links : string;
  made_modifications : bool;
  permissions_checked : bool;
  wiki_checked : bool;
  reasoning : string
}.

(** Truth value of a [str]. *)
Definition nonempty (s : string) : bool := negb (String.eqb s EmptyString).

(** [s.lower() != 'none'] *)
Definition not_none (s : string) : bool := negb (String.eqb (lower s) "none").

Definition links_summary (v : VerifyInput) : list string :=
  (if nonempty (employee_links v) && not_none (employee_links v)
   then ["employees: " +:+ employee_links v] else []) ++
  (if nonempty (project_links v) && not_none (project_links v)
   then ["projects: " +:+ project_links v] else []) ++
  (if nonempty (customer_links v) && not_none (customer_links v)
   then ["customers: " +:+ customer_links v] else []).

Definition links_str (v : VerifyInput) : string :=
  match links_summary v with
  | [] => "none"
  | l => join ", " l
  end.

Definition any_link_declared (v : VerifyInput) : bool :=
  not_none (employee_links v) || not_none (project_links v)
  || not_none (customer_links v).

Definition WARN_PERMISSIONS : string :=
  "WARNING: You made modifications but did not check permissions first!".
Definition WARN_DENIED_LINKS : string :=
  "WARNING: denied_security should have NO links (empty) to prevent information leakage!".
Definition WARN_UNRELIABLE_LINKS : string :=
  "WARNING: error_internal/none_unsupported must return with NO links because data is unreliable or unsupported.".
Definition WARN_OK_ANSWER : string :=
  "WARNING: You mentioned ok_answer but chose none_clarification_needed - are you sure?".

(** Lines 242-254: the list [warnings]. *)
Definition verify_warnings (v : VerifyInput) : list string :=
  (if made_modifications v && negb (permissions_checked v)
   then [WARN_PERMISSIONS] else []) ++
  (if String.eqb (outcome v) "denied_security" && any_link_declared v
   then [WARN_DENIED_LINKS] else []) ++
  (if (String.eqb (outcome v) "error_internal"
       || String.eqb (outcome v) "none_unsupported") && any_link_declared v
   then [WARN_UNRELIABLE_LINKS] else []) ++
  (if String.eqb (outcome v) "none_clarification_needed"
      && contains "ok_answer" (lower (reasoning v))
   then [WARN_OK_ANSWER] else []).

(** Lines 257-263: the dict stored in [_last_verify_payload]. *)
Definition verify_payload (v : VerifyInput) : gmap string pyval :=
  <["outcome" := PStr (outcome v)]>
  (<["employee_links" := PStr (employee_links v)]>
  (<["project_links" := PStr (project_links v)]>
  (<["customer_links" := PStr (customer_links v)]>
  (<["reasoning" := PStr (reasoning v)]> ∅)))).

(** Lines 265-273: the text returned when there is no warning. *)
Definition verify_instruction (v : VerifyInput) : string :=
  "Verification recorded." +:+ nl +:+ nl +:+
  "YOUR NEXT AND FINAL ACTION MUST BE:" +:+ nl +:+
  "Call Req_ProvideAgentResponse with:" +:+ nl +:+
  "- outcome: " +:+ outcome v +:+ nl +:+
  "- links: " +:+ links_str v +:+ nl +:+
  "- message: (your explanation to user)" +:+ nl +:+ nl +:+
  "DO NOT respond with text. You MUST call the Req_ProvideAgentResponse tool now.".

Definition WARNINGS_HEADER : string := "⚠️ WARNINGS:" +:+ nl.

Definition verify_function (v : VerifyInput) : M string :=
  let warnings := verify_warnings v in
  modify (set_verified true (verify_payload v)) ;;;
  let result := verify_instruction v in
  match warnings with
  | [] => ret result
  | _ => ret (WARNINGS_HEADER +:+ join nl warnings +:+ nl +:+ nl +:+ result)
  end.

(** Some link field is not the word none as it stands. *)
Definition some_link_stated (v : VerifyInput) : Prop :=
  employee_links v <> "none" \/ project_links v <> "none"
  \/ customer_links v <> "none".

(** The four conditions with their words taken as they stand: a link
    field differs from the four characters of none, and the reasoning
    holds the nine characters of ok_answer. *)
Definition stated_conditions (v : VerifyInput) : Prop :=
  (made_modifications v = true /\ permissions_checked v = false) \/
  (outcome v = "denied_security" /\ some_link_stated v) \/
  ((outcome v = "error_internal" \/ outcome v = "none_unsupported")
   /\ some_link_stated v) \/
  (outcome v = "none_clarification_needed"
   /\ mentions "ok_answer" (reasoning v)).

(** Some link field is not the word none in any letter case. *)
Definition some_link_given (v : VerifyInput) : Prop :=
  ~ spells "none" (employee_links v) \/ ~ spells "none" (project_links v)
  \/ ~ spells "none" (customer_links v).

(** The four conditions with their words taken in any letter case. *)
Definition risky_conditions (v : VerifyInput) : Prop :=
  (made_modifications v = true /\ permissions_checked v = false) \/
  (outcome v = "denied_security" /\ some_link_given v) \/
  ((outcome v = "error_internal" \/ outcome v = "none_unsupported")
   /\ some_link_given v) \/
  (outcome v = "none_clarification_needed"
   /\ mentions_any_case "ok_answer" (reasoning v)).

(** [verify] with [denied_security] and the employee list None, with a
    capital. *)
Definition capital_none_verify : VerifyInput :=
  {| outcome := "denied_security"; employee_links := "None";
     project_links := "none"; customer_links := "none";
     made_modifications := false; permissions_checked := false;
     wiki_checked := true; reasoning := "Salaries are restricted." |}.

(** [verify] with [none_clarification_needed] and a reasoning that names
    the other outcome in capitals. *)
Definition capital_word_verify : VerifyInput :=
  {| outcome := "none_clarification_needed"; employee_links := "none";
     project_links := "none"; customer_links := "none";
     made_modifications := false; permissions_checked := false;
     wiki_checked := true;
     reasoning := "OK_ANSWER needs the name of the project." |}.

(** ** The usage callback [ERC3LoggingCallback] *)

(** A [token_usage] dict; an absent key is [None]. *)
Record token_usage := {
  tu_prompt_tokens : option Z;
  tu_completion_tokens : option Z;
  tu_total_tokens : option Z;
  (* [prompt_tokens_details], and in it [cached_tokens] *)
  tu_prompt_tokens_details : option (option Z)
}.

Definition empty_usage : token_usage :=
  {| tu_prompt_tokens := None; tu_completion_tokens := None;
     tu_total_tokens := None; tu_prompt_tokens_details := None |}.

(** A tool call of a message: a dict read with [get("name", "")] and
    [get("args", {})]. *)
Record tool_call := { tc_name : option pyval; tc_args : option pyval }.

(** The message of a chat generation.  [None] in an optional field means
    that the object has no such attribute. *)
Record AIMessage := {
  content : string;
  tool_calls : option (list tool_call);
  additional_kwargs : option (gmap string pyval);
  (* the [token_usage] entry of [response_metadata], when there is one *)
  response_metadata : option (option token_usage)
}.

Inductive generation :=
| ChatGeneration (message : AIMessage)
| Generation (text : string)
| OtherGeneration.

Record LLMResult := {
  (* [None]: no [llm_output], or a false one; [Some u]: its
     [token_usage] entry *)
  llm_output : option (option token_usage);
  generations : list (list generation)
}.

Definition set_start_time (t : option Z) (s : state) : state :=
  {| _response_provided := _response_provided s; _verified := _verified s;
     _last_verify_payload := _last_verify_payload s;
     api_calls := api_calls s; start_time := t;
     total_duration := total_duration s;
     total_completion_tokens := total_completion_tokens s;
     total_prompt_tokens := total_prompt_tokens s;
     total_tokens := total_tokens s; call_count := call_count s |}.

(** [total_duration += duration; call_count += 1] *)
Definition count_call (duration : Z) (s : state) : state :=
  {| _response_provided := _response_provided s; _verified := _verified s;
     _last_verify_payload := _last_verify_payload s;
     api_calls := api_calls s; start_time := start_time s;
     total_duration := total_duration s + duration;
     total_completion_tokens := total_completion_tokens s;
     total_prompt_tokens := total_prompt_tokens s;
     total_tokens := total_tokens s; call_count := S (call_count s) |}.

(** The three updates of [total_usage]. *)
Definition add_usage (c p t : Z) (s : state) : state :=
  {| _response_provided := _response_provided s; _verified := _verified s;
     _last_verify_payload := _last_verify_payload s;
     api_calls := api_calls s; start_time := start_time s;
     total_duration := total_duration s;
     total_completion_tokens := total_completion_tokens s + c;
     total_prompt_tokens := total_prompt_tokens s + p;
     total_tokens := total_tokens s + t; call_count := call_count s |}.

(** [__init__] of the callback. *)
Definition new_callback (s : state) : state :=
  {| _response_provided := _response_provided s; _verified := _verified s;
     _last_verify_payload := _last_verify_payload s;
     api_calls := api_calls s; start_time := None;
     total_duration := 0;
     total_completion_tokens := 0;
     total_prompt_tokens := 0;
     total_tokens := 0; call_count := 0%nat |}.

Definition on_llm_start (now : Z) : M unit :=
  modify (set_start_time (Some now)).

Definition tool_call_info (tc : tool_call) : pyval :=
  PDict [("name", default (PStr EmptyString) (tc_name tc));
         ("args", default (PDict []) (tc_args tc))].

(** Lines 1317-1338: the completion text of a message. *)
Definition message_text (api : ERC3) (msg : AIMessage) : result string :=
  let text := content msg in
  match
    (if nonempty text then Ok text
     else match tool_calls msg with
          | Some (tc :: tcs) =>
              json_dumps api (PList (map tool_call_info (tc :: tcs)))
          | _ => Ok text
          end)
  with
  | Raise e => Raise e
  | Ok text =>
      if nonempty text then Ok text
      else match additional_kwargs msg with
           | Some ak =>
               match ak !! "tool_calls" with
               | Some v => json_dumps api v
               | None =>
                   match ak !! "function_call" with
                   | Some v => json_dumps api v
                   | None => Ok text
                   end
               end
           | None => Ok text
           end
  end.

(** Lines 1305-1347: completion text, usage data and cached tokens read
    from the response. *)
Definition read_response (api : ERC3) (response : LLMResult)
  : result (string * token_usage * Z) :=
  let usage_data :=
    match llm_output response with
    | Some o => default empty_usage o
    | None => empty_usage
    end in
  match generations response with
  | [] => Ok (EmptyString, usage_data, 0)
  | [] :: _ => Raise (Exception "list index out of range")
  | (gen :: _) :: _ =>
      match gen with
      | ChatGeneration msg =>
          match message_text api msg with
          | Raise e => Raise e
          | Ok text =>
              match response_metadata msg with
              | Some md =>
                  let usage_data := default empty_usage md in
                  let cached :=
                    match tu_prompt_tokens_details usage_data with
                    | Some d => default 0 d
                    | None => 0
                    end in
                  Ok (text, usage_data, cached)
              | None => Ok (text, usage_data, 0)
              end
          end
      | Generation text => Ok (text, usage_data, 0)
      | OtherGeneration => Ok (EmptyString, usage_data, 0)
      end
  end.

(** The [try] block of [on_llm_end]. *)
Definition on_llm_end_try (api : ERC3) (model_name task : string)
    (t0 now : Z) (response : LLMResult) : M unit :=
  let duration := now - t0 in
  modify (count_call duration) ;;;
  r <- lift (read_response api response) ;;
  let '(text, usage_data, cached) := r in
  let completion_text := if nonempty text then text else "[empty_response]" in
  let prompt := default 0 (tu_prompt_tokens usage_data) in
  let compl := default 0 (tu_completion_tokens usage_data) in
  modify (add_usage compl prompt (default 0 (tu_total_tokens usage_data))) ;;;
  log_llm api {| task_id := task; model := model_name;
                 completion := completion_text; duration_sec := duration;
                 prompt_tokens := prompt; completion_tokens := compl;
                 cached_prompt_tokens := cached |}.

Definition on_llm_end (api : ERC3) (model_name task : string)
    (now : Z) (response : LLMResult) : M unit :=
  s <- get ;;
  match start_time s with
  | None => ret tt
  | Some t0 =>
      try_finally
        (try_except (on_llm_end_try api model_name task t0 now response)
                    (fun _ => ret tt))
        (modify (set_start_time None))
  end.

(** The record sent when the task made no model call. *)
Definition zero_usage (model_name task : string) : UsageRecord :=
  {| task_id := task; model := model_name; completion := "[no_llm_calls]";
     duration_sec := 0; prompt_tokens := 0; completion_tokens := 0;
     cached_prompt_tokens := 0 |}.

Definition log_final_stats (api : ERC3) (model_name task : string) : M unit :=
  s <- get ;;
  if (call_count s =? 0)%nat then
    try_except (log_llm api (zero_usage model_name task)) (fun _ => ret tt)
  else ret tt.

(** ** The agent loop *)

(** What the LangGraph agent can make the repository's code do while
    [agent_executor.invoke] runs: call one of the tools, or pass through a
    model call, which fires the two callbacks. *)
Inductive agent_event :=
| ToolCall (tool : ERC3Tool) (kwargs : gmap string pyval)
| ThinkCall (thoughts : string)
| PlanCall (plan : string)
| VerifyCall (v : VerifyInput)
| LlmStart (now : Z)
| LlmEnd (now : Z) (response : LLMResult).

(** How [agent_executor.invoke] ends: it returns its result, or raises
    (the recursion limit, a failed model call, ...). *)
Inductive loop_end :=
| Returns
| Raises (e : exn).

Record agent_run := { events : list agent_event; ending : loop_end }.

Definition run_event (api : ERC3) (model_name task : string)
    (ev : agent_event) : M unit :=
  match ev with
  | ToolCall tool kwargs => _run api tool kwargs ;;; ret tt
  | ThinkCall thoughts => think_function thoughts ;;; ret tt
  | PlanCall plan => plan_function plan ;;; ret tt
  | VerifyCall v => verify_function v ;;; ret tt
  | LlmStart now => on_llm_start now
  | LlmEnd now response => on_llm_end api model_name task now response
  end.

Fixpoint run_events (api : ERC3) (model_name task : string)
    (evs : list agent_event) : M unit :=
  match evs with
  | [] => ret tt
  | ev :: evs' =>
      run_event api model_name task ev ;;; run_events api model_name task evs'
  end.

Definition agent_executor_invoke (api : ERC3) (model_name task : string)
    (agent : agent_run) : M unit :=
  run_events api model_name task (events agent) ;;;
  match ending agent with
  | Returns => ret tt
  | Raises e => raise e
  end.

(** ** Auto-completion at the end of [run_agent] *)

(** [d.get(k)] *)
Definition dict_get (d : gmap string pyval) (k : string) : pyval :=
  default PNone (d !! k).

(** [a or b] *)
Definition py_or (a b : pyval) : pyval := if truthy a then a else b.

(** Truth value of a dict. *)
Definition dict_truthy (d : gmap string pyval) : bool :=
  match map_to_list d with [] => false | _ => true end.

(** One entry of [links]. *)
Record AgentLink := { kind : string; id : string }.

Definition link_dict (l : AgentLink) : pyval :=
  PDict [("kind", PStr (kind l)); ("id", PStr (id l))].

(** The keyword arguments of [dev.Req_ProvideAgentResponse(tool="/respond",
    message=..., outcome=..., links=...)]. *)
Definition respond_kwargs (message outcome : pyval) (links : list AgentLink)
  : gmap string pyval :=
  <["tool" := PStr "/respond"]>
  (<["message" := message]>
  (<["outcome" := outcome]>
  (<["links" := PList (map link_dict links)]> ∅))).

Definition safe_outcomes_no_links : list string :=
  ["error_internal"; "denied_security"; "none_unsupported"].

(** [outcome not in safe_outcomes_no_links]: a list or a dict cannot be
    hashed. *)
Definition not_in_safe_outcomes (outcome : pyval) : result bool :=
  match outcome with
  | PStr s => Ok (negb (existsb (String.eqb s) safe_outcomes_no_links))
  | PList _ | PDict _ =>
      Raise (Exception ("unhashable type: '" +:+ type_name outcome +:+ "'"))
  | _ => Ok true
  end.

(** Lines 1442-1445: the ids of one comma-separated list. *)
Definition link_items (kind : string) (raw : string) : list AgentLink :=
  flat_map (fun item =>
              let item := strip item in
              if nonempty item then [{| kind := kind; id := item |}] else [])
           (split ","%char raw).

(** Lines 1441-1445 for one of the three lists. *)
Definition links_of (kind : string) (raw : pyval) : result (list AgentLink) :=
  if truthy raw then
    match raw with
    | PStr s => if not_none s then Ok (link_items kind s) else Ok []
    | _ => Raise (Exception ("'" +:+ type_name raw
                             +:+ "' object has no attribute 'lower'"))
    end
  else Ok [].

(** Lines 1434-1445: the list [links]. *)
Definition auto_links (payload : gmap string pyval) (outcome : pyval)
  : result (list AgentLink) :=
  match not_in_safe_outcomes outcome with
  | Raise e => Raise e
  | Ok false => Ok []
  | Ok true =>
      match links_of "employee" (dict_get payload "employee_links") with
      | Raise e => Raise e
      | Ok l1 =>
          match links_of "project" (dict_get payload "project_links") with
          | Raise e => Raise e
          | Ok l2 =>
              match links_of "customer" (dict_get payload "customer_links") with
              | Raise e => Raise e
              | Ok l3 => Ok (l1 ++ l2 ++ l3)
              end
          end
      end
  end.

(** Lines 1428-1458: the agent returned; complete the task if it did not. *)
Definition auto_complete (api : ERC3) : M unit :=
  s <- get ;;
  if negb (_response_provided s) then
    try_except
      (if _verified s && dict_truthy (_last_verify_payload s) then
         let payload := _last_verify_payload s in
         let message :=
           py_or (dict_get payload "reasoning")
                 (PStr "Auto-submitted based on verification step.") in
         let outcome :=
           py_or (dict_get payload "outcome") (PStr "error_internal") in
         links <- lift (auto_links payload outcome) ;;
         auto_req <- new_request api Req_ProvideAgentResponse
                       (respond_kwargs message outcome links) ;;
         dispatch api auto_req ;;;
         modify (set_response_provided true)
       else ret tt)
      (fun _ => ret tt)
  else ret tt.

Definition INTERNAL_ERROR_MESSAGE : string :=
  "An internal error occurred while processing your request. Please try again later.".

(** Lines 1460-1479: the agent raised [e]. *)
Definition on_agent_error (api : ERC3) (e : exn) : M unit :=
  s <- get ;;
  (if negb (_response_provided s) then
     try_except
       (error_request <- new_request api Req_ProvideAgentResponse
                           (respond_kwargs (PStr INTERNAL_ERROR_MESSAGE)
                                           (PStr "error_internal") []) ;;
        dispatch api error_request ;;;
        ret tt)
       (fun _ => ret tt)
   else ret tt) ;;;
  raise e.

(** The flags are reset at the start of every task. *)
Definition reset_flags (s : state) : state :=
  set_verified false ∅ (set_response_provided false s).

(** [run_agent(model, api, task)].  The final message of a returned result
    is only logged; LangGraph returns at least the two input messages, so
    reading the last one does not fail. *)
Definition run_agent (api : ERC3) (model_name task : string)
    (agent : agent_run) : M unit :=
  modify reset_flags ;;;
  lift (api_who_am_i api) ;;;
  modify new_callback ;;;
  try_finally
    (try_except
       (agent_executor_invoke api model_name task agent ;;;
        auto_complete api)
       (on_agent_error api))
    (log_final_stats api model_name task).

(** A state before the first task: the module has just been loaded. *)
Definition initial_state : state :=
  {| _response_provided := false; _verified := false;
     _last_verify_payload := ∅; api_calls := [];
     start_time := None; total_duration := 0;
     total_completion_tokens := 0; total_prompt_tokens := 0;
     total_tokens := 0; call_count := 0%nat |}.

(** * Properties *)

(** ** Reading the outside-world history *)

(** A terminal response that the API accepted. *)
Definition is_submission (c : api_call) : bool :=
  match c with
  | Dispatched r (Ok _) => String.eqb (req_class r) Req_ProvideAgentResponse
  | _ => false
  end.

Definition submissions (h : list api_call) : nat :=
  length (List.filter is_submission h).

(** The requests passed to [dispatch], accepted or not. *)
Definition dispatched (h : list api_call) : list request :=
  flat_map (fun c => match c with Dispatched r _ => [r] | _ => [] end) h.

(** The records passed to [log_llm]. *)
Definition usage_sent (h : list api_call) : list UsageRecord :=
  flat_map (fun c => match c with LoggedLLM u _ => [u] | _ => [] end) h.

(** The records that [log_llm] took without raising. *)
Definition usage_logged (h : list api_call) : list UsageRecord :=
  flat_map (fun c => match c with LoggedLLM u (Ok _) => [u] | _ => [] end) h.

(** The calls made since the history was [old]. *)
Definition calls_since (old : list api_call) (s : state) : list api_call :=
  skipn (length old) (api_calls s).

(** An event that calls an API tool calls one of [tools]. *)
Definition registered (ev : agent_event) : Prop :=
  match ev with
  | ToolCall tool _ => In tool tools
  | _ => True
  end.

(** The text that the [except] clauses of [_run] return for [e]. *)
Definition error_text (e : exn) : string :=
  match e with
  | ApiException detail _ => "API Error: " +:+ detail
  | Exception msg => "Error: " +:+ msg
  end.

(** ** Sample collaborators and inputs *)

(** An API that accepts every request and answers every call. *)
Definition accepting_api : ERC3 :=
  {| request_class := fun _ _ => None;
     api_dispatch := fun _ _ => Ok "{}";
     api_log_llm := fun _ _ => Ok tt;
     api_who_am_i := Ok tt;
     json_dumps := fun _ => Ok "[]" |}.

(** An API that rejects the first request it is sent and accepts the
    following ones. *)
Definition rate_limited_api : ERC3 :=
  {| request_class := fun _ _ => None;
     api_dispatch := fun h _ =>
       match h with
       | [] => Raise (ApiException "rate limited" "rate_limited")
       | _ => Ok "{}"
       end;
     api_log_llm := fun _ _ => Ok tt;
     api_who_am_i := Ok tt;
     json_dumps := fun _ => Ok "[]" |}.

Definition search_projects : ERC3Tool :=
  create_erc3_tool "Req_SearchProjects" "Req_SearchProjects".

(** Arguments of a terminal call. *)
Definition answer_kwargs (outcome message : string) : gmap string pyval :=
  <["tool" := PStr "/respond"]>
  (<["message" := PStr message]>
  (<["outcome" := PStr outcome]>
  (<["links" := PList []]> ∅))).

(** Arguments of a search with a page size. *)
Definition search_kwargs (page : Z) : gmap string pyval :=
  <["page" := PInt page]> (<["offset" := PInt 0]> ∅).

(** A verification and a second terminal call that follow a first
    terminal call. *)
Definition sample_verify : VerifyInput :=
  {| outcome := "ok_not_found"; employee_links := "emp_1";
     project_links := "none"; customer_links := "None";
     made_modifications := false; permissions_checked := false;
     wiki_checked := true; reasoning := "No such project." |}.

Definition events_after_answer : list agent_event :=
  [ ToolCall search_projects (search_kwargs 9);
    VerifyCall sample_verify;
    ToolCall provide_agent_response (answer_kwargs "denied_security" "no") ].

(** ** Reading a run *)

(** The arguments of the last call of [verify] among the events. *)
Definition last_verify (evs : list agent_event) : option VerifyInput :=
  fold_left (fun acc ev => match ev with VerifyCall v => Some v | _ => acc end)
            evs None.

(** The state when [agent_executor.invoke] is left: the flags have been
    reset, the set-up is done, the callback is new, the events have run. *)
Definition at_loop_end (api : ERC3) (model_name task : string)
    (agent : agent_run) (s : state) : state :=
  (run_events api model_name task (events agent)
     (new_callback (reset_flags s))).2.

(** The state when [run_agent] is left. *)
Definition after_task (api : ERC3) (model_name task : string)
    (agent : agent_run) (s : state) : state :=
  (run_agent api model_name task agent s).2.

(** The fields declared by [VerifyInput]. *)
Definition VerifyInput_fields : list string :=
  ["outcome"; "employee_links"; "project_links"; "customer_links";
   "made_modifications"; "permissions_checked"; "wiki_checked"; "reasoning"].

(** The keys of the dict stored by [verify_function]. *)
Definition payload_keys : list string :=
  ["outcome"; "employee_links"; "project_links"; "customer_links"; "reasoning"].

(** The request built on the error path of [run_agent]. *)
Definition error_request : request :=
  {| req_class := Req_ProvideAgentResponse;
     req_args := respond_kwargs (PStr INTERNAL_ERROR_MESSAGE)
                                (PStr "error_internal") [] |}.

(** The links that the auto-completion derives from the arguments of
    [verify]: one list contributes its stripped, non-empty items unless it
    is empty or equal to "none" up to case. *)
Definition declared_links (kind raw : string) : list AgentLink :=
  if nonempty raw && not_none raw then link_items kind raw else [].

Definition verified_outcome (v : VerifyInput) : string :=
  if nonempty (outcome v) then outcome v else "error_internal".

Definition verified_message (v : VerifyInput) : string :=
  if nonempty (reasoning v) then reasoning v
  else "Auto-submitted based on verification step.".

Definition verified_links (v : VerifyInput) : list AgentLink :=
  if existsb (String.eqb (verified_outcome v)) safe_outcomes_no_links then []
  else declared_links "employee" (employee_links v)
       ++ declared_links "project" (project_links v)
       ++ declared_links "customer" (customer_links v).

(** The request that the auto-completion builds from the arguments of the
    last [verify]. *)
Definition verified_request (v : VerifyInput) : request :=
  {| req_class := Req_ProvideAgentResponse;
     req_args := respond_kwargs (PStr (verified_message v))
                                (PStr (verified_outcome v))
                                (verified_links v) |}.




(** An event other than the end of a model call. *)
Definition no_llm_end (ev : agent_event) : Prop :=
  match ev with LlmEnd _ _ => False | _ => True end.

(** The agent verifies [ok_not_found], then the loop raises. *)
Definition crashing_run : agent_run :=
  {| events := [VerifyCall sample_verify];
     ending := Raises (Exception "Recursion limit of 50 reached") |}.

(** The agent answers in plain text: no [verify], no terminal call. *)
Definition idle_run : agent_run :=
  {| events := [ThinkCall "The answer is 42."]; ending := Returns |}.

(** The scenario of the specification: [verify] with [ok_answer] and one
    employee, and no terminal call. *)
Definition employee_verify : VerifyInput :=
  {| outcome := "ok_answer"; employee_links := "emp_1";
     project_links := "none"; customer_links := "none";
     made_modifications := false; permissions_checked := false;
     wiki_checked := true; reasoning := "The lead is emp_1." |}.

Definition verified_run : agent_run :=
  {| events := [VerifyCall employee_verify]; ending := Returns |}.

(** [verify] called with an empty outcome. *)
Definition empty_outcome_verify : VerifyInput :=
  {| outcome := EmptyString; employee_links := "emp_1";
     project_links := "none"; customer_links := "none";
     made_modifications := false; permissions_checked := false;
     wiki_checked := true; reasoning := "The lead is emp_1." |}.

Definition empty_outcome_run : agent_run :=
  {| events := [VerifyCall empty_outcome_verify]; ending := Returns |}.






(** One model call whose result has no generation (the provider sent no
    choice). *)
Definition empty_choices_run : agent_run :=
  {| events := [LlmStart 100;
                LlmEnd 103 {| llm_output := None; generations := [[]] |}];
     ending := Returns |}.

(** An API whose [who_am_i] fails. *)
Definition offline_api : ERC3 :=
  {| request_class := fun _ _ => None;
     api_dispatch := fun _ _ => Ok "{}";
     api_log_llm := fun _ _ => Ok tt;
     api_who_am_i := Raise (Exception "Connection refused");
     json_dumps := fun _ => Ok "[]" |}.

(** ** Further sample inputs *)

(** A search whose page is given as text. *)
Definition text_page_kwargs : gmap string pyval :=
  <["page" := PStr "9"]> (<["offset" := PInt 0]> ∅).

(** A state in which the terminal response has been provided. *)
Definition completed_state : state := set_response_provided true initial_state.

(** The agent answers through the terminal tool and then keeps calling
    tools. *)
Definition answering_run : agent_run :=
  {| events := ToolCall provide_agent_response (answer_kwargs "ok_answer" "done")
               :: events_after_answer;
     ending := Returns |}.

(** A state left behind by an earlier task: latch set, a verification
    recorded, a model call counted. *)
Definition stale_state : state :=
  count_call 3 (set_verified true (verify_payload sample_verify) completed_state).

(** A model call that answers in plain text. *)
Definition text_response : LLMResult :=
  {| llm_output := None;
     generations :=
       [[ChatGeneration
           {| content := "Done.";
              tool_calls := None;
              additional_kwargs := None;
              response_metadata :=
                Some (Some {| tu_prompt_tokens := Some 120;
                              tu_completion_tokens := Some 7;
                              tu_total_tokens := Some 127;
                              tu_prompt_tokens_details := Some (Some 64) |}) |}]] |}.

(** ** Reading the history of a task *)

(** What every call of a task looks like: a dispatched request has no
    integer page above 5, a usage record has a completion text. *)
Definition well_formed_call (c : api_call) : Prop :=
  match c with
  | Dispatched r _ => forall z, req_args r !! "page" = Some (PInt z) -> z <= 5
  | LoggedLLM u _ => completion u <> EmptyString
  end.

(** The sum of one field over usage records. *)
Definition total_of (f : UsageRecord -> Z) (l : list UsageRecord) : Z :=
  fold_right Z.add 0 (map f l).

(** What a step adds to the history, and what it adds to the totals of
    the callback. *)
Definition step_adds (s s' : state) (l : list api_call) : Prop :=
  api_calls s' = api_calls s ++ l /\
  Forall well_formed_call l /\
  total_prompt_tokens s' = total_prompt_tokens s + total_of prompt_tokens (usage_sent l) /\
  total_completion_tokens s' =
  total_completion_tokens s + total_of completion_tokens (usage_sent l).

(** One model call that answers in plain text, then the loop returns. *)
Definition chatting_run : agent_run :=
  {| events := [LlmStart 100; LlmEnd 104 text_response;
                ToolCall search_projects (search_kwargs 9)];
     ending := Returns |}.

(** ** Reading strings *)

(** The characters of a string. *)
Definition chars (s : string) : list ascii := list_ascii_of_string s.

(** An id as [link_items] returns it: not empty, no comma, nothing that
    [strip] would remove. *)
Definition clean_id (i : string) : Prop :=
  i <> EmptyString /\ strip i = i /\ ~ In ","%char (chars i).

(** A piece of a comma-separated list that stands for the id [i]: the id
    with white space around it. *)
Definition piece_of (piece i : string) : Prop :=
  strip piece = i /\ i <> EmptyString /\ ~ In ","%char (chars piece).

Definition make_link (kind i : string) : AgentLink := {| kind := kind; id := i |}.

(** The test that [verify] and the auto-completion apply to a link list
    before they use it: [raw and raw.lower() != "none"]. *)
Definition link_list_given (raw : string) : bool := nonempty raw && not_none raw.

(** A denial whose link fields are left empty. *)
Definition empty_links_denial : VerifyInput :=
  {| outcome := "denied_security"; employee_links := EmptyString;
     project_links := EmptyString; customer_links := EmptyString;
     made_modifications := false; permissions_checked := false;
     wiki_checked := true; reasoning := "Guests may not see salaries." |}.

(** ** The log formatters *)

Definition ESC : ascii := "027"%char.

Definition CLI_RED : string := String ESC "[31m".
Definition CLI_GREEN : string := String ESC "[32m".
Definition CLI_BLUE : string := String ESC "[34m".
Definition CLI_CLR : string := String ESC "[0m".

(** The class [[0-9;]] of the pattern. *)
Definition is_param (c : ascii) : bool :=
  let n := nat_of_ascii c in
  (((48 <=? n)%nat && (n <=? 57)%nat) || (n =? 59)%nat)%bool.

(** Matching [[0-9;]*m] at the start of [s]: the number of characters
    before the [m], when there is a match. *)
Fixpoint params_len (s : string) : option nat :=
  match s with
  | EmptyString => None
  | String c r =>
      if Ascii.eqb c "m"%char then Some 0%nat
      else if is_param c then option_map S (params_len r)
      else None
  end.

(** Matching the pattern [\x1B\[[0-9;]*m] at the start of [s]: the length
    of the match. *)
Definition match_len (s : string) : option nat :=
  match s with
  | String e (String b r) =>
      if Ascii.eqb e ESC && Ascii.eqb b "["%char
      then option_map (fun n => (n + 3)%nat) (params_len r)
      else None
  | _ => None
  end.

(** [ansi_escape.sub('', s)]: the matches are found from left to right,
    without overlap, and removed; [skip] counts the characters of the
    current match that are still to be dropped. *)
Fixpoint sub_from (skip : nat) (s : string) : string :=
  match s with
  | EmptyString => EmptyString
  | String c r =>
      match skip with
      | S k => sub_from k r
      | O =>
          match match_len s with
          | Some n => sub_from (n - 1) r
          | None => String c (sub_from 0 r)
          end
      end
  end.

(** [PlainFormatter.format], applied to the message that the base class
    has formatted. *)
Definition PlainFormatter_format (message : string) : string :=
  sub_from 0 message.

(** [ColoredFormatter.format]: the message of the base class as it is. *)
Definition ColoredFormatter_format (message : string) : string := message.

(** A log message as the code builds it: text, and colour codes put
    around parts of it. *)
Inductive segment :=
| Text (t : string)
| Color (params : string).

Definition render (seg : segment) : string :=
  match seg with
  | Text t => t
  | Color p => String ESC (String "["%char (p +:+ "m"))
  end.

Definition plain (seg : segment) : string :=
  match seg with
  | Text t => t
  | Color _ => EmptyString
  end.

Definition well_formed_segment (seg : segment) : Prop :=
  match seg with
  | Text t => ~ In ESC (chars t)
  | Color p => forall c, In c (chars p) -> is_param c = true
  end.

Definition concat_strings (l : list string) : string :=
  fold_right String.append EmptyString l.

(** The line logged for a tool call. *)
Definition call_line (tool_call_log : string) : list segment :=
  [Color "34"; Text "CALL"; Color "0"; Text ": "; Text tool_call_log].

(** ** The driver [main.py] *)

(** A task of the session, and what [complete_task] says about it.  A
    float score is taken as the rational number it stands for. *)
Record TaskInfo := { info_task_id : string; spec_id : string; task_text : string }.

Record Eval := { score : Q; logs : string }.

(** The command line: [--only X] and [--fail-fast]. *)
Record Args := { only : option Z; fail_fast : bool }.

(** One entry of [failed_task_details]. *)
Record FailedTask := {
  idx : Z;
  failed_spec_id : string;
  failed_task_text : string;
  reason : string
}.

(** The counters of the loop, with the numbers of the tasks that were
    started. *)
Record Tally := {
  passed_tests : nat;
  failed_tests : nat;
  failed_task_details : list FailedTask;
  started : list Z
}.

Definition empty_tally : Tally :=
  {| passed_tests := 0; failed_tests := 0; failed_task_details := [];
     started := [] |}.

(** A byte that continues a character of more than one byte in UTF-8. *)
Definition is_continuation (c : ascii) : bool :=
  let n := nat_of_ascii c in ((128 <=? n)%nat && (n <=? 191)%nat)%bool.

(** [len(text)]: the number of characters, each of which has one byte
    that is not a continuation. *)
Fixpoint text_length (s : string) : nat :=
  match s with
  | EmptyString => 0%nat
  | String c r => ((if is_continuation c then 0 else 1) + text_length r)%nat
  end.

(** [text[:n]]: the first [n] characters. *)
Fixpoint take_chars (n : nat) (s : string) : string :=
  match s with
  | EmptyString => EmptyString
  | String c r =>
      if is_continuation c then String c (take_chars n r)
      else match n with
           | O => EmptyString
           | S k => String c (take_chars k r)
           end
  end.

(** [task.task_text[:60] + '...' if len(task.task_text) > 60 else
    task.task_text] *)
Definition short_text (text : string) : string :=
  if (60 <? text_length text)%nat
  then take_chars 60 text +:+ "..."
  else text.

(** [score > 0] *)
Definition positive (q : Q) : bool := negb (Qle_bool q 0).

(** The body of the [for] loop for one task.  [world pos task] is what
    [start_task], [run_agent] (whose exceptions are printed and dropped)
    and [complete_task] give for the task at position [pos]: the
    evaluation when there is one, or the exception of [start_task] or
    [complete_task], which ends the script.  The result says whether the
    loop goes on. *)
Definition one_task (fail_fast : bool) (i : Z) (task : TaskInfo)
    (outcome : option Eval) (t : Tally) : Tally * bool :=
  let t := {| passed_tests := passed_tests t; failed_tests := failed_tests t;
              failed_task_details := failed_task_details t;
              started := started t ++ [i] |} in
  match outcome with
  | None => (t, true)
  | Some ev =>
      if positive (score ev) then
        ({| passed_tests := S (passed_tests t); failed_tests := failed_tests t;
            failed_task_details := failed_task_details t;
            started := started t |}, true)
      else
        ({| passed_tests := passed_tests t; failed_tests := S (failed_tests t);
            failed_task_details :=
              failed_task_details t ++
              [{| idx := i; failed_spec_id := spec_id task;
                  failed_task_text := short_text (task_text task);
                  reason := strip (logs ev) |}];
            started := started t |},
         negb fail_fast)
  end.

(** The [for] loop over [enumerate(tasks_to_run, start=i)]. *)
Fixpoint run_tasks (world : nat -> TaskInfo -> result (option Eval))
    (fail_fast : bool) (i : Z) (pos : nat) (tasks : list TaskInfo) (t : Tally)
  : result Tally :=
  match tasks with
  | [] => Ok t
  | task :: rest =>
      match world pos task with
      | Raise e => Raise e
      | Ok outcome =>
          match one_task fail_fast i task outcome t with
          | (t', true) => run_tasks world fail_fast (i + 1) (S pos) rest t'
          | (t', false) => Ok t'
          end
      end
  end.

(** How the script ends: [exit(1)], an uncaught exception, or the end of
    the file, with the counters and whether the session was submitted. *)
Inductive main_end :=
| Exit (code : Z)
| Crashed (e : exn)
| Finished (t : Tally) (submitted : bool).

(** The choice of [tasks_to_run] and of the first number. *)
Definition tasks_to_run (args : Args) (tasks : list TaskInfo)
  : option (list TaskInfo * Z) :=
  match only args with
  | Some n =>
      if (n <? 1) || (Z.of_nat (length tasks) <? n) then None
      else match nth_error tasks (Z.to_nat (n - 1)) with
           | Some task => Some ([task], if n =? 0 then 1 else n)
           | None => None
           end
  | None => Some (tasks, 1)
  end.

(** [main.py] from the option handling on. *)
Definition main (args : Args) (tasks : list TaskInfo)
    (world : nat -> TaskInfo -> result (option Eval)) : main_end :=
  match tasks_to_run args tasks with
  | None => Exit 1
  | Some (to_run, first) =>
      match run_tasks world (fail_fast args) first 0 to_run empty_tally with
      | Raise e => Crashed e
      | Ok t =>
          Finished t
            (match only args with
             | Some _ => false
             | None => negb (fail_fast args && (0 <? failed_tests t)%nat)
             end)
      end
  end.

(** The numbers [i], [i+1], ... given to [m] tasks in a row. *)
Definition numbers_from (i : Z) (m : nat) : list Z :=
  map (fun k => i + Z.of_nat k) (seq 0 m).

(** What holds of every entry of [failed_task_details]. *)
Definition tidy_entry (numbers : list Z) (d : FailedTask) : Prop :=
  In (idx d) numbers /\
  (text_length (failed_task_text d) <= 63)%nat /\
  strip (reason d) = reason d.

(** Sample session: three tasks, the second of which fails. *)
Definition sample_tasks : list TaskInfo :=
  [ {| info_task_id := "t1"; spec_id := "who_am_i"; task_text := "Who am I?" |};
    {| info_task_id := "t2"; spec_id := "raise_salary";
       task_text := "Raise the salary of every employee of the Vienna office by ten percent." |};
    {| info_task_id := "t3"; spec_id := "list_projects"; task_text := "List my projects." |} ].

Definition sample_world (pos : nat) (task : TaskInfo) : result (option Eval) :=
  if String.eqb (spec_id task) "raise_salary"
  then Ok (Some {| score := 0; logs := " expected denied_security " |})
  else Ok (Some {| score := 1; logs := "ok" |}).

(** * Facts about strings *)

Lemma append_assoc (s1 s2 s3 : string) :
  (s1 +:+ s2) +:+ s3 = s1 +:+ (s2 +:+ s3).
Proof.
  induction s1 as [|c s1 IH]; [reflexivity|].
  change (String c ((s1 +:+ s2) +:+ s3) = String c (s1 +:+ (s2 +:+ s3))).
  rewrite IH. reflexivity.
Qed.

Lemma append_nil_r (s : string) : s +:+ EmptyString = s.
Proof.
  induction s as [|c s IH]; [reflexivity|].
  change (String c (s +:+ EmptyString) = String c s). rewrite IH. reflexivity.
Qed.

Lemma append_cons (c : ascii) (s t : string) :
  String c s +:+ t = String c (s +:+ t).
Proof. reflexivity. Qed.

Lemma append_nil_l (s : string) : EmptyString +:+ s = s.
Proof. reflexivity. Qed.

Lemma length_append (s t : string) :
  String.length (s +:+ t) = (String.length s + String.length t)%nat.
Proof.
  induction s as [|c s IH]; [reflexivity|].
  rewrite append_cons. cbn [String.length]. rewrite IH. reflexivity.
Qed.

Lemma prefix_nil (h : string) : String.prefix EmptyString h = true.
Proof. destruct h; reflexivity. Qed.

Lemma prefix_cons x n y h :
  String.prefix (String x n) (String y h)
  = (if Ascii.ascii_dec x y then String.prefix n h else false).
Proof. reflexivity. Qed.

Lemma prefix_append (s x : string) : String.prefix s (s +:+ x) = true.
Proof.
  induction s as [|c s IH]; [apply prefix_nil|].
  rewrite append_cons, prefix_cons.
  destruct (Ascii.ascii_dec c c); [exact IH|congruence].
Qed.

Lemma prefix_spec (n h : string) :
  String.prefix n h = true <-> exists post, h = n +:+ post.
Proof.
  split.
  - revert h. induction n as [|x n IH]; intros h H.
    + exists h. reflexivity.
    + destruct h as [|y h]; [discriminate|].
      rewrite prefix_cons in H. destruct (Ascii.ascii_dec x y); [|discriminate].
      subst y. destruct (IH h H) as [post ->]. exists post. reflexivity.
  - intros [post ->]. apply prefix_append.
Qed.

(** [contains] is the search for an occurrence. *)
Lemma contains_spec (n h : string) : contains n h = true <-> mentions n h.
Proof.
  unfold mentions. split.
  - induction h as [|y h IH]; cbn [contains]; rewrite orb_true_iff.
    + intros [H|H]; [|discriminate]. apply prefix_spec in H as [post H].
      exists EmptyString, post. exact H.
    + intros [H|H].
      * apply prefix_spec in H as [post H]. exists EmptyString, post. exact H.
      * destruct (IH H) as (pre & post & ->). exists (String y pre), post.
        reflexivity.
  - intros (pre & post & ->). induction pre as [|y pre IH].
    + rewrite append_nil_l.
      destruct (n +:+ post) eqn:E; cbn [contains]; rewrite <- E;
        rewrite prefix_append; reflexivity.
    + rewrite append_cons. cbn [contains]. rewrite IH. apply orb_true_r.
Qed.

Lemma mentions_append x a t b : mentions x t -> mentions x (a +:+ t +:+ b).
Proof.
  intros (pre & post & ->). exists (a +:+ pre), (post +:+ b).
  rewrite !append_assoc. reflexivity.
Qed.

Lemma join_cons sep x y l :
  join sep (x :: y :: l) = x +:+ sep +:+ join sep (y :: l).
Proof. reflexivity. Qed.

(** [sep.join(l)] holds every entry of [l]. *)
Lemma mentions_join x sep l : In x l -> mentions x (join sep l).
Proof.
  induction l as [|y l IH]; [destruct 1|]. intros Hin.
  destruct l as [|z l].
  - destruct Hin as [->|[]]. exists EmptyString, EmptyString.
    rewrite append_nil_r. reflexivity.
  - rewrite join_cons. destruct Hin as [->|Hin].
    + exists EmptyString, (sep +:+ join sep (z :: l)). reflexivity.
    + destruct (IH Hin) as (pre & post & E). rewrite E.
      exists (y +:+ sep +:+ pre), post. rewrite !append_assoc. reflexivity.
Qed.

Lemma contains_cons n y h : contains n h = true -> contains n (String y h) = true.
Proof. intros H. cbn [contains]. rewrite H. apply orb_true_r. Qed.

Lemma chars_append s1 s2 : chars (s1 +:+ s2) = chars s1 ++ chars s2.
Proof.
  induction s1 as [|c s1 IH]; [reflexivity|].
  rewrite append_cons. unfold chars in *. cbn [list_ascii_of_string].
  rewrite IH. reflexivity.
Qed.

(** ** [lower] *)

Lemma lower_eq c c2 r2 :
  lower (String c (String c2 r2))
  = if (Ascii.eqb c "226" && Ascii.eqb c2 "132")%bool then
      match r2 with
      | String c3 r3 =>
          if Ascii.eqb c3 "170" then String "k" (lower r3)
          else String c (lower (String c2 r2))
      | EmptyString => String c (lower (String c2 r2))
      end
    else if (Ascii.eqb c "196" && Ascii.eqb c2 "176")%bool then
      String "i" (String "204" (String "135" (lower r2)))
    else String (lower_ascii c) (lower (String c2 r2)).
Proof. reflexivity. Qed.

Lemma lower_kelvin r : lower (KELVIN_SIGN +:+ r) = String "k" (lower r).
Proof. reflexivity. Qed.

Lemma lower_i_dot r : lower (CAPITAL_I_DOT +:+ r) = SMALL_I_DOT +:+ lower r.
Proof. reflexivity. Qed.

Lemma lower_byte c r :
  c <> "226"%char -> c <> "196"%char ->
  lower (String c r) = String (lower_ascii c) (lower r).
Proof.
  intros H1 H2. destruct r as [|c2 r2]; [reflexivity|]. rewrite lower_eq.
  destruct (Ascii.eqb_spec c "226"); [contradiction|].
  destruct (Ascii.eqb_spec c "196"); [contradiction|]. reflexivity.
Qed.

(** The four ways in which [lower] reads the head of a text. *)
Lemma lower_cases s :
  s = EmptyString \/
  (exists r, s = KELVIN_SIGN +:+ r /\ lower s = String "k" (lower r)) \/
  (exists r, s = CAPITAL_I_DOT +:+ r /\ lower s = SMALL_I_DOT +:+ lower r) \/
  (exists c r, s = String c r /\ lower s = String (lower_ascii c) (lower r)).
Proof.
  destruct s as [|c [|c2 r2]]; [left; reflexivity| |].
  - right; right; right. exists c, EmptyString. split; reflexivity.
  - right. rewrite lower_eq.
    destruct (Ascii.eqb_spec c "226") as [->|Hc];
      [destruct (Ascii.eqb_spec c2 "132") as [->|Hc2]|]; cbn [andb].
    + destruct r2 as [|c3 r3];
        [right; right; exists "226"%char, (String "132" EmptyString);
         split; reflexivity|].
      destruct (Ascii.eqb_spec c3 "170") as [->|Hc3].
      * left. exists r3. split; reflexivity.
      * right; right. exists "226"%char, (String "132" (String c3 r3)).
        split; reflexivity.
    + right; right. exists "226"%char, (String c2 r2). split; reflexivity.
    + destruct (Ascii.eqb_spec c "196") as [->|Hc'];
        [destruct (Ascii.eqb_spec c2 "176") as [->|Hc2]|]; cbn [andb].
      * right; left. exists r2. split; reflexivity.
      * right; right. exists "196"%char, (String c2 r2). split; reflexivity.
      * right; right. exists c, (String c2 r2). split; reflexivity.
Qed.

Lemma lower_nil_inv w : lower w = EmptyString -> w = EmptyString.
Proof.
  intros H.
  destruct (lower_cases w)
    as [->|[(r & -> & E)|[(r & -> & E)|(c & r & -> & E)]]];
    [reflexivity| | |]; rewrite E in H; discriminate.
Qed.

Lemma plain_char_spec x :
  plain_char x = true ->
  (nat_of_ascii x < 128)%nat /\
  ~ ((65 <= nat_of_ascii x)%nat /\ (nat_of_ascii x <= 90)%nat) /\
  x <> "i"%char.
Proof.
  unfold plain_char. cbv zeta. rewrite !andb_true_iff, !negb_true_iff.
  intros [[H1 H2] H3]. apply Nat.ltb_lt in H1.
  split; [exact H1|]. split.
  - intros [Ha Hb]. apply Nat.leb_le in Ha, Hb. rewrite Ha, Hb in H2.
    discriminate.
  - intros ->. discriminate.
Qed.

(** For a plain [x], [lower_ascii] gives [x] on [x] and on its capital
    only. *)
Lemma lower_ascii_plain c x :
  plain_char x = true -> lower_ascii c = x ->
  same_letter c x /\ (nat_of_ascii c < 128)%nat.
Proof.
  intros Hx H. apply plain_char_spec in Hx as (H1 & H2 & H3).
  unfold lower_ascii in H. cbv zeta in H.
  destruct ((65 <=? nat_of_ascii c)%nat && (nat_of_ascii c <=? 90)%nat)%bool eqn:E.
  - apply andb_true_iff in E as [Ha Hb]. apply Nat.leb_le in Ha, Hb.
    assert (Hn : nat_of_ascii x = (nat_of_ascii c + 32)%nat).
    { rewrite <- H. apply nat_ascii_embedding. lia. }
    split; [right; lia|lia].
  - subst x. split; [left; reflexivity|exact H1].
Qed.

Lemma same_letter_lower c x :
  plain_char x = true -> same_letter c x ->
  lower_ascii c = x /\ (nat_of_ascii c < 128)%nat.
Proof.
  intros Hx H. apply plain_char_spec in Hx as (H1 & H2 & H3).
  unfold lower_ascii. cbv zeta. destruct H as [->|(Ha & Hb & Hn)].
  - split; [|exact H1].
    destruct ((65 <=? nat_of_ascii x)%nat && (nat_of_ascii x <=? 90)%nat)%bool eqn:E;
      [|reflexivity].
    apply andb_true_iff in E as [Ea Eb]. apply Nat.leb_le in Ea, Eb. tauto.
  - assert (E : ((65 <=? nat_of_ascii c)%nat && (nat_of_ascii c <=? 90)%nat)%bool = true).
    { apply andb_true_iff. split; apply Nat.leb_le; lia. }
    rewrite E, <- Hn, ascii_nat_embedding. split; [reflexivity|lia].
Qed.

Lemma byte_below c d :
  (nat_of_ascii c < 128)%nat -> (128 <=? nat_of_ascii d)%nat = true -> c <> d.
Proof. intros H1 H2 ->. apply Nat.leb_le in H2. lia. Qed.

Lemma ascii_not_lead c :
  (nat_of_ascii c < 128)%nat ->
  c <> "226"%char /\ c <> "196"%char /\ c <> "132"%char /\ c <> "170"%char
  /\ c <> "176"%char.
Proof.
  intros H. repeat split; apply byte_below; try exact H; reflexivity.
Qed.

(** [lower] gives a plain word exactly on its spellings. *)
Lemma lower_spells n :
  plain_word n = true -> forall w, lower w = n <-> spells n w.
Proof.
  induction n as [|x n IH]; intros Hp w.
  - cbn [spells]. split; [apply lower_nil_inv|intros ->; reflexivity].
  - cbn [plain_word] in Hp. apply andb_true_iff in Hp as [Hx Hn].
    cbn [spells]. split.
    + intros H.
      destruct (lower_cases w)
        as [->|[(r & -> & E)|[(r & -> & E)|(c & r & -> & E)]]];
        [discriminate| | |]; rewrite E in H.
      * injection H as <- H. right. split; [reflexivity|]. exists r.
        split; [reflexivity|]. apply IH; assumption.
      * injection H as <- H. discriminate.
      * injection H as Hc H. left. exists c, r. split; [reflexivity|].
        split; [apply (lower_ascii_plain c x Hx Hc)|apply IH; assumption].
    + intros [(c & w' & -> & Hs & Hsp)|(-> & w' & -> & Hsp)].
      * destruct (same_letter_lower c x Hx Hs) as [Hl Hc].
        destruct (ascii_not_lead c Hc) as (H1 & H2 & _).
        rewrite lower_byte by assumption. rewrite Hl. f_equal.
        apply IH; assumption.
      * rewrite lower_kelvin. f_equal. apply IH; assumption.
Qed.

(** A plain word at the head of the lowered text is the lowering of a
    head of the text. *)
Lemma prefix_lower n :
  plain_word n = true ->
  forall r, String.prefix n (lower r) = true ->
  exists w post, r = w +:+ post /\ lower w = n.
Proof.
  induction n as [|x n IH]; intros Hp r H.
  - exists EmptyString, r. split; reflexivity.
  - cbn [plain_word] in Hp. apply andb_true_iff in Hp as [Hx Hn].
    destruct (lower_cases r)
      as [->|[(r' & -> & E)|[(r' & -> & E)|(c & r' & -> & E)]]];
      [discriminate| | |]; rewrite E in H.
    + rewrite prefix_cons in H.
      destruct (Ascii.ascii_dec x "k"); [subst x|discriminate].
      destruct (IH Hn r' H) as (w & post & -> & Hw).
      exists (KELVIN_SIGN +:+ w), post. split.
      * rewrite append_assoc. reflexivity.
      * rewrite lower_kelvin, Hw. reflexivity.
    + unfold SMALL_I_DOT in H. rewrite append_cons, prefix_cons in H.
      destruct (Ascii.ascii_dec x "i"); [subst x|discriminate]. discriminate.
    + rewrite prefix_cons in H.
      destruct (Ascii.ascii_dec x (lower_ascii c)) as [Hc|]; [|discriminate].
      destruct (IH Hn r' H) as (w & post & -> & Hw).
      destruct (lower_ascii_plain c x Hx (eq_sym Hc)) as [_ Hb].
      destruct (ascii_not_lead c Hb) as (H1 & H2 & _).
      exists (String c w), post. split; [reflexivity|].
      rewrite lower_byte by assumption. rewrite Hw, Hc. reflexivity.
Qed.

(** Lowering a text that starts with a spelling of a plain word. *)
Lemma lower_app_word n :
  plain_word n = true ->
  forall w post, lower w = n -> lower (w +:+ post) = n +:+ lower post.
Proof.
  induction n as [|x n IH]; intros Hp w post H.
  - apply lower_nil_inv in H. subst w. reflexivity.
  - cbn [plain_word] in Hp. apply andb_true_iff in Hp as [Hx Hn].
    destruct (lower_cases w)
      as [->|[(r' & -> & E)|[(r' & -> & E)|(c & r' & -> & E)]]];
      [discriminate| | |]; rewrite E in H.
    + injection H as <- H. rewrite append_assoc, lower_kelvin, append_cons.
      f_equal. apply IH; assumption.
    + injection H as <- H. discriminate.
    + injection H as Hc H. rewrite !append_cons.
      destruct (lower_ascii_plain c x Hx Hc) as [_ Hb].
      destruct (ascii_not_lead c Hb) as (H1 & H2 & _).
      rewrite lower_byte by assumption. rewrite Hc. f_equal.
      apply IH; assumption.
Qed.

Lemma prefix_other x n y h : x <> y -> String.prefix (String x n) (String y h) = false.
Proof.
  intros H. rewrite prefix_cons. destruct (Ascii.ascii_dec x y); [contradiction|reflexivity].
Qed.

(** An occurrence of a plain word in the lowered text comes from a
    spelling of the word in the text. *)
Lemma contains_lower_found n :
  plain_word n = true -> n <> EmptyString ->
  forall k r, (String.length r <= k)%nat -> contains n (lower r) = true ->
  exists pre w post, r = pre +:+ w +:+ post /\ lower w = n.
Proof.
  intros Hp Hne. induction k as [|k IH]; intros r Hk H.
  - destruct r; [|cbn in Hk; lia]. destruct n; [congruence|discriminate].
  - assert (Hhead : String.prefix n (lower r) = true ->
                    exists pre w post, r = pre +:+ w +:+ post /\ lower w = n).
    { intros Hpre. destruct (prefix_lower n Hp r Hpre) as (w & post & -> & Hw).
      exists EmptyString, w, post. split; [reflexivity|exact Hw]. }
    destruct n as [|x n']; [congruence|].
    assert (Hx : plain_char x = true).
    { cbn [plain_word] in Hp. apply andb_true_iff in Hp. tauto. }
    destruct (plain_char_spec x Hx) as (Hx1 & Hx2 & Hx3).
    destruct (lower_cases r)
      as [->|[(r' & -> & E)|[(r' & -> & E)|(c & r' & -> & E)]]].
    + discriminate.
    + rewrite E in H. cbn [contains] in H. rewrite <- E in H.
      apply orb_true_iff in H as [H|H]; [exact (Hhead H)|].
      destruct (IH r') as (pre & w & post & -> & Hw);
        [rewrite length_append in Hk; cbn in Hk; lia|exact H|].
      exists (KELVIN_SIGN +:+ pre), w, post. split; [|exact Hw].
      rewrite append_assoc. reflexivity.
    + rewrite E in H. unfold SMALL_I_DOT in H. rewrite !append_cons in H.
      cbn [contains] in H.
      change (String "i" (String "204" (String "135" (EmptyString +:+ lower r'))))
        with (SMALL_I_DOT +:+ lower r') in H.
      rewrite <- E in H. rewrite append_nil_l in H.
      apply orb_true_iff in H as [H|H]; [exact (Hhead H)|].
      rewrite !prefix_other in H.
      * cbn [orb] in H.
        destruct (IH r') as (pre & w & post & -> & Hw);
          [rewrite length_append in Hk; cbn in Hk; lia|exact H|].
        exists (CAPITAL_I_DOT +:+ pre), w, post. split; [|exact Hw].
        rewrite append_assoc. reflexivity.
      * apply byte_below; [exact Hx1|reflexivity].
      * apply byte_below; [exact Hx1|reflexivity].
    + rewrite E in H. cbn [contains] in H. rewrite <- E in H.
      apply orb_true_iff in H as [H|H]; [exact (Hhead H)|].
      destruct (IH r') as (pre & w & post & -> & Hw); [cbn in Hk; lia|exact H|].
      exists (String c pre), w, post. split; [reflexivity|exact Hw].
Qed.

(** Text put in front of a head-clean text does not hide an occurrence
    in its lowering. *)
Lemma contains_lower_after n t :
  head_clean t -> contains n (lower t) = true ->
  forall k pre, (String.length pre <= k)%nat ->
  contains n (lower (pre +:+ t)) = true.
Proof.
  intros Hc Ht. induction k as [|k IH]; intros pre Hk.
  - destruct pre; [exact Ht|cbn in Hk; lia].
  - destruct pre as [|c p]; [exact Ht|]. cbn [String.length] in Hk.
    destruct (lower_cases (String c p +:+ t))
      as [E0|[(r & Es & E)|[(r & Es & E)|(c0 & r0 & Es & E)]]].
    + discriminate.
    + rewrite E. apply contains_cons.
      rewrite append_cons in Es. unfold KELVIN_SIGN in Es.
      rewrite !append_cons, append_nil_l in Es. injection Es as -> Es.
      destruct p as [|c2 p].
      { rewrite append_nil_l in Es. destruct (Hc _ _ Es) as (H1 & _).
        congruence. }
      rewrite append_cons in Es. injection Es as -> Es.
      destruct p as [|c3 p].
      { rewrite append_nil_l in Es. destruct (Hc _ _ Es) as (_ & H2 & _).
        congruence. }
      rewrite append_cons in Es. injection Es as -> Es. subst r.
      apply IH. cbn in Hk. lia.
    + rewrite E. unfold SMALL_I_DOT. rewrite !append_cons, append_nil_l.
      do 3 apply contains_cons.
      rewrite append_cons in Es. unfold CAPITAL_I_DOT in Es.
      rewrite !append_cons, append_nil_l in Es. injection Es as -> Es.
      destruct p as [|c2 p].
      { rewrite append_nil_l in Es. destruct (Hc _ _ Es) as (_ & _ & H3).
        congruence. }
      rewrite append_cons in Es. injection Es as -> Es. subst r.
      apply IH. cbn in Hk. lia.
    + rewrite E. apply contains_cons.
      rewrite append_cons in Es. injection Es as <- <-.
      apply IH. lia.
Qed.

Lemma spelling_head_clean n w post :
  plain_word n = true -> n <> EmptyString -> lower w = n ->
  head_clean (w +:+ post).
Proof.
  intros Hp Hne Hw c r Hcr. destruct n as [|x n]; [congruence|].
  cbn [plain_word] in Hp. apply andb_true_iff in Hp as [Hx Hn].
  destruct (lower_cases w)
    as [->|[(r' & -> & E)|[(r' & -> & E)|(c' & r' & -> & E)]]];
    [discriminate| | |]; rewrite E in Hw.
  - unfold KELVIN_SIGN in Hcr. rewrite !append_cons in Hcr.
    injection Hcr as <- _. repeat split; discriminate.
  - injection Hw as <- _. discriminate.
  - injection Hw as Hc _. rewrite append_cons in Hcr. injection Hcr as <- _.
    destruct (lower_ascii_plain c' x Hx Hc) as [_ Hb].
    destruct (ascii_not_lead c' Hb) as (_ & _ & H3 & H4 & H5). tauto.
Qed.

(** The search in the lowered text finds the plain word exactly when the
    text holds one of its spellings. *)
Lemma contains_lower_spec n r :
  plain_word n = true -> n <> EmptyString ->
  contains n (lower r) = true <-> mentions_any_case n r.
Proof.
  intros Hp Hne. unfold mentions_any_case. split.
  - intros H.
    destruct (contains_lower_found n Hp Hne (String.length r) r (le_n _) H)
      as (pre & w & post & -> & Hw).
    exists pre, w, post. split; [reflexivity|]. apply lower_spells; assumption.
  - intros (pre & w & post & -> & Hs). apply lower_spells in Hs; [|exact Hp].
    apply (contains_lower_after n (w +:+ post)) with (k := String.length pre).
    + apply (spelling_head_clean n); assumption.
    + rewrite (lower_app_word n Hp w post Hs). apply contains_spec.
      exists EmptyString, (lower post). reflexivity.
    + apply le_n.
Qed.

(** ** [strip] *)

(** A white space character at the head of a text is there whatever
    follows the text. *)
Lemma ws_len_app x q n : ws_len x = S n -> ws_len (x +:+ q) = S n.
Proof.
  intros H. destruct x as [|c r]; [discriminate|]. rewrite append_cons.
  unfold ws_len in *. destruct (is_space c); [exact H|].
  destruct r as [|c2 r2]; [discriminate|]. rewrite append_cons.
  destruct (Ascii.eqb c "194" && (Ascii.eqb c2 "133" || Ascii.eqb c2 "160"))%bool;
    [exact H|].
  destruct r2 as [|c3 r3]; [discriminate|]. rewrite append_cons. exact H.
Qed.

Lemma lstrip_from_suffix s : forall skip, exists p, s = p +:+ lstrip_from skip s.
Proof.
  induction s as [|c r IH]; intros skip; [exists EmptyString; reflexivity|].
  cbn [lstrip_from]. destruct skip as [|k].
  - destruct (ws_len (String c r)) as [|n].
    + exists EmptyString. reflexivity.
    + destruct (IH n) as [p Hp]. exists (String c p). rewrite append_cons, <- Hp.
      reflexivity.
  - destruct (IH k) as [p Hp]. exists (String c p). rewrite append_cons, <- Hp.
    reflexivity.
Qed.

Lemma lstrip_chars c s : In c (chars (lstrip s)) -> In c (chars s).
Proof.
  intros H. destruct (lstrip_from_suffix s 0) as [p Hp]. fold (lstrip s) in Hp.
  rewrite Hp, chars_append. apply in_or_app. right. exact H.
Qed.

Lemma lstrip_clean s : forall skip, ws_len (lstrip_from skip s) = 0%nat.
Proof.
  induction s as [|c r IH]; intros skip; [reflexivity|].
  cbn [lstrip_from]. destruct skip as [|k]; [|apply IH].
  destruct (ws_len (String c r)) as [|n] eqn:E; [exact E|apply IH].
Qed.

Lemma lstrip_fixed x : ws_len x = 0%nat -> lstrip x = x.
Proof.
  intros H. destruct x as [|c r]; [reflexivity|]. unfold lstrip.
  cbn [lstrip_from]. rewrite H. reflexivity.
Qed.

Lemma rstrip_tail s : exists q, s = rstrip s +:+ q /\ all_space q = true.
Proof.
  induction s as [|c r IH]; [exists EmptyString; split; reflexivity|].
  cbn [rstrip]. destruct (all_space (String c r)) eqn:E.
  - exists (String c r). split; [reflexivity|exact E].
  - destruct IH as (q & Hq & Hs). exists q. split; [|exact Hs].
    rewrite append_cons, <- Hq. reflexivity.
Qed.

Lemma rstrip_chars c s : In c (chars (rstrip s)) -> In c (chars s).
Proof.
  intros H. destruct (rstrip_tail s) as (q & Hq & _).
  rewrite Hq, chars_append. apply in_or_app. left. exact H.
Qed.

Lemma all_space_app x : forall k q,
  all_space_from k x = true -> all_space q = true ->
  all_space_from k (x +:+ q) = true.
Proof.
  induction x as [|c x IH]; intros k q Hx Hq.
  - cbn [all_space_from] in Hx. apply Nat.eqb_eq in Hx. subst k. exact Hq.
  - rewrite append_cons. cbn [all_space_from] in *. destruct k as [|k].
    + destruct (ws_len (String c x)) as [|n] eqn:E; [discriminate|].
      rewrite <- append_cons, (ws_len_app _ q _ E). apply IH; assumption.
    + apply IH; assumption.
Qed.

Lemma rstrip_idempotent s : rstrip (rstrip s) = rstrip s.
Proof.
  induction s as [|c r IH]; [reflexivity|]. cbn [rstrip].
  destruct (all_space (String c r)) eqn:E; [reflexivity|]. cbn [rstrip].
  destruct (all_space (String c (rstrip r))) eqn:E2.
  - destruct (rstrip_tail r) as (q & Hq & Hs).
    pose proof (all_space_app (String c (rstrip r)) 0 q E2 Hs) as H.
    rewrite append_cons, <- Hq in H. unfold all_space in E. congruence.
  - rewrite IH. reflexivity.
Qed.

Lemma strip_idempotent s : strip (strip s) = strip s.
Proof.
  unfold strip.
  assert (Hl : lstrip (rstrip (lstrip s)) = rstrip (lstrip s)).
  { apply lstrip_fixed.
    destruct (ws_len (rstrip (lstrip s))) as [|n] eqn:E; [reflexivity|].
    destruct (rstrip_tail (lstrip s)) as (q & Hq & _).
    apply (ws_len_app _ q) in E. rewrite <- Hq in E. unfold lstrip in E.
    rewrite lstrip_clean in E. discriminate. }
  rewrite Hl. apply rstrip_idempotent.
Qed.
(** ** The equations of [_run] *)

Section RunEquations.
Variable api : ERC3.

Lemma _run_except_eq e s : _run_except e s = (Ok (error_text e), s).
Proof. destruct e; reflexivity. Qed.

Lemma _run_intercepted self kwargs s :
  _response_provided s = true ->
  name self = Req_ProvideAgentResponse ->
  _run api self kwargs s = (Ok ALREADY_COMPLETED, s).
Proof.
  intros Hp Hn. unfold _run, bind, get, ret. rewrite Hp, Hn. reflexivity.
Qed.

(** What [_run] does when the call is not intercepted, by the step at
    which it leaves the [try] block. *)
Lemma _run_open self kwargs s :
  _response_provided s && String.eqb (name self) Req_ProvideAgentResponse = false ->
  _run api self kwargs s =
  match clamp_page kwargs with
  | Raise e => (Ok (error_text e), s)
  | Ok kwargs' =>
      match request_class api (tool_request_class self) kwargs' with
      | Some e => (Ok (error_text e), s)
      | None =>
          let r := {| req_class := tool_request_class self; req_args := kwargs' |} in
          match api_dispatch api (api_calls s) r with
          | Raise e => (Ok (error_text e), record_call (Dispatched r (Raise e)) s)
          | Ok txt =>
              if String.eqb (name self) Req_ProvideAgentResponse
              then (Ok (txt +:+ COMPLETED_SUFFIX),
                    set_response_provided true (record_call (Dispatched r (Ok txt)) s))
              else (Ok txt, record_call (Dispatched r (Ok txt)) s)
          end
      end
  end.
Proof.
  intros Hopen. unfold _run, bind at 1, get. rewrite Hopen.
  unfold try_except, _run_try, bind, lift, new_request, dispatch.
  destruct (clamp_page kwargs) as [kw'|e]; [|apply _run_except_eq].
  destruct (request_class api (tool_request_class self) kw') as [e|];
    [apply _run_except_eq|].
  unfold ret at 1. cbn beta iota.
  destruct (api_dispatch api (api_calls s) _) as [txt|e];
    [|apply _run_except_eq].
  destruct (String.eqb (name self) Req_ProvideAgentResponse); reflexivity.
Qed.

(** [_run] always returns a string. *)
Lemma _run_returns self kwargs s :
  exists txt, (_run api self kwargs s).1 = Ok txt.
Proof.
  destruct (_response_provided s && String.eqb (name self) Req_ProvideAgentResponse)
    eqn:Hopen.
  - apply andb_true_iff in Hopen as [Hp Hn]. apply String.eqb_eq in Hn.
    rewrite _run_intercepted by assumption. eauto.
  - rewrite _run_open by assumption.
    destruct (clamp_page kwargs); [|eauto].
    destruct (request_class api _ _); [eauto|]. cbn zeta.
    destruct (api_dispatch api _ _); [|eauto].
    destruct (String.eqb _ _); eauto.
Qed.

(** The latch is never cleared by a tool call. *)
Lemma _run_latch_mono self kwargs s :
  _response_provided s = true ->
  _response_provided (_run api self kwargs s).2 = true.
Proof.
  intros Hp.
  destruct (String.eqb (name self) Req_ProvideAgentResponse) eqn:Hn.
  - apply String.eqb_eq in Hn. rewrite _run_intercepted by assumption. exact Hp.
  - rewrite _run_open by (rewrite Hn; apply andb_false_r).
    destruct (clamp_page kwargs); [|exact Hp].
    destruct (request_class api _ _); [exact Hp|]. cbn zeta.
    destruct (api_dispatch api _ _); rewrite ?Hn; exact Hp.
Qed.
End RunEquations.

(** ** The equations of the callbacks and of [verify] *)

Section EventEquations.
Variable api : ERC3.
Variables model_name task : string.

Lemma on_llm_end_eq now response s :
  on_llm_end api model_name task now response s =
  match start_time s with
  | None => (Ok tt, s)
  | Some t0 =>
      let s1 := count_call (now - t0) s in
      match read_response api response with
      | Raise _ => (Ok tt, set_start_time None s1)
      | Ok (text, usage_data, cached) =>
          let u := {| task_id := task; model := model_name;
                      completion := if nonempty text then text else "[empty_response]";
                      duration_sec := now - t0;
                      prompt_tokens := default 0 (tu_prompt_tokens usage_data);
                      completion_tokens := default 0 (tu_completion_tokens usage_data);
                      cached_prompt_tokens := cached |} in
          let s2 := add_usage (default 0 (tu_completion_tokens usage_data))
                              (default 0 (tu_prompt_tokens usage_data))
                              (default 0 (tu_total_tokens usage_data)) s1 in
          (Ok tt, set_start_time None
                    (record_call (LoggedLLM u (api_log_llm api (api_calls s2) u)) s2))
      end
  end.
Proof.
  unfold on_llm_end, bind at 1, get.
  destruct (start_time s) as [t0|]; [|reflexivity].
  unfold try_finally, try_except, on_llm_end_try, bind, lift, modify, log_llm.
  destruct (read_response api response) as [[[text usage_data] cached]|e];
    [|reflexivity].
  cbn. destruct (api_log_llm api _ _) as [[]|e]; reflexivity.
Qed.

Lemma verify_function_eq v s :
  verify_function v s =
  (Ok (match verify_warnings v with
       | [] => verify_instruction v
       | w => WARNINGS_HEADER +:+ join nl w +:+ nl +:+ nl +:+ verify_instruction v
       end),
   set_verified true (verify_payload v) s).
Proof.
  unfold verify_function, bind, modify.
  destruct (verify_warnings v); reflexivity.
Qed.

(** No event of the loop raises into it. *)
Lemma run_event_ok ev s :
  (run_event api model_name task ev s).1 = Ok tt.
Proof.
  destruct ev as [tool kwargs| | |v|now|now response]; try reflexivity.
  - unfold run_event, bind.
    destruct (_run_returns api tool kwargs s) as [txt Htxt].
    destruct (_run api tool kwargs s) as [r s']. cbn in Htxt. subst r. reflexivity.
  - unfold run_event, bind. rewrite verify_function_eq. reflexivity.
  - cbn [run_event]. rewrite on_llm_end_eq.
    destruct (start_time s); [|reflexivity]. cbn zeta.
    destruct (read_response api response) as [[[? ?] ?]|]; reflexivity.
Qed.

Lemma run_events_cons ev evs s :
  run_events api model_name task (ev :: evs) s =
  run_events api model_name task evs (run_event api model_name task ev s).2.
Proof.
  cbn [run_events]. unfold bind at 1.
  pose proof (run_event_ok ev s) as Hok.
  destruct (run_event api model_name task ev s) as [r s']. cbn in Hok. subst r.
  reflexivity.
Qed.

Lemma run_events_ok evs s :
  (run_events api model_name task evs s).1 = Ok tt.
Proof.
  revert s. induction evs as [|ev evs IH]; intros s; [reflexivity|].
  rewrite run_events_cons. apply IH.
Qed.

Lemma run_events_app evs1 evs2 s :
  (run_events api model_name task (evs1 ++ evs2) s).2 =
  (run_events api model_name task evs2 (run_events api model_name task evs1 s).2).2.
Proof.
  revert s. induction evs1 as [|ev evs1 IH]; intros s; [reflexivity|].
  rewrite <- app_comm_cons, !run_events_cons. apply IH.
Qed.

(** The state after a tool call, whatever the tool. *)
Lemma run_event_tool tool kwargs s :
  (run_event api model_name task (ToolCall tool kwargs) s).2 =
  (_run api tool kwargs s).2.
Proof.
  unfold run_event, bind. destruct (_run api tool kwargs s) as [[?|?] ?]; reflexivity.
Qed.

(** *** The latch during the loop *)

Lemma run_event_latch_mono ev s :
  _response_provided s = true ->
  _response_provided (run_event api model_name task ev s).2 = true.
Proof.
  intros Hp. destruct ev as [tool kwargs| | |v|now|now response]; try exact Hp.
  - rewrite run_event_tool. apply _run_latch_mono, Hp.
  - unfold run_event, bind. rewrite verify_function_eq. exact Hp.
  - cbn [run_event]. rewrite on_llm_end_eq.
    destruct (start_time s); [|exact Hp]. cbn zeta.
    destruct (read_response api response) as [[[? ?] ?]|]; exact Hp.
Qed.

Lemma run_events_latch_mono evs s :
  _response_provided s = true ->
  _response_provided (run_events api model_name task evs s).2 = true.
Proof.
  revert s. induction evs as [|ev evs IH]; intros s Hp; [exact Hp|].
  rewrite run_events_cons. apply IH, run_event_latch_mono, Hp.
Qed.
End EventEquations.

(** ** Terminal submissions during the loop *)

Lemma tools_request_class tool :
  In tool tools -> tool_request_class tool = name tool.
Proof.
  unfold tools. cbn [In]. intros H.
  repeat (destruct H as [<-|H]; [reflexivity|]). destruct H.
Qed.

Lemma submissions_snoc h c :
  submissions (h ++ [c]) = (submissions h + (if is_submission c then 1 else 0))%nat.
Proof.
  unfold submissions. rewrite List.filter_app, length_app. cbn [List.filter].
  destruct (is_submission c); reflexivity.
Qed.

Section Submissions.
Variable api : ERC3.
Variables model_name task : string.

(** One event: a set latch freezes the number of accepted terminal
    responses; an unset latch lets it grow by one, and is then set. *)
Lemma run_event_submissions ev s :
  registered ev ->
  let s' := (run_event api model_name task ev s).2 in
  if _response_provided s
  then submissions (api_calls s') = submissions (api_calls s)
  else (_response_provided s' = false /\
        submissions (api_calls s') = submissions (api_calls s)) \/
       (_response_provided s' = true /\
        submissions (api_calls s') = S (submissions (api_calls s))).
Proof.
  intros Hreg s'. subst s'.
  destruct ev as [tool kwargs| | |v|now|now response].
  - cbn in Hreg. apply tools_request_class in Hreg.
    rewrite run_event_tool.
    destruct (_response_provided s) eqn:Hp;
      destruct (String.eqb (name tool) Req_ProvideAgentResponse) eqn:Hn.
    + apply String.eqb_eq in Hn. rewrite _run_intercepted by assumption. reflexivity.
    + rewrite _run_open by (rewrite Hp, Hn; reflexivity).
      destruct (clamp_page kwargs); [|reflexivity].
      destruct (request_class api _ _); [reflexivity|]. cbn zeta.
      destruct (api_dispatch api _ _); rewrite ?Hn; cbn [snd api_calls record_call];
        rewrite submissions_snoc; cbn [is_submission req_class];
        rewrite ?Hreg, ?Hn; lia.
    + rewrite _run_open by (rewrite Hp; reflexivity).
      destruct (clamp_page kwargs); [|left; auto].
      destruct (request_class api _ _); [left; auto|]. cbn zeta.
      destruct (api_dispatch api _ _); rewrite ?Hn.
      * right. cbn [snd api_calls record_call set_response_provided _response_provided].
        rewrite submissions_snoc. cbn [is_submission req_class].
        rewrite Hreg, Hn. split; [reflexivity|lia].
      * left. cbn [snd api_calls record_call _response_provided].
        rewrite submissions_snoc. cbn [is_submission]. split; [exact Hp|lia].
    + rewrite _run_open by (rewrite Hp; reflexivity).
      destruct (clamp_page kwargs); [|left; auto].
      destruct (request_class api _ _); [left; auto|]. cbn zeta.
      destruct (api_dispatch api _ _); rewrite ?Hn; left;
        cbn [snd api_calls record_call _response_provided];
        rewrite submissions_snoc; cbn [is_submission req_class];
        rewrite ?Hreg, ?Hn; (split; [exact Hp|lia]).
  - cbn. destruct (_response_provided s); auto.
  - cbn. destruct (_response_provided s); auto.
  - unfold run_event, bind. rewrite verify_function_eq. cbn.
    destruct (_response_provided s); auto.
  - cbn. destruct (_response_provided s); auto.
  - cbn [run_event]. rewrite on_llm_end_eq.
    destruct (start_time s);
      [|cbn [snd]; destruct (_response_provided s); auto]. cbn zeta.
    destruct (read_response api response) as [[[? ?] ?]|];
      cbn [snd api_calls set_start_time record_call add_usage count_call _response_provided];
      rewrite ?submissions_snoc; cbn [is_submission];
      destruct (_response_provided s); auto; left; split; auto; lia.
Qed.

Lemma run_events_submissions evs s :
  Forall registered evs ->
  let s' := (run_events api model_name task evs s).2 in
  if _response_provided s
  then submissions (api_calls s') = submissions (api_calls s)
  else (_response_provided s' = false /\
        submissions (api_calls s') = submissions (api_calls s)) \/
       (_response_provided s' = true /\
        submissions (api_calls s') = S (submissions (api_calls s))).
Proof.
  revert s. induction evs as [|ev evs IH]; intros s Hreg.
  - cbn. destruct (_response_provided s); auto.
  - inversion Hreg as [|? ? Hev Hevs]; subst.
    cbn zeta. rewrite run_events_cons.
    pose proof (run_event_submissions ev s Hev) as H1. cbn zeta in H1.
    pose proof (IH (run_event api model_name task ev s).2 Hevs) as H2.
    cbn zeta in H2.
    destruct (_response_provided s) eqn:Hp.
    + rewrite (run_event_latch_mono api model_name task ev s Hp) in H2. congruence.
    + destruct H1 as [[Hq Hs]|[Hq Hs]]; rewrite Hq in H2.
      * destruct H2 as [[? ?]|[? ?]]; [left|right]; split; congruence.
      * right. split; [|congruence].
        apply run_events_latch_mono, Hq.
Qed.

(** With the latch unset at the start, it is set after the loop exactly
    when the loop added an accepted terminal response. *)
Lemma loop_latch_iff_submission evs s :
  Forall registered evs ->
  _response_provided s = false ->
  let s' := (run_events api model_name task evs s).2 in
  _response_provided s' = true <->
  submissions (api_calls s') = S (submissions (api_calls s)).
Proof.
  intros Hreg Hp s'.
  pose proof (run_events_submissions evs s Hreg) as H. cbn zeta in H.
  rewrite Hp in H. fold s' in H.
  destruct H as [[Hq Hs]|[Hq Hs]]; rewrite Hq, Hs; split; try reflexivity;
    solve [discriminate | lia].
Qed.
End Submissions.

(** ** The tool wrapper: completion latch, errors, page size *)


(** C5. [_run] never raises: it always returns a string.  When the call
    is not intercepted, an [ApiException] with detail [d] raised by
    [dispatch] is returned as the text ["API Error: " ++ d], and any other
    exception with message [m], raised by the page comparison, by the
    validation of the arguments or by [dispatch], as ["Error: " ++ m]. *)
Theorem run_never_raises api self kwargs s :
  (exists txt, (_run api self kwargs s).1 = Ok txt) /\
  (_response_provided s && String.eqb (name self) Req_ProvideAgentResponse = false ->
   (forall m, clamp_page kwargs = Raise (Exception m) ->
      (_run api self kwargs s).1 = Ok ("Error: " +:+ m)) /\
   (forall kwargs', clamp_page kwargs = Ok kwargs' ->
      (forall m,
         request_class api (tool_request_class self) kwargs' = Some (Exception m) ->
         (_run api self kwargs s).1 = Ok ("Error: " +:+ m)) /\
      (request_class api (tool_request_class self) kwargs' = None ->
       let r := {| req_class := tool_request_class self; req_args := kwargs' |} in
       (forall d err,
          api_dispatch api (api_calls s) r = Raise (ApiException d err) ->
          (_run api self kwargs s).1 = Ok ("API Error: " +:+ d)) /\
       (forall m,
          api_dispatch api (api_calls s) r = Raise (Exception m) ->
          (_run api self kwargs s).1 = Ok ("Error: " +:+ m))))).
Proof.
  split; [apply _run_returns|].
  intros Hopen. rewrite (_run_open api self kwargs s Hopen). split.
  - intros m ->. reflexivity.
  - intros kwargs' ->. split.
    + intros m ->. reflexivity.
    + intros ->. cbn zeta. split.
      * intros d err ->. reflexivity.
      * intros m ->. reflexivity.
Qed.

(** C6. A [page] argument that is an integer above 5 is replaced by 5
    before the request object is built: the call is not rejected, the
    other arguments are untouched, and the call behaves exactly as the same
    call with [page=5]; the request that reaches [dispatch] carries
    [page=5].  A [page] of 5 or less is left as it is. *)
Theorem page_clamped_to_five api self (kwargs : gmap string pyval) z s :
  kwargs !! "page" = Some (PInt z) ->
  (5 < z ->
   clamp_page kwargs = Ok (<["page" := PInt 5]> kwargs) /\
   (forall k, k <> "page" -> (<["page" := PInt 5]> kwargs) !! k = kwargs !! k) /\
   _run api self kwargs s = _run api self (<["page" := PInt 5]> kwargs) s /\
   (_response_provided s && String.eqb (name self) Req_ProvideAgentResponse = false ->
    request_class api (tool_request_class self) (<["page" := PInt 5]> kwargs) = None ->
    let r := {| req_class := tool_request_class self;
                req_args := <["page" := PInt 5]> kwargs |} in
    api_calls (_run api self kwargs s).2 =
    api_calls s ++ [Dispatched r (api_dispatch api (api_calls s) r)])) /\
  (z <= 5 -> clamp_page kwargs = Ok kwargs).
Proof.
  intros Hpage.
  assert (Hfix : clamp_page (<["page" := PInt 5]> kwargs)
                 = Ok (<["page" := PInt 5]> kwargs)).
  { unfold clamp_page. rewrite lookup_insert_eq. reflexivity. }
  split.
  - intros Hz.
    assert (Hclamp : clamp_page kwargs = Ok (<["page" := PInt 5]> kwargs)).
    { unfold clamp_page. rewrite Hpage. cbn.
      destruct (Z.ltb_spec 5 z); [reflexivity|lia]. }
    split; [exact Hclamp|]. split.
    { intros k Hk. apply lookup_insert_ne. congruence. }
    assert (Hsame : _run api self kwargs s
                    = _run api self (<["page" := PInt 5]> kwargs) s).
    { destruct (_response_provided s && String.eqb (name self) Req_ProvideAgentResponse)
        eqn:Hopen.
      - apply andb_true_iff in Hopen as [Hp Hn]. apply String.eqb_eq in Hn.
        rewrite !_run_intercepted by assumption. reflexivity.
      - rewrite !_run_open by assumption. rewrite Hclamp, Hfix. reflexivity. }
    split; [exact Hsame|].
    intros Hopen Hval r. rewrite (_run_open api self kwargs s Hopen), Hclamp, Hval.
    cbn zeta. fold r.
    destruct (api_dispatch api (api_calls s) r);
      [destruct (String.eqb (name self) Req_ProvideAgentResponse)|]; reflexivity.
  - intros Hz. unfold clamp_page. rewrite Hpage. cbn.
    destruct (Z.ltb_spec 5 z); [lia|reflexivity].
Qed.

(** C10. When the terminal tool is called with the latch unset and its
    dispatch raises, the call returns the error text, and the state is the
    old one with the failed call added to the history: the latch is still
    unset.  A later call of the terminal tool is therefore dispatched
    again.  For every tool, a call that finds the latch unset and leaves it
    set is a call of the terminal tool whose dispatch returned. *)
Theorem failed_terminal_call_keeps_latch_open api kwargs kwargs' e s :
  _response_provided s = false ->
  clamp_page kwargs = Ok kwargs' ->
  request_class api Req_ProvideAgentResponse kwargs' = None ->
  let r := {| req_class := Req_ProvideAgentResponse; req_args := kwargs' |} in
  api_dispatch api (api_calls s) r = Raise e ->
  let s1 := record_call (Dispatched r (Raise e)) s in
  _run api provide_agent_response kwargs s = (Ok (error_text e), s1) /\
  _response_provided s1 = false /\
  (forall kwargs2 kwargs2',
     clamp_page kwargs2 = Ok kwargs2' ->
     request_class api Req_ProvideAgentResponse kwargs2' = None ->
     let r2 := {| req_class := Req_ProvideAgentResponse; req_args := kwargs2' |} in
     api_calls (_run api provide_agent_response kwargs2 s1).2 =
     api_calls s1 ++ [Dispatched r2 (api_dispatch api (api_calls s1) r2)] /\
     _response_provided (_run api provide_agent_response kwargs2 s1).2 =
     is_ok (api_dispatch api (api_calls s1) r2)) /\
  (forall tool kwargs0 s0,
     _response_provided s0 = false ->
     _response_provided (_run api tool kwargs0 s0).2 = true ->
     name tool = Req_ProvideAgentResponse /\
     exists r0 txt,
       api_dispatch api (api_calls s0) r0 = Ok txt /\
       api_calls (_run api tool kwargs0 s0).2 =
       api_calls s0 ++ [Dispatched r0 (Ok txt)]).
Proof.
  intros Hp Hclamp Hval r Hdisp s1.
  split; [|split; [exact Hp|split]].
  - rewrite _run_open by (rewrite Hp; reflexivity).
    rewrite Hclamp. cbn [tool_request_class provide_agent_response create_erc3_tool].
    rewrite Hval. cbn zeta. fold r. rewrite Hdisp. reflexivity.
  - intros kwargs2 kwargs2' Hclamp2 Hval2 r2.
    assert (Hp1 : _response_provided s1 = false) by exact Hp.
    rewrite _run_open by (rewrite Hp1; reflexivity).
    rewrite Hclamp2. cbn [tool_request_class provide_agent_response create_erc3_tool].
    rewrite Hval2. cbn zeta. fold r2.
    destruct (api_dispatch api (api_calls s1) r2); split;
      solve [reflexivity | exact Hp].
  - intros tool kwargs0 s0 Hp0.
    rewrite _run_open by (rewrite Hp0; reflexivity).
    destruct (clamp_page kwargs0) as [kw|];
      [|intros H; cbn in H; congruence].
    destruct (request_class api (tool_request_class tool) kw);
      [intros H; cbn in H; congruence|].
    cbn zeta.
    destruct (api_dispatch api (api_calls s0) _) as [txt0|] eqn:Hd;
      [|intros H; cbn in H; congruence].
    destruct (String.eqb (name tool) Req_ProvideAgentResponse) eqn:Hn;
      [|intros H; cbn in H; congruence].
    intros _. split; [apply String.eqb_eq, Hn|].
    eexists _, txt0. split; [exact Hd|reflexivity].
Qed.

Ltac in_tools := cbn [In tools]; repeat (first [left; reflexivity | right]).
Ltac all_registered :=
  repeat (apply List.Forall_cons; [first [exact I | in_tools]|]);
  apply List.Forall_nil.


(** C5 on the scenario of the specification: a search whose dispatch is
    rejected with the detail "rate limited". *)
Lemma run_never_raises_witness :
  (_run rate_limited_api search_projects (search_kwargs 1) initial_state).1
  = Ok "API Error: rate limited".
Proof.
  destruct (run_never_raises rate_limited_api search_projects (search_kwargs 1)
              initial_state) as [_ H].
  destruct (H eq_refl) as [_ H1].
  destruct (H1 (search_kwargs 1)) as [_ H2]; [vm_compute; reflexivity|].
  destruct (H2 eq_refl) as [H3 _].
  exact (H3 "rate limited" "rate_limited" eq_refl).
Defined.

(** C6 on a search with [page=9] and on one with [page=3]. *)
Lemma page_clamped_to_five_witness :
  clamp_page (search_kwargs 9) = Ok (<["page" := PInt 5]> (search_kwargs 9)) /\
  clamp_page (search_kwargs 3) = Ok (search_kwargs 3).
Proof.
  split.
  - destruct (page_clamped_to_five accepting_api search_projects (search_kwargs 9) 9
                initial_state) as [H _]; [vm_compute; reflexivity|].
    destruct H as [H _]; [lia|]. exact H.
  - destruct (page_clamped_to_five accepting_api search_projects (search_kwargs 3) 3
                initial_state) as [_ H]; [vm_compute; reflexivity|].
    apply H. lia.
Defined.

(** C10 on a terminal call that the API rejects. *)
Lemma failed_terminal_call_keeps_latch_open_witness :
  let kw := answer_kwargs "ok_answer" "done" in
  let r := {| req_class := Req_ProvideAgentResponse; req_args := kw |} in
  let e := ApiException "rate limited" "rate_limited" in
  let s1 := record_call (Dispatched r (Raise e)) initial_state in
  _run rate_limited_api provide_agent_response kw initial_state
  = (Ok "API Error: rate limited", s1) /\
  _response_provided s1 = false.
Proof.
  intros kw r e s1.
  destruct (failed_terminal_call_keeps_latch_open rate_limited_api kw kw e
              initial_state) as (H1 & H2 & _).
  - reflexivity.
  - vm_compute. reflexivity.
  - reflexivity.
  - reflexivity.
  - split; [exact H1|exact H2].
Defined.

(** ** The verification flags during the loop *)

Section VerifiedFlags.
Variable api : ERC3.
Variables model_name task : string.

Lemma run_event_verified ev s :
  let s' := (run_event api model_name task ev s).2 in
  match ev with
  | VerifyCall v =>
      _verified s' = true /\ _last_verify_payload s' = verify_payload v
  | _ =>
      _verified s' = _verified s /\
      _last_verify_payload s' = _last_verify_payload s
  end.
Proof.
  destruct ev as [tool kwargs| | |v|now|now response]; cbn zeta;
    try (split; reflexivity).
  - rewrite run_event_tool.
    destruct (_response_provided s && String.eqb (name tool) Req_ProvideAgentResponse)
      eqn:Hopen.
    + apply andb_true_iff in Hopen as [Hp Hn]. apply String.eqb_eq in Hn.
      rewrite _run_intercepted by assumption. split; reflexivity.
    + rewrite _run_open by assumption.
      destruct (clamp_page kwargs); [|split; reflexivity].
      destruct (request_class api _ _); [split; reflexivity|]. cbn zeta.
      destruct (api_dispatch api _ _);
        [destruct (String.eqb (name tool) Req_ProvideAgentResponse)|];
        split; reflexivity.
  - unfold run_event, bind. rewrite verify_function_eq. split; reflexivity.
  - cbn [run_event]. rewrite on_llm_end_eq.
    destruct (start_time s); [|split; reflexivity]. cbn zeta.
    destruct (read_response api response) as [[[? ?] ?]|]; split; reflexivity.
Qed.

Lemma last_verify_from acc evs :
  fold_left (fun acc ev => match ev with VerifyCall v => Some v | _ => acc end)
            evs acc
  = match last_verify evs with Some v => Some v | None => acc end.
Proof.
  revert acc. unfold last_verify.
  induction evs as [|ev evs IH]; intros acc; [reflexivity|].
  cbn [fold_left]. rewrite IH. rewrite (IH (match ev with VerifyCall v => Some v | _ => None end)).
  destruct (fold_left _ evs None); [reflexivity|].
  destruct ev; reflexivity.
Qed.

(** After the loop, the flags hold what the last call of [verify] stored,
    or what they held before when there was no such call. *)
Lemma run_events_verified evs s :
  let s' := (run_events api model_name task evs s).2 in
  match last_verify evs with
  | Some v => _verified s' = true /\ _last_verify_payload s' = verify_payload v
  | None => _verified s' = _verified s /\
            _last_verify_payload s' = _last_verify_payload s
  end.
Proof.
  revert s. induction evs as [|ev evs IH]; intros s; [split; reflexivity|].
  cbn zeta. rewrite run_events_cons.
  specialize (IH (run_event api model_name task ev s).2). cbn zeta in IH.
  pose proof (run_event_verified ev s) as Hev. cbn zeta in Hev.
  unfold last_verify in *. cbn [fold_left].
  rewrite last_verify_from. unfold last_verify.
  destruct (fold_left _ evs None) as [v|]; [exact IH|].
  destruct ev; destruct IH as [-> ->]; exact Hev.
Qed.
End VerifiedFlags.

(** ** The equations of the end of [run_agent] *)

Section TaskEquations.
Variable api : ERC3.
Variables model_name task : string.

Lemma auto_complete_eq s :
  auto_complete api s =
  if _response_provided s then (Ok tt, s)
  else if _verified s && dict_truthy (_last_verify_payload s) then
    let payload := _last_verify_payload s in
    let message := py_or (dict_get payload "reasoning")
                         (PStr "Auto-submitted based on verification step.") in
    let outcome := py_or (dict_get payload "outcome") (PStr "error_internal") in
    match auto_links payload outcome with
    | Raise _ => (Ok tt, s)
    | Ok links =>
        let kw := respond_kwargs message outcome links in
        match request_class api Req_ProvideAgentResponse kw with
        | Some _ => (Ok tt, s)
        | None =>
            let r := {| req_class := Req_ProvideAgentResponse; req_args := kw |} in
            match api_dispatch api (api_calls s) r with
            | Ok txt =>
                (Ok tt, set_response_provided true
                          (record_call (Dispatched r (Ok txt)) s))
            | Raise e => (Ok tt, record_call (Dispatched r (Raise e)) s)
            end
        end
    end
  else (Ok tt, s).
Proof.
  unfold auto_complete, bind at 1, get.
  destruct (_response_provided s); [reflexivity|]. cbn [negb].
  unfold try_except.
  destruct (_verified s && dict_truthy (_last_verify_payload s)); [|reflexivity].
  cbn zeta. unfold bind, lift, new_request, dispatch.
  destruct (auto_links _ _) as [links|]; [|reflexivity].
  destruct (request_class api Req_ProvideAgentResponse _); [reflexivity|].
  unfold ret at 1. cbn beta iota.
  destruct (api_dispatch api (api_calls s) _); reflexivity.
Qed.

Lemma on_agent_error_eq e s :
  on_agent_error api e s =
  (Raise e,
   if _response_provided s then s
   else match request_class api Req_ProvideAgentResponse (req_args error_request) with
        | Some _ => s
        | None =>
            record_call (Dispatched error_request
                           (api_dispatch api (api_calls s) error_request)) s
        end).
Proof.
  unfold on_agent_error, bind at 1, get. unfold bind at 1.
  destruct (_response_provided s); [reflexivity|]. cbn [negb].
  unfold try_except, bind, new_request, dispatch. cbn [req_args error_request].
  destruct (request_class api Req_ProvideAgentResponse _); [reflexivity|].
  unfold ret at 1. cbn beta iota. fold error_request.
  destruct (api_dispatch api (api_calls s) error_request); reflexivity.
Qed.

Lemma log_final_stats_eq s :
  log_final_stats api model_name task s =
  (Ok tt,
   if (call_count s =? 0)%nat
   then record_call (LoggedLLM (zero_usage model_name task)
                       (api_log_llm api (api_calls s) (zero_usage model_name task))) s
   else s).
Proof.
  unfold log_final_stats, bind, get.
  destruct (call_count s =? 0)%nat; [|reflexivity].
  unfold try_except, log_llm.
  destruct (api_log_llm api (api_calls s) _) as [[]|]; reflexivity.
Qed.

(** [run_agent], phase by phase. *)
Lemma run_agent_eq agent s :
  run_agent api model_name task agent s =
  match api_who_am_i api with
  | Raise e => (Raise e, reset_flags s)
  | Ok _ =>
      let s2 := at_loop_end api model_name task agent s in
      match ending agent with
      | Returns =>
          (Ok tt, (log_final_stats api model_name task (auto_complete api s2).2).2)
      | Raises e =>
          (Raise e, (log_final_stats api model_name task (on_agent_error api e s2).2).2)
      end
  end.
Proof.
  unfold run_agent, bind at 1, modify at 1. unfold bind at 1, lift.
  destruct (api_who_am_i api) as [[]|e]; [|reflexivity].
  unfold bind at 1, modify at 1.
  unfold try_finally, try_except, agent_executor_invoke, at_loop_end.
  unfold bind at 1. unfold bind at 1.
  pose proof (run_events_ok api model_name task (events agent)
                (new_callback (reset_flags s))) as Hok.
  destruct (run_events api model_name task (events agent)
              (new_callback (reset_flags s))) as [r s2].
  cbn in Hok. subst r. cbn [snd].
  destruct (ending agent) as [|e].
  - unfold ret at 1. rewrite auto_complete_eq.
    destruct (_response_provided s2); [rewrite !log_final_stats_eq; reflexivity|].
    destruct (_verified s2 && dict_truthy (_last_verify_payload s2));
      [|rewrite !log_final_stats_eq; reflexivity].
    cbn zeta. destruct (auto_links _ _);
      [|rewrite !log_final_stats_eq; reflexivity].
    destruct (request_class api Req_ProvideAgentResponse _);
      [rewrite !log_final_stats_eq; reflexivity|].
    destruct (api_dispatch api (api_calls s2) _);
      rewrite !log_final_stats_eq; reflexivity.
  - unfold raise at 1. rewrite on_agent_error_eq, !log_final_stats_eq. reflexivity.
Qed.
End TaskEquations.

(** ** The [verify] checkpoint *)

Lemma not_none_true s : not_none s = true <-> lower s <> "none".
Proof.
  unfold not_none. rewrite negb_true_iff. apply String.eqb_neq.
Qed.

Lemma any_link_declared_true v :
  any_link_declared v = true <->
  lower (employee_links v) <> "none" \/ lower (project_links v) <> "none"
  \/ lower (customer_links v) <> "none".
Proof.
  unfold any_link_declared. rewrite !orb_true_iff, !not_none_true. tauto.
Qed.

(** The list of warnings, entry by entry. *)
Lemma verify_warnings_In v w :
  In w (verify_warnings v) <->
  (w = WARN_PERMISSIONS /\
   made_modifications v = true /\ permissions_checked v = false) \/
  (w = WARN_DENIED_LINKS /\
   outcome v = "denied_security" /\ any_link_declared v = true) \/
  (w = WARN_UNRELIABLE_LINKS /\
   (outcome v = "error_internal" \/ outcome v = "none_unsupported") /\
   any_link_declared v = true) \/
  (w = WARN_OK_ANSWER /\
   outcome v = "none_clarification_needed" /\
   contains "ok_answer" (lower (reasoning v)) = true).
Proof.
  unfold verify_warnings. rewrite !in_app_iff.
  assert (Hone : forall (b : bool) (x : string),
             In w (if b then [x] else []) <-> w = x /\ b = true).
  { intros [] x; cbn; intuition congruence. }
  rewrite !Hone, !andb_true_iff, !orb_true_iff, negb_true_iff, !String.eqb_eq.
  tauto.
Qed.

(** A link field passes the test of the source exactly when it is not a
    spelling of the word none. *)
Lemma not_none_spells s : not_none s = true <-> ~ spells "none" s.
Proof.
  rewrite not_none_true, (lower_spells "none" eq_refl s). tauto.
Qed.

Lemma any_link_declared_given v :
  any_link_declared v = true <-> some_link_given v.
Proof.
  unfold any_link_declared, some_link_given.
  rewrite !orb_true_iff, !not_none_spells. tauto.
Qed.

(** The list of warnings is not empty exactly under the four conditions,
    their words read in any letter case. *)
Lemma verify_warnings_risky v : verify_warnings v <> [] <-> risky_conditions v.
Proof.
  unfold risky_conditions.
  rewrite <- any_link_declared_given,
    <- (contains_lower_spec "ok_answer" (reasoning v) eq_refl)
    by discriminate.
  split.
  - destruct (verify_warnings v) as [|w ws] eqn:Hw; [congruence|]. intros _.
    assert (Hin : In w (verify_warnings v)) by (rewrite Hw; left; reflexivity).
    apply verify_warnings_In in Hin. tauto.
  - intros H Hnil.
    assert (Hin : exists w, In w (verify_warnings v)).
    { destruct H as [H|[H|[H|H]]]; eexists; apply verify_warnings_In;
        [left|right; left|right; right; left|right; right; right];
        (split; [reflexivity|exact H]). }
    destruct Hin as [w Hin]. rewrite Hnil in Hin. destruct Hin.
Qed.

(** C8 (as stated). With the words of the four conditions taken as they
    stand, the claim fails in both directions.  [verify] with
    [denied_security] and the employee list None, written with a capital:
    condition (2) holds, as the field is not the word none, and the text
    returned is the instruction alone, without a warning.  [verify] with
    [none_clarification_needed] and a reasoning that has OK_ANSWER in
    capitals only: none of the four conditions holds, and the text
    returned starts with the warnings. *)
Lemma verify_reads_words_in_any_case :
  (stated_conditions capital_none_verify /\
   verify_warnings capital_none_verify = [] /\
   (verify_function capital_none_verify initial_state).1
   = Ok (verify_instruction capital_none_verify)) /\
  (~ stated_conditions capital_word_verify /\
   verify_warnings capital_word_verify = [WARN_OK_ANSWER] /\
   exists txt,
     (verify_function capital_word_verify initial_state).1 = Ok txt /\
     String.prefix WARNINGS_HEADER txt = true).
Proof.
  split; [split; [|split; reflexivity]|split; [|split; [reflexivity|]]].
  - right; left. split; [reflexivity|]. left. discriminate.
  - intros [[H _]|[[H _]|[[[H|H] _]|[_ H]]]]; try discriminate.
    apply contains_spec in H. vm_compute in H. discriminate.
  - eexists. split; reflexivity.
Qed.

(** C8 (amended). [verify] always returns: its result is a text that
    ends with the instruction, which tells the caller to call
    [Req_ProvideAgentResponse], and the state after it is the old one with
    the verification recorded.  The text holds every warning of the list.
    The list of warnings is not empty, and the text starts with the
    warnings block, exactly when one of the four conditions holds of the
    arguments, a link field counting as none in any letter case and
    ok_answer being looked for in any letter case; without warnings the
    text is the instruction alone. *)
Theorem verify_warns_in_any_letter_case v s :
  exists txt pre,
    verify_function v s = (Ok txt, set_verified true (verify_payload v) s) /\
    txt = pre +:+ verify_instruction v /\
    mentions "Call Req_ProvideAgentResponse" (verify_instruction v) /\
    (verify_warnings v <> [] <-> risky_conditions v) /\
    (forall w, In w (verify_warnings v) -> mentions w txt) /\
    (String.prefix WARNINGS_HEADER txt = true <-> risky_conditions v) /\
    (pre = EmptyString <-> ~ risky_conditions v).
Proof.
  pose proof (verify_warnings_risky v) as Hrisky.
  assert (Hcall : mentions "Call Req_ProvideAgentResponse" (verify_instruction v)).
  { apply contains_spec. reflexivity. }
  rewrite verify_function_eq.
  destruct (verify_warnings v) as [|w ws] eqn:Hw.
  - exists (verify_instruction v), EmptyString.
    split; [reflexivity|]. split; [reflexivity|].
    split; [exact Hcall|]. split; [exact Hrisky|].
    split; [intros w' []|]. split.
    + split; [intros H; cbn in H; discriminate|].
      intros H. apply Hrisky in H. congruence.
    + split; [intros _ H; apply Hrisky in H; congruence|reflexivity].
  - exists (WARNINGS_HEADER +:+ join nl (w :: ws) +:+ nl +:+ nl +:+ verify_instruction v),
           (WARNINGS_HEADER +:+ join nl (w :: ws) +:+ nl +:+ nl).
    split; [reflexivity|]. split.
    { rewrite !append_assoc. reflexivity. }
    split; [exact Hcall|]. split; [exact Hrisky|]. split.
    { intros w' Hin. apply (mentions_append w' WARNINGS_HEADER).
      apply mentions_join. exact Hin. }
    split.
    + split; [intros _; apply Hrisky; congruence|].
      intros _. apply prefix_append.
    + split; [intros H; vm_compute in H; discriminate|].
      intros H. exfalso. apply H, Hrisky. congruence.
Qed.

Lemma verify_payload_keys v k :
  is_Some (verify_payload v !! k) <-> In k payload_keys.
Proof.
  unfold verify_payload, payload_keys. cbn [In].
  rewrite !lookup_insert_is_Some'.
  pose proof (lookup_empty_is_Some (M := gmap string) (A := pyval) k). tauto.
Qed.

Lemma dispatched_app h1 h2 : dispatched (h1 ++ h2) = dispatched h1 ++ dispatched h2.
Proof. apply flat_map_app. Qed.

Lemma usage_sent_app h1 h2 : usage_sent (h1 ++ h2) = usage_sent h1 ++ usage_sent h2.
Proof. apply flat_map_app. Qed.

Lemma dict_truthy_verify_payload v : dict_truthy (verify_payload v) = true.
Proof.
  unfold dict_truthy.
  destruct (map_to_list (verify_payload v)) eqn:Hl; [|reflexivity].
  apply map_to_list_empty_iff in Hl.
  exfalso. revert Hl. apply insert_non_empty.
Qed.

Lemma links_of_declared kind raw :
  links_of kind (PStr raw) = Ok (declared_links kind raw).
Proof.
  unfold links_of, declared_links, truthy. fold (nonempty raw).
  destruct (nonempty raw); [|reflexivity].
  destruct (not_none raw); reflexivity.
Qed.

Lemma auto_links_verified v :
  auto_links (verify_payload v) (PStr (verified_outcome v)) = Ok (verified_links v).
Proof.
  unfold auto_links, verified_links, not_in_safe_outcomes.
  destruct (existsb (String.eqb (verified_outcome v)) safe_outcomes_no_links);
    [reflexivity|].
  cbn [negb].
  change (dict_get (verify_payload v) "employee_links") with (PStr (employee_links v)).
  change (dict_get (verify_payload v) "project_links") with (PStr (project_links v)).
  change (dict_get (verify_payload v) "customer_links") with (PStr (customer_links v)).
  rewrite !links_of_declared. reflexivity.
Qed.

(** The auto-completion on a state that holds the payload of
    [verify(v)]: it builds [verified_request v], and dispatches it when the
    request class accepts it. *)
Lemma auto_complete_verified api v s :
  _response_provided s = false ->
  _verified s = true ->
  _last_verify_payload s = verify_payload v ->
  auto_complete api s =
  match request_class api Req_ProvideAgentResponse (req_args (verified_request v)) with
  | Some _ => (Ok tt, s)
  | None =>
      match api_dispatch api (api_calls s) (verified_request v) with
      | Ok txt =>
          (Ok tt, set_response_provided true
                    (record_call (Dispatched (verified_request v) (Ok txt)) s))
      | Raise e =>
          (Ok tt, record_call (Dispatched (verified_request v) (Raise e)) s)
      end
  end.
Proof.
  intros Hp Hv Hpay. rewrite auto_complete_eq, Hp, Hv, Hpay.
  rewrite dict_truthy_verify_payload. cbn [andb]. cbn zeta.
  change (dict_get (verify_payload v) "reasoning") with (PStr (reasoning v)).
  change (dict_get (verify_payload v) "outcome") with (PStr (outcome v)).
  assert (Hmsg : py_or (PStr (reasoning v))
                   (PStr "Auto-submitted based on verification step.")
                 = PStr (verified_message v)).
  { unfold py_or, verified_message, truthy. fold (nonempty (reasoning v)).
    destruct (nonempty (reasoning v)); reflexivity. }
  assert (Hout : py_or (PStr (outcome v)) (PStr "error_internal")
                 = PStr (verified_outcome v)).
  { unfold py_or, verified_outcome, truthy. fold (nonempty (outcome v)).
    destruct (nonempty (outcome v)); reflexivity. }
  rewrite Hmsg, Hout, auto_links_verified. reflexivity.
Qed.

(** C9 (as stated). The stored dict does not hold every field declared
    by [VerifyInput]: [made_modifications] is missing from it. *)
Lemma verify_payload_lacks_fields :
  ~ (forall k, In k VerifyInput_fields ->
       is_Some (_last_verify_payload
                  (verify_function sample_verify initial_state).2 !! k)).
Proof.
  intros H.
  assert (Hin : In "made_modifications" VerifyInput_fields)
    by (cbn; tauto).
  destruct (H _ Hin) as [x Hx]. vm_compute in Hx. discriminate.
Qed.

(** C9 (amended). Every call of [verify] sets [_verified] and stores a
    dict with exactly the keys [outcome], [employee_links],
    [project_links], [customer_links] and [reasoning], holding the
    arguments of the call; the three boolean arguments are not stored.
    The dict stays in place for the rest of the loop unless [verify] is
    called again, and it is the dict from which the auto-completion builds
    its request. *)
Theorem verify_records_five_fields api model_name task v s :
  let s' := (verify_function v s).2 in
  _verified s' = true /\
  _last_verify_payload s' = verify_payload v /\
  verify_payload v !! "outcome" = Some (PStr (outcome v)) /\
  verify_payload v !! "employee_links" = Some (PStr (employee_links v)) /\
  verify_payload v !! "project_links" = Some (PStr (project_links v)) /\
  verify_payload v !! "customer_links" = Some (PStr (customer_links v)) /\
  verify_payload v !! "reasoning" = Some (PStr (reasoning v)) /\
  (forall k, is_Some (verify_payload v !! k) <-> In k payload_keys) /\
  (forall evs,
     last_verify evs = None ->
     let s2 := (run_events api model_name task evs s').2 in
     _verified s2 = true /\ _last_verify_payload s2 = verify_payload v) /\
  (forall s2,
     _response_provided s2 = false ->
     _verified s2 = true ->
     _last_verify_payload s2 = verify_payload v ->
     dispatched (api_calls (auto_complete api s2).2) =
     dispatched (api_calls s2) ++
     match request_class api Req_ProvideAgentResponse
             (req_args (verified_request v)) with
     | None => [verified_request v]
     | Some _ => []
     end).
Proof.
  intros s'. subst s'. rewrite verify_function_eq. cbn [snd].
  repeat (split; [reflexivity|]).
  split; [apply verify_payload_keys|]. split.
  - intros evs Hlast.
    pose proof (run_events_verified api model_name task evs
                  (set_verified true (verify_payload v) s)) as H.
    cbn zeta in H. rewrite Hlast in H. exact H.
  - intros s2 Hp Hv Hpay. rewrite (auto_complete_verified api v s2 Hp Hv Hpay).
    destruct (request_class api Req_ProvideAgentResponse _);
      [symmetry; apply app_nil_r|].
    destruct (api_dispatch api (api_calls s2) (verified_request v));
      cbn [snd api_calls set_response_provided record_call];
      rewrite dispatched_app; reflexivity.
Qed.

(** C9 (amended) on a verification followed by a search. *)
Lemma verify_records_five_fields_witness :
  let s' := (verify_function sample_verify initial_state).2 in
  let s2 := (run_events accepting_api "gpt" "task_1"
               [ToolCall search_projects (search_kwargs 9)] s').2 in
  _verified s2 = true /\ _last_verify_payload s2 = verify_payload sample_verify.
Proof.
  destruct (verify_records_five_fields accepting_api "gpt" "task_1"
              sample_verify initial_state) as (_ & _ & _ & _ & _ & _ & _ & _ & H & _).
  apply (H [ToolCall search_projects (search_kwargs 9)]). reflexivity.
Defined.

(** ** The end of the task *)

Lemma log_final_stats_frame api model_name task s :
  let s' := (log_final_stats api model_name task s).2 in
  _response_provided s' = _response_provided s /\
  dispatched (api_calls s') = dispatched (api_calls s).
Proof.
  cbn zeta. rewrite log_final_stats_eq. cbn [snd].
  destruct (call_count s =? 0)%nat; [|split; reflexivity].
  cbn [_response_provided api_calls record_call]. rewrite dispatched_app.
  split; [reflexivity|apply app_nil_r].
Qed.

(** C2 (as stated). The agent verifies [ok_not_found] with one employee
    link and the loop then raises: the only request sent is the generic
    [error_internal] response, not the verified outcome. *)
Lemma error_path_ignores_verified_outcome :
  dispatched (api_calls (after_task accepting_api "gpt" "task_1" crashing_run
                           initial_state))
  = [error_request] /\
  error_request <> verified_request sample_verify /\
  req_args error_request !! "outcome" = Some (PStr "error_internal") /\
  req_args (verified_request sample_verify) !! "outcome"
  = Some (PStr "ok_not_found").
Proof.
  split; [vm_compute; reflexivity|].
  split; [|split; vm_compute; reflexivity].
  intros H. apply (f_equal (fun r => req_args r !! "outcome")) in H.
  vm_compute in H. discriminate.
Qed.

(** C2 (amended). When the loop raises and no terminal call has gone
    through, the error path builds the generic response, outcome
    [error_internal] with no links, whatever [verify] recorded; it is
    dispatched when the request class accepts it, a failure of the
    dispatch is swallowed, and the exception of the loop is raised again.
    The latch is left unset. *)
Theorem error_path_submits_error_internal api model_name task agent e s :
  api_who_am_i api = Ok tt ->
  ending agent = Raises e ->
  _response_provided (at_loop_end api model_name task agent s) = false ->
  let s2 := at_loop_end api model_name task agent s in
  let s4 := after_task api model_name task agent s in
  (run_agent api model_name task agent s).1 = Raise e /\
  dispatched (api_calls s4) =
  dispatched (api_calls s2) ++
  match request_class api Req_ProvideAgentResponse (req_args error_request) with
  | None => [error_request]
  | Some _ => []
  end /\
  req_args error_request !! "outcome" = Some (PStr "error_internal") /\
  req_args error_request !! "links" = Some (PList []) /\
  _response_provided s4 = false.
Proof.
  intros Hsetup Hend Hp s2 s4. subst s4. unfold after_task.
  rewrite run_agent_eq, Hsetup, Hend. cbn zeta. fold s2. cbn [fst snd].
  split; [reflexivity|].
  pose proof (log_final_stats_frame api model_name task (on_agent_error api e s2).2)
    as [Hlatch Hdisp].
  rewrite Hlatch, Hdisp, on_agent_error_eq. cbn [snd]. fold s2 in Hp. rewrite Hp.
  split; [|split; [reflexivity|split; [reflexivity|]]].
  - destruct (request_class api Req_ProvideAgentResponse _);
      [symmetry; apply app_nil_r|].
    cbn [api_calls record_call]. rewrite dispatched_app. reflexivity.
  - destruct (request_class api Req_ProvideAgentResponse _); exact Hp.
Qed.

(** C2 (amended) on the run that verifies and then raises. *)
Lemma error_path_submits_error_internal_witness :
  (run_agent accepting_api "gpt" "task_1" crashing_run initial_state).1
  = Raise (Exception "Recursion limit of 50 reached") /\
  _response_provided (after_task accepting_api "gpt" "task_1" crashing_run
                        initial_state) = false.
Proof.
  destruct (error_path_submits_error_internal accepting_api "gpt" "task_1"
              crashing_run (Exception "Recursion limit of 50 reached")
              initial_state) as (H1 & _ & _ & _ & H2).
  - reflexivity.
  - reflexivity.
  - vm_compute. reflexivity.
  - split; [exact H1|exact H2].
Defined.

(** C3 (as stated). The agent returns without [verify] and without a
    terminal call: nothing at all is dispatched, and the latch is unset
    when the task ends. *)
Lemma no_verify_nothing_submitted :
  dispatched (api_calls (after_task accepting_api "gpt" "task_1" idle_run
                           initial_state)) = [] /\
  _response_provided (after_task accepting_api "gpt" "task_1" idle_run
                        initial_state) = false.
Proof. split; vm_compute; reflexivity. Qed.

(** C3 (amended). When the loop returns, [verify] was never called and
    no terminal call has gone through, the auto-completion dispatches
    nothing (it only logs a warning): the requests sent are those of the
    loop, and the latch is unset when the task ends. *)
Theorem no_verify_no_auto_completion api model_name task agent s :
  api_who_am_i api = Ok tt ->
  ending agent = Returns ->
  last_verify (events agent) = None ->
  _response_provided (at_loop_end api model_name task agent s) = false ->
  let s2 := at_loop_end api model_name task agent s in
  let s4 := after_task api model_name task agent s in
  (run_agent api model_name task agent s).1 = Ok tt /\
  dispatched (api_calls s4) = dispatched (api_calls s2) /\
  _response_provided s4 = false.
Proof.
  intros Hsetup Hend Hlast Hp s2 s4. subst s4. unfold after_task.
  rewrite run_agent_eq, Hsetup, Hend. cbn zeta. fold s2. cbn [fst snd].
  split; [reflexivity|].
  pose proof (log_final_stats_frame api model_name task (auto_complete api s2).2)
    as [Hlatch Hdisp].
  rewrite Hlatch, Hdisp, auto_complete_eq. fold s2 in Hp. rewrite Hp.
  pose proof (run_events_verified api model_name task (events agent)
                (new_callback (reset_flags s))) as Hv.
  cbn zeta in Hv. rewrite Hlast in Hv. destruct Hv as [Hv _].
  fold (at_loop_end api model_name task agent s) in Hv. fold s2 in Hv.
  cbn in Hv. rewrite Hv. cbn [andb snd]. split; [reflexivity|exact Hp].
Qed.

(** C3 (amended) on the run that answers in plain text. *)
Lemma no_verify_no_auto_completion_witness :
  dispatched (api_calls (after_task accepting_api "gpt" "task_1" idle_run
                           initial_state))
  = dispatched (api_calls (at_loop_end accepting_api "gpt" "task_1" idle_run
                             initial_state)).
Proof.
  destruct (no_verify_no_auto_completion accepting_api "gpt" "task_1" idle_run
              initial_state) as (_ & H & _).
  - reflexivity.
  - reflexivity.
  - reflexivity.
  - vm_compute. reflexivity.
  - exact H.
Defined.

(** An empty outcome, which is none of the outcomes that [verify] is told
    to use, is sent as [error_internal], with no link. *)
Lemma empty_outcome_sent_as_error_internal :
  _last_verify_payload (at_loop_end accepting_api "gpt" "task_1"
                          empty_outcome_run initial_state) !! "outcome"
  = Some (PStr EmptyString) /\
  dispatched (api_calls (after_task accepting_api "gpt" "task_1"
                           empty_outcome_run initial_state))
  = [ {| req_class := Req_ProvideAgentResponse;
         req_args := respond_kwargs (PStr "The lead is emp_1.")
                                    (PStr "error_internal") [] |} ].
Proof. split; vm_compute; reflexivity. Qed.






(** ** Usage accounting *)

Section Usage.
Variable api : ERC3.
Variables model_name task : string.

(** A tool call sends no usage record and does not touch the counter. *)
Lemma _run_usage tool kwargs s :
  let s' := (_run api tool kwargs s).2 in
  usage_sent (api_calls s') = usage_sent (api_calls s) /\
  call_count s' = call_count s.
Proof.
  cbn zeta.
  destruct (_response_provided s && String.eqb (name tool) Req_ProvideAgentResponse)
    eqn:Hopen.
  - apply andb_true_iff in Hopen as [Hp Hn]. apply String.eqb_eq in Hn.
    rewrite _run_intercepted by assumption. split; reflexivity.
  - rewrite _run_open by assumption.
    destruct (clamp_page kwargs); [|split; reflexivity].
    destruct (request_class api _ _); [split; reflexivity|]. cbn zeta.
    destruct (api_dispatch api _ _);
      [destruct (String.eqb (name tool) Req_ProvideAgentResponse)|];
      cbn [snd api_calls call_count set_response_provided record_call];
      rewrite usage_sent_app; split; solve [apply app_nil_r | reflexivity].
Qed.

(** Every usage record sent during the loop has been counted. *)
Lemma run_event_usage ev s :
  let s' := (run_event api model_name task ev s).2 in
  exists l,
    usage_sent (api_calls s') = usage_sent (api_calls s) ++ l /\
    (length l + call_count s <= call_count s')%nat.
Proof.
  cbn zeta.
  destruct ev as [tool kwargs| | |v|now|now response];
    try (exists []; split; [symmetry; apply app_nil_r|cbn; lia]).
  - rewrite run_event_tool.
    destruct (_run_usage tool kwargs s) as [-> ->].
    exists []. split; [symmetry; apply app_nil_r|cbn; lia].
  - unfold run_event, bind. rewrite verify_function_eq.
    exists []. split; [symmetry; apply app_nil_r|cbn; lia].
  - cbn [run_event]. rewrite on_llm_end_eq.
    destruct (start_time s);
      [|exists []; split; [symmetry; apply app_nil_r|cbn; lia]].
    cbn zeta.
    destruct (read_response api response) as [[[text usage_data] cached]|].
    + eexists [_].
      cbn [snd api_calls call_count set_start_time record_call add_usage count_call].
      rewrite usage_sent_app. split; [reflexivity|cbn; lia].
    + exists []. split; [symmetry; apply app_nil_r|cbn; lia].
Qed.

Lemma run_events_usage evs s :
  let s' := (run_events api model_name task evs s).2 in
  exists l,
    usage_sent (api_calls s') = usage_sent (api_calls s) ++ l /\
    (length l + call_count s <= call_count s')%nat.
Proof.
  revert s. induction evs as [|ev evs IH]; intros s.
  - exists []. split; [symmetry; apply app_nil_r|cbn; lia].
  - cbn zeta. rewrite run_events_cons.
    destruct (run_event_usage ev s) as (l1 & H1 & Hc1).
    destruct (IH (run_event api model_name task ev s).2) as (l2 & H2 & Hc2).
    exists (l1 ++ l2). rewrite H2, H1, <- app_assoc. split; [reflexivity|].
    rewrite length_app. lia.
Qed.

(** Without the end of a model call, the counter stays where it is. *)
Lemma run_events_no_llm_end evs s :
  Forall no_llm_end evs ->
  call_count (run_events api model_name task evs s).2 = call_count s.
Proof.
  revert s. induction evs as [|ev evs IH]; intros s Hall; [reflexivity|].
  inversion Hall as [|? ? Hev Hevs]; subst.
  rewrite run_events_cons, (IH _ Hevs).
  destruct ev as [tool kwargs| | |v|now|now response];
    try reflexivity; [| |destruct Hev].
  - rewrite run_event_tool. apply _run_usage.
  - unfold run_event, bind. rewrite verify_function_eq. reflexivity.
Qed.

(** The two ways out of the [try] block send no usage record and do not
    touch the counter. *)
Lemma auto_complete_usage s :
  let s' := (auto_complete api s).2 in
  usage_sent (api_calls s') = usage_sent (api_calls s) /\
  call_count s' = call_count s.
Proof.
  cbn zeta. rewrite auto_complete_eq.
  destruct (_response_provided s); [split; reflexivity|].
  destruct (_verified s && dict_truthy (_last_verify_payload s));
    [|split; reflexivity].
  cbn zeta. destruct (auto_links _ _); [|split; reflexivity].
  destruct (request_class api Req_ProvideAgentResponse _); [split; reflexivity|].
  destruct (api_dispatch api (api_calls s) _);
    cbn [snd api_calls call_count set_response_provided record_call];
    rewrite usage_sent_app; split; solve [apply app_nil_r | reflexivity].
Qed.

Lemma on_agent_error_usage e s :
  let s' := (on_agent_error api e s).2 in
  usage_sent (api_calls s') = usage_sent (api_calls s) /\
  call_count s' = call_count s.
Proof.
  cbn zeta. rewrite on_agent_error_eq. cbn [snd].
  destruct (_response_provided s); [split; reflexivity|].
  destruct (request_class api Req_ProvideAgentResponse _); [split; reflexivity|].
  cbn [api_calls call_count record_call]. rewrite usage_sent_app.
  split; [apply app_nil_r|reflexivity].
Qed.
End Usage.

(** C7 (as stated). Two tasks for which no usage record is sent at all.
    In the first the only model call returns a result without generations:
    the call is counted, reading the result fails before [log_llm], and the
    teardown sends nothing because the counter is not zero.  In the second
    [who_am_i] fails: [run_agent] raises before its [try] block, so the
    teardown does not run. *)
Lemma task_without_usage_record :
  usage_sent (api_calls (after_task accepting_api "gpt" "task_1"
                           empty_choices_run initial_state)) = [] /\
  call_count (after_task accepting_api "gpt" "task_1" empty_choices_run
                initial_state) = 1%nat /\
  run_agent offline_api "gpt" "task_1" idle_run initial_state
  = (Raise (Exception "Connection refused"), initial_state).
Proof. repeat split; vm_compute; reflexivity. Qed.

(** C7 (amended). Once the set-up of [run_agent] is done, the teardown
    runs whether the loop returned or raised, and does not change how
    [run_agent] ends.  If no model call was counted, in particular if no
    model call ended during the loop, the task hands exactly one record to
    [log_llm], at teardown: the zero-usage record, with prompt, completion
    and cached token counts all zero and the completion text
    "[no_llm_calls]"; a failure of that call is swallowed.  If a model call
    was counted, the teardown sends nothing. *)
Theorem teardown_sends_zero_usage api model_name task agent s :
  api_who_am_i api = Ok tt ->
  let s2 := at_loop_end api model_name task agent s in
  let s4 := after_task api model_name task agent s in
  (run_agent api model_name task agent s).1 =
  match ending agent with Returns => Ok tt | Raises e => Raise e end /\
  (call_count s2 = 0%nat ->
   usage_sent (api_calls s4) =
   usage_sent (api_calls s) ++ [zero_usage model_name task]) /\
  (call_count s2 <> 0%nat ->
   usage_sent (api_calls s4) = usage_sent (api_calls s2)) /\
  (Forall no_llm_end (events agent) -> call_count s2 = 0%nat) /\
  prompt_tokens (zero_usage model_name task) = 0 /\
  completion_tokens (zero_usage model_name task) = 0 /\
  cached_prompt_tokens (zero_usage model_name task) = 0 /\
  completion (zero_usage model_name task) = "[no_llm_calls]" /\
  completion (zero_usage model_name task) <> EmptyString.
Proof.
  intros Hsetup s2 s4. subst s4. unfold after_task.
  rewrite run_agent_eq, Hsetup. cbn zeta. fold s2.
  split; [destruct (ending agent); reflexivity|].
  set (s3 := match ending agent with
             | Returns => (auto_complete api s2).2
             | Raises e => (on_agent_error api e s2).2
             end).
  assert (Hfinal :
            (match ending agent with
             | Returns =>
                 (Ok tt, (log_final_stats api model_name task (auto_complete api s2).2).2)
             | Raises e =>
                 (Raise e, (log_final_stats api model_name task
                              (on_agent_error api e s2).2).2)
             end).2 = (log_final_stats api model_name task s3).2)
    by (unfold s3; destruct (ending agent); reflexivity).
  assert (Hs3 : usage_sent (api_calls s3) = usage_sent (api_calls s2) /\
                call_count s3 = call_count s2)
    by (unfold s3; destruct (ending agent);
        [apply auto_complete_usage|apply on_agent_error_usage]).
  destruct Hs3 as [Hu3 Hc3]. rewrite Hfinal. clearbody s3.
  rewrite log_final_stats_eq. cbn [snd]. rewrite Hc3.
  destruct (run_events_usage api model_name task (events agent)
              (new_callback (reset_flags s))) as (l & Hl & Hcount).
  fold (at_loop_end api model_name task agent s) in Hl, Hcount. fold s2 in Hl, Hcount.
  cbn [call_count new_callback] in Hcount.
  change (api_calls (new_callback (reset_flags s))) with (api_calls s) in Hl.
  split; [|split; [|split]].
  - intros Hzero. rewrite Hzero. cbn [Nat.eqb api_calls record_call].
    rewrite usage_sent_app, Hu3, Hl.
    assert (l = []) by (destruct l; [reflexivity|cbn in Hcount; lia]).
    subst l. rewrite app_nil_r. reflexivity.
  - intros Hpos. destruct (Nat.eqb_spec (call_count s2) 0); [contradiction|].
    exact Hu3.
  - intros Hall. unfold s2, at_loop_end.
    rewrite run_events_no_llm_end by exact Hall. reflexivity.
  - repeat split; try reflexivity. discriminate.
Qed.

(** C7 (amended) on a run that raises without any model call. *)
Lemma teardown_sends_zero_usage_witness :
  usage_sent (api_calls (after_task accepting_api "gpt" "task_1" crashing_run
                           initial_state))
  = [zero_usage "gpt" "task_1"].
Proof.
  destruct (teardown_sends_zero_usage accepting_api "gpt" "task_1" crashing_run
              initial_state eq_refl) as (_ & H & _).
  apply H. vm_compute. reflexivity.
Defined.

(** * Further properties of the code *)

(** ** The tool wrapper *)

(** X1. The latch only guards the terminal tool: a call of any other
    tool is dispatched whether or not the response was already provided.
    Its result is the text of the API, or the error text, with nothing
    appended, and the state changes by the recorded call alone. *)
Theorem other_tools_ignore_the_latch api self kwargs kwargs' s :
  name self <> Req_ProvideAgentResponse ->
  clamp_page kwargs = Ok kwargs' ->
  request_class api (tool_request_class self) kwargs' = None ->
  let r := {| req_class := tool_request_class self; req_args := kwargs' |} in
  let res := api_dispatch api (api_calls s) r in
  _run api self kwargs s =
  (Ok (match res with Ok txt => txt | Raise e => error_text e end),
   record_call (Dispatched r res) s).
Proof.
  intros Hn Hclamp Hval r res.
  apply String.eqb_neq in Hn.
  rewrite _run_open by (rewrite Hn; apply andb_false_r).
  rewrite Hclamp, Hval. cbn zeta. fold r. fold res.
  destruct res; rewrite ?Hn; reflexivity.
Qed.

(** X1 on a search made after the task was completed. *)
Lemma other_tools_ignore_the_latch_witness :
  api_calls (_run accepting_api search_projects (search_kwargs 2)
               completed_state).2
  = [Dispatched {| req_class := "Req_SearchProjects";
                   req_args := search_kwargs 2 |} (Ok "{}")].
Proof.
  rewrite (other_tools_ignore_the_latch accepting_api search_projects
             (search_kwargs 2) (search_kwargs 2) completed_state).
  - reflexivity.
  - discriminate.
  - vm_compute. reflexivity.
  - reflexivity.
Defined.

(** X2. A call that fails before [dispatch] reaches nothing: when [page]
    holds a string, a list or a dict the comparison with 5 raises, and
    when the request class rejects the arguments the construction raises;
    in both cases [_run] returns the error text and the state, with the
    history of API calls, is exactly what it was. *)
Theorem rejected_call_reaches_nothing api self (kwargs : gmap string pyval) s :
  _response_provided s && String.eqb (name self) Req_ProvideAgentResponse = false ->
  (forall v,
     kwargs !! "page" = Some v ->
     (exists t, v = PStr t) \/ (exists l, v = PList l) \/ (exists d, v = PDict d) ->
     _run api self kwargs s =
     (Ok ("Error: '>' not supported between instances of '"
          +:+ type_name v +:+ "' and 'int'"), s)) /\
  (forall kwargs' e,
     clamp_page kwargs = Ok kwargs' ->
     request_class api (tool_request_class self) kwargs' = Some e ->
     _run api self kwargs s = (Ok (error_text e), s)).
Proof.
  intros Hopen. split.
  - intros v Hpage Hv. rewrite _run_open by assumption.
    unfold clamp_page. rewrite Hpage.
    destruct Hv as [[t ->]|[[l ->]|[d ->]]]; reflexivity.
  - intros kwargs' e Hclamp Hval. rewrite _run_open by assumption.
    rewrite Hclamp, Hval. reflexivity.
Qed.

(** X2 on a search whose page is the text "9". *)
Lemma rejected_call_reaches_nothing_witness :
  _run accepting_api search_projects text_page_kwargs initial_state
  = (Ok "Error: '>' not supported between instances of 'str' and 'int'",
     initial_state).
Proof.
  destruct (rejected_call_reaches_nothing accepting_api search_projects
              text_page_kwargs initial_state eq_refl) as [H _].
  apply (H (PStr "9")); [vm_compute; reflexivity|].
  left. exists "9". reflexivity.
Defined.

(** An integer page that comes out of the clamp is at most 5. *)
Lemma clamp_page_bound (kwargs kwargs' : gmap string pyval) z :
  clamp_page kwargs = Ok kwargs' ->
  kwargs' !! "page" = Some (PInt z) -> z <= 5.
Proof.
  unfold clamp_page.
  destruct (kwargs !! "page") as [v|] eqn:Hpage; [|intros [= <-]; congruence].
  destruct (is_none v) eqn:Hnone.
  - intros [= <-] Hz. rewrite Hpage in Hz. injection Hz as ->. discriminate.
  - destruct (py_gt_int v 5) as [[|]|] eqn:Hgt; [| |discriminate].
    + intros [= <-]. rewrite lookup_insert_eq. intros [= <-]. lia.
    + intros [= <-] Hz. rewrite Hpage in Hz. injection Hz as ->.
      cbn in Hgt. injection Hgt as Hgt. apply Z.ltb_ge in Hgt. exact Hgt.
Qed.

(** X3. Whenever the page clamp succeeds, the arguments keep their keys
    and every value other than [page]; an integer [page] of the result is
    at most 5; and clamping the result again changes nothing. *)
Theorem clamp_page_invariants (kwargs kwargs' : gmap string pyval) :
  clamp_page kwargs = Ok kwargs' ->
  dom kwargs' = dom kwargs /\
  (forall k, k <> "page" -> kwargs' !! k = kwargs !! k) /\
  (forall z, kwargs' !! "page" = Some (PInt z) -> z <= 5) /\
  clamp_page kwargs' = Ok kwargs'.
Proof.
  unfold clamp_page at 1.
  destruct (kwargs !! "page") as [v|] eqn:Hpage.
  - destruct (is_none v) eqn:Hnone.
    + intros [= <-]. repeat split; try reflexivity.
      * intros z Hz. rewrite Hpage in Hz. injection Hz as ->. discriminate.
      * unfold clamp_page. rewrite Hpage, Hnone. reflexivity.
    + destruct (py_gt_int v 5) as [[|]|] eqn:Hgt; [| |discriminate].
      * intros [= <-]. split; [|split; [|split]].
        -- apply set_eq. intros k. rewrite dom_insert, elem_of_union, elem_of_singleton.
           split; [|tauto]. intros [->|H]; [|exact H].
           apply elem_of_dom. rewrite Hpage. eauto.
        -- intros k Hk. apply lookup_insert_ne. congruence.
        -- intros z. rewrite lookup_insert_eq. intros [= <-]. lia.
        -- unfold clamp_page. rewrite lookup_insert_eq. reflexivity.
      * intros [= <-]. repeat split; try reflexivity.
        -- intros z Hz. rewrite Hpage in Hz. injection Hz as ->.
           cbn in Hgt. injection Hgt as Hgt. apply Z.ltb_ge in Hgt. exact Hgt.
        -- unfold clamp_page. rewrite Hpage, Hnone, Hgt. reflexivity.
  - intros [= <-]. repeat split; try reflexivity.
    + intros z Hz. rewrite Hpage in Hz. discriminate.
    + unfold clamp_page. rewrite Hpage. reflexivity.
Qed.

(** X3 on a search with [page=9]. *)
Lemma clamp_page_invariants_witness :
  clamp_page (<["page" := PInt 5]> (search_kwargs 9))
  = Ok (<["page" := PInt 5]> (search_kwargs 9)).
Proof.
  apply (clamp_page_invariants (search_kwargs 9)).
  vm_compute. reflexivity.
Defined.

(** ** One terminal response per task *)

Section TaskSubmissions.
Variable api : ERC3.
Variables model_name task : string.

Lemma auto_complete_submissions s :
  let s' := (auto_complete api s).2 in
  (submissions (api_calls s') = submissions (api_calls s) /\
   _response_provided s' = _response_provided s) \/
  (_response_provided s = false /\ _response_provided s' = true /\
   submissions (api_calls s') = S (submissions (api_calls s))).
Proof.
  cbn zeta. rewrite auto_complete_eq.
  destruct (_response_provided s) eqn:Hp; [left; auto|].
  destruct (_verified s && dict_truthy (_last_verify_payload s)); [|left; auto].
  cbn zeta. destruct (auto_links _ _); [|left; auto].
  destruct (request_class api Req_ProvideAgentResponse _); [left; auto|].
  destruct (api_dispatch api (api_calls s) _);
    cbn [snd api_calls _response_provided set_response_provided record_call];
    rewrite submissions_snoc; cbn [is_submission req_class].
  - right. repeat split. cbn. lia.
  - left. split; [lia|exact Hp].
Qed.

Lemma on_agent_error_submissions e s :
  let s' := (on_agent_error api e s).2 in
  _response_provided s' = _response_provided s /\
  (_response_provided s = true -> api_calls s' = api_calls s) /\
  (submissions (api_calls s) <= submissions (api_calls s')
   <= S (submissions (api_calls s)))%nat.
Proof.
  cbn zeta. rewrite on_agent_error_eq. cbn [snd].
  destruct (_response_provided s) eqn:Hp; [repeat split; auto; lia|].
  destruct (request_class api Req_ProvideAgentResponse _);
    [repeat split; auto; lia|].
  cbn [api_calls _response_provided record_call]. rewrite submissions_snoc.
  repeat split; auto; try discriminate; destruct (is_submission _); lia.
Qed.

Lemma log_final_stats_submissions s :
  submissions (api_calls (log_final_stats api model_name task s).2)
  = submissions (api_calls s).
Proof.
  rewrite log_final_stats_eq. cbn [snd].
  destruct (call_count s =? 0)%nat; [|reflexivity].
  cbn [api_calls record_call]. rewrite submissions_snoc. cbn. lia.
Qed.
End TaskSubmissions.

(** X4. Over a whole task, tool calls and auto-completion together, the
    API accepts at most one terminal response.  When the loop returns,
    the latch is set at the end of the task exactly when one was accepted;
    when the loop raises, a set latch still means that one was accepted. *)
Theorem task_submits_at_most_once api model_name task agent s :
  api_who_am_i api = Ok tt ->
  Forall registered (events agent) ->
  let s4 := after_task api model_name task agent s in
  (submissions (api_calls s4) <= S (submissions (api_calls s)))%nat /\
  (ending agent = Returns ->
   (_response_provided s4 = true <->
    submissions (api_calls s4) = S (submissions (api_calls s)))) /\
  (_response_provided s4 = true ->
   submissions (api_calls s4) = S (submissions (api_calls s))).
Proof.
  intros Hsetup Hreg s4. subst s4. unfold after_task.
  rewrite run_agent_eq, Hsetup. cbn zeta.
  set (s2 := at_loop_end api model_name task agent s).
  pose proof (run_events_submissions api model_name task (events agent)
                (new_callback (reset_flags s)) Hreg) as Hloop.
  cbn zeta in Hloop. fold (at_loop_end api model_name task agent s) in Hloop.
  fold s2 in Hloop.
  change (_response_provided (new_callback (reset_flags s))) with false in Hloop.
  change (api_calls (new_callback (reset_flags s))) with (api_calls s) in Hloop.
  destruct (ending agent) as [|e]; cbn [snd].
  - pose proof (log_final_stats_frame api model_name task (auto_complete api s2).2)
      as [Hl _].
    rewrite log_final_stats_submissions, Hl.
    pose proof (auto_complete_submissions api s2) as Hauto. cbn zeta in Hauto.
    destruct Hloop as [[Hp Hs]|[Hp Hs]];
      destruct Hauto as [[Ha Hq]|(Hq0 & Hq & Ha)];
      rewrite ?Ha, ?Hq, ?Hs, ?Hp; try congruence;
      repeat split; intros; try congruence; try lia.
  - pose proof (log_final_stats_frame api model_name task (on_agent_error api e s2).2)
      as [Hl _].
    rewrite log_final_stats_submissions, Hl.
    pose proof (on_agent_error_submissions api e s2) as (Hq & Hsame & Hle).
    rewrite Hq.
    destruct Hloop as [[Hp Hs]|[Hp Hs]]; rewrite Hp.
    + repeat split; intros; try congruence; try lia.
    + rewrite (Hsame Hp), Hs. repeat split; intros; try congruence; lia.
Qed.

(** X4 on a run that answers and then tries to answer again. *)
Lemma task_submits_at_most_once_witness :
  (submissions (api_calls (after_task accepting_api "gpt" "task_1"
                             answering_run initial_state)) <= 1)%nat.
Proof.
  destruct (task_submits_at_most_once accepting_api "gpt" "task_1"
              answering_run initial_state eq_refl) as [H _].
  - unfold answering_run, events_after_answer. cbn [events]. all_registered.
  - exact H.
Defined.

(** X5. Once a terminal call has gone through during the loop, the end
    of [run_agent] dispatches nothing more, whether the loop returned or
    raised: the requests sent by the task are those sent by the loop. *)
Theorem no_dispatch_after_answer api model_name task agent s :
  api_who_am_i api = Ok tt ->
  _response_provided (at_loop_end api model_name task agent s) = true ->
  dispatched (api_calls (after_task api model_name task agent s))
  = dispatched (api_calls (at_loop_end api model_name task agent s)) /\
  _response_provided (after_task api model_name task agent s) = true.
Proof.
  intros Hsetup Hp. unfold after_task.
  rewrite run_agent_eq, Hsetup. cbn zeta.
  set (s2 := at_loop_end api model_name task agent s) in *.
  destruct (ending agent) as [|e]; cbn [snd].
  - pose proof (log_final_stats_frame api model_name task (auto_complete api s2).2)
      as [Hl Hd].
    rewrite Hl, Hd, auto_complete_eq, Hp. split; [reflexivity|exact Hp].
  - pose proof (log_final_stats_frame api model_name task (on_agent_error api e s2).2)
      as [Hl Hd].
    rewrite Hl, Hd, on_agent_error_eq, Hp. split; [reflexivity|exact Hp].
Qed.

(** X5 on the run that answers and then tries to answer again. *)
Lemma no_dispatch_after_answer_witness :
  _response_provided (after_task accepting_api "gpt" "task_1" answering_run
                        initial_state) = true.
Proof.
  apply (no_dispatch_after_answer accepting_api "gpt" "task_1" answering_run
           initial_state eq_refl).
  vm_compute. reflexivity.
Defined.

(** X6. [run_agent] reads nothing of what an earlier task left in the
    flags, the stored payload or the callback fields: two states with the
    same history of API calls give the same result and the same final
    state. *)
Theorem run_agent_ignores_stale_state api model_name task agent s s' :
  api_who_am_i api = Ok tt ->
  api_calls s = api_calls s' ->
  run_agent api model_name task agent s = run_agent api model_name task agent s'.
Proof.
  intros Hsetup Hcalls.
  assert (Hstart : new_callback (reset_flags s) = new_callback (reset_flags s')).
  { unfold new_callback, reset_flags, set_verified, set_response_provided.
    cbn. rewrite Hcalls. reflexivity. }
  rewrite !run_agent_eq, Hsetup. cbn zeta. unfold at_loop_end.
  rewrite Hstart. reflexivity.
Qed.

(** X6 on a fresh state and on one left by an earlier task. *)
Lemma run_agent_ignores_stale_state_witness :
  run_agent accepting_api "gpt" "task_1" verified_run stale_state
  = run_agent accepting_api "gpt" "task_1" verified_run initial_state.
Proof.
  apply run_agent_ignores_stale_state; reflexivity.
Defined.

(** ** The history of API calls of a task *)

Lemma respond_kwargs_no_page message outcome links :
  respond_kwargs message outcome links !! "page" = None.
Proof. reflexivity. Qed.

Lemma total_of_app f l1 l2 : total_of f (l1 ++ l2) = total_of f l1 + total_of f l2.
Proof.
  unfold total_of. induction l1 as [|u l1 IH]; [reflexivity|].
  cbn [app map fold_right]. rewrite IH. lia.
Qed.

Lemma calls_since_app old l s :
  api_calls s = old ++ l -> calls_since old s = l.
Proof.
  intros H. unfold calls_since. rewrite H. apply drop_app_length.
Qed.

Section History.
Variable api : ERC3.
Variables model_name task : string.

Lemma step_adds_nothing s s' :
  api_calls s' = api_calls s ->
  total_prompt_tokens s' = total_prompt_tokens s ->
  total_completion_tokens s' = total_completion_tokens s ->
  step_adds s s' [].
Proof.
  intros H1 H2 H3. unfold step_adds. rewrite H1, H2, H3, app_nil_r.
  cbn. repeat split; try lia. apply List.Forall_nil.
Qed.

Lemma step_adds_dispatch s s' r res :
  api_calls s' = api_calls s ++ [Dispatched r res] ->
  total_prompt_tokens s' = total_prompt_tokens s ->
  total_completion_tokens s' = total_completion_tokens s ->
  (forall z, req_args r !! "page" = Some (PInt z) -> z <= 5) ->
  step_adds s s' [Dispatched r res].
Proof.
  intros H1 H2 H3 Hpage. unfold step_adds. rewrite H1, H2, H3.
  cbn. repeat split; try lia.
  apply List.Forall_cons; [exact Hpage|apply List.Forall_nil].
Qed.

Lemma step_adds_trans s1 s2 s3 l1 l2 :
  step_adds s1 s2 l1 -> step_adds s2 s3 l2 -> step_adds s1 s3 (l1 ++ l2).
Proof.
  intros (H1 & F1 & P1 & C1) (H2 & F2 & P2 & C2). unfold step_adds.
  rewrite H2, H1, P2, P1, C2, C1, usage_sent_app, !total_of_app, app_assoc.
  repeat split; try lia. apply Forall_app. split; assumption.
Qed.

Lemma _run_history tool kwargs s :
  exists l, step_adds s (_run api tool kwargs s).2 l.
Proof.
  destruct (_response_provided s && String.eqb (name tool) Req_ProvideAgentResponse)
    eqn:Hopen.
  - apply andb_true_iff in Hopen as [Hp Hn]. apply String.eqb_eq in Hn.
    rewrite _run_intercepted by assumption.
    exists []. apply step_adds_nothing; reflexivity.
  - rewrite _run_open by assumption.
    destruct (clamp_page kwargs) as [kw|] eqn:Hclamp;
      [|exists []; apply step_adds_nothing; reflexivity].
    destruct (request_class api (tool_request_class tool) kw);
      [exists []; apply step_adds_nothing; reflexivity|].
    cbn zeta. pose proof (fun z => clamp_page_bound kwargs kw z Hclamp) as Hpage.
    destruct (api_dispatch api (api_calls s) _);
      [destruct (String.eqb (name tool) Req_ProvideAgentResponse)|];
      eexists [_]; apply step_adds_dispatch; solve [reflexivity | exact Hpage].
Qed.

Lemma run_event_history ev s :
  exists l, step_adds s (run_event api model_name task ev s).2 l.
Proof.
  destruct ev as [tool kwargs| | |v|now|now response];
    try (exists []; apply step_adds_nothing; reflexivity).
  - rewrite run_event_tool. apply _run_history.
  - unfold run_event, bind. rewrite verify_function_eq.
    exists []. apply step_adds_nothing; reflexivity.
  - cbn [run_event]. rewrite on_llm_end_eq.
    destruct (start_time s);
      [|exists []; apply step_adds_nothing; reflexivity].
    cbn zeta.
    destruct (read_response api response) as [[[text usage_data] cached]|];
      [|exists []; apply step_adds_nothing; reflexivity].
    eexists [_]. unfold step_adds.
    cbn [snd api_calls total_prompt_tokens total_completion_tokens
         set_start_time record_call add_usage count_call usage_sent flat_map app].
    unfold total_of.
    repeat split; try (cbn; lia).
    apply List.Forall_cons; [|apply List.Forall_nil].
    cbn [well_formed_call completion]. unfold nonempty.
    destruct (String.eqb_spec text EmptyString); [discriminate|assumption].
Qed.

Lemma run_events_history evs s :
  exists l, step_adds s (run_events api model_name task evs s).2 l.
Proof.
  revert s. induction evs as [|ev evs IH]; intros s.
  - exists []. apply step_adds_nothing; reflexivity.
  - rewrite run_events_cons.
    destruct (run_event_history ev s) as [l1 H1].
    destruct (IH (run_event api model_name task ev s).2) as [l2 H2].
    exists (l1 ++ l2). eapply step_adds_trans; eassumption.
Qed.

Lemma auto_complete_history s :
  exists l, step_adds s (auto_complete api s).2 l.
Proof.
  rewrite auto_complete_eq.
  destruct (_response_provided s);
    [exists []; apply step_adds_nothing; reflexivity|].
  destruct (_verified s && dict_truthy (_last_verify_payload s));
    [|exists []; apply step_adds_nothing; reflexivity].
  cbn zeta. destruct (auto_links _ _);
    [|exists []; apply step_adds_nothing; reflexivity].
  destruct (request_class api Req_ProvideAgentResponse _);
    [exists []; apply step_adds_nothing; reflexivity|].
  destruct (api_dispatch api (api_calls s) _);
    eexists [_]; apply step_adds_dispatch; try reflexivity;
    cbn [req_args]; intros z Hz; rewrite respond_kwargs_no_page in Hz;
    discriminate.
Qed.

Lemma on_agent_error_history e s :
  exists l, step_adds s (on_agent_error api e s).2 l.
Proof.
  rewrite on_agent_error_eq. cbn [snd].
  destruct (_response_provided s);
    [exists []; apply step_adds_nothing; reflexivity|].
  destruct (request_class api Req_ProvideAgentResponse _);
    [exists []; apply step_adds_nothing; reflexivity|].
  eexists [_]. apply step_adds_dispatch; try reflexivity.
  intros z Hz. discriminate.
Qed.

Lemma log_final_stats_history s :
  exists l,
    api_calls (log_final_stats api model_name task s).2 = api_calls s ++ l /\
    Forall well_formed_call l.
Proof.
  rewrite log_final_stats_eq. cbn [snd].
  destruct (call_count s =? 0)%nat.
  - eexists [_]. split; [reflexivity|].
    apply List.Forall_cons; [discriminate|apply List.Forall_nil].
  - exists []. split; [symmetry; apply app_nil_r|apply List.Forall_nil].
Qed.

(** The history of a whole task. *)
Lemma run_agent_history agent s :
  exists l,
    api_calls (after_task api model_name task agent s) = api_calls s ++ l /\
    Forall well_formed_call l.
Proof.
  unfold after_task. rewrite run_agent_eq.
  destruct (api_who_am_i api) as [[]|];
    [|exists []; split; [symmetry; apply app_nil_r|apply List.Forall_nil]].
  cbn zeta. unfold at_loop_end.
  destruct (run_events_history (events agent) (new_callback (reset_flags s)))
    as (l1 & H1 & F1 & _).
  change (api_calls (new_callback (reset_flags s))) with (api_calls s) in H1.
  set (s2 := (run_events api model_name task (events agent)
                (new_callback (reset_flags s))).2) in *.
  assert (Hend : forall s3 l2,
             step_adds s2 s3 l2 ->
             exists l,
               api_calls (log_final_stats api model_name task s3).2
               = api_calls s ++ l /\ Forall well_formed_call l).
  { intros s3 l2 (H2 & F2 & _).
    destruct (log_final_stats_history s3) as (l3 & H3 & F3).
    exists (l1 ++ l2 ++ l3). rewrite H3, H2, H1, <- !app_assoc.
    split; [reflexivity|]. rewrite !Forall_app. auto. }
  destruct (ending agent) as [|e]; cbn [snd].
  - destruct (auto_complete_history s2) as [l2 H2]. eapply Hend, H2.
  - destruct (on_agent_error_history e s2) as [l2 H2]. eapply Hend, H2.
Qed.
End History.

Lemma usage_sent_In u l :
  In u (usage_sent l) -> exists res, In (LoggedLLM u res) l.
Proof.
  unfold usage_sent. rewrite in_flat_map. intros (c & Hc & Hu).
  destruct c as [r res|u' res]; [destruct Hu|].
  destruct Hu as [<-|[]]. eauto.
Qed.

Lemma dispatched_In r l :
  In r (dispatched l) -> exists res, In (Dispatched r res) l.
Proof.
  unfold dispatched. rewrite in_flat_map. intros (c & Hc & Hr).
  destruct c as [r' res|u res]; [|destruct Hr].
  destruct Hr as [<-|[]]. eauto.
Qed.

(** X7. Every usage record that a task hands to [log_llm], from a model
    call or from the teardown, has a non-empty completion text, whatever
    the model returned. *)
Theorem usage_records_have_text api model_name task agent s u :
  In u (usage_sent (calls_since (api_calls s)
                      (after_task api model_name task agent s))) ->
  completion u <> EmptyString.
Proof.
  destruct (run_agent_history api model_name task agent s) as (l & Hl & Hwf).
  rewrite (calls_since_app _ _ _ Hl). intros Hin.
  apply usage_sent_In in Hin as [res Hin].
  rewrite List.Forall_forall in Hwf. exact (Hwf _ Hin).
Qed.

(** X7 on a run with one model call. *)
Lemma usage_records_have_text_witness :
  let u := {| task_id := "task_1"; model := "gpt"; completion := "Done.";
              duration_sec := 4; prompt_tokens := 120; completion_tokens := 7;
              cached_prompt_tokens := 64 |} in
  In u (usage_sent (calls_since (api_calls initial_state)
                      (after_task accepting_api "gpt" "task_1" chatting_run
                         initial_state))) /\
  completion u <> EmptyString.
Proof.
  intros u.
  assert (Hin : In u (usage_sent (calls_since (api_calls initial_state)
                        (after_task accepting_api "gpt" "task_1" chatting_run
                           initial_state))))
    by (vm_compute; left; reflexivity).
  split; [exact Hin|].
  exact (usage_records_have_text accepting_api "gpt" "task_1" chatting_run
           initial_state u Hin).
Defined.

(** X8. No request that a task sends to the API, through a tool or
    through the auto-completion, carries an integer [page] above 5. *)
Theorem no_large_page_reaches_api api model_name task agent s r z :
  In r (dispatched (calls_since (api_calls s)
                      (after_task api model_name task agent s))) ->
  req_args r !! "page" = Some (PInt z) ->
  z <= 5.
Proof.
  destruct (run_agent_history api model_name task agent s) as (l & Hl & Hwf).
  rewrite (calls_since_app _ _ _ Hl). intros Hin.
  apply dispatched_In in Hin as [res Hin].
  rewrite List.Forall_forall in Hwf. exact (Hwf _ Hin z).
Qed.

(** X8 on a run that searches with [page=9]. *)
Lemma no_large_page_reaches_api_witness :
  let r := {| req_class := "Req_SearchProjects";
              req_args := <["page" := PInt 5]> (search_kwargs 9) |} in
  In r (dispatched (calls_since (api_calls initial_state)
                      (after_task accepting_api "gpt" "task_1" chatting_run
                         initial_state))) /\
  5 <= 5.
Proof.
  intros r.
  assert (Hin : In r (dispatched (calls_since (api_calls initial_state)
                        (after_task accepting_api "gpt" "task_1" chatting_run
                           initial_state))))
    by (vm_compute; left; reflexivity).
  split; [exact Hin|].
  apply (no_large_page_reaches_api accepting_api "gpt" "task_1" chatting_run
           initial_state r 5 Hin).
  vm_compute. reflexivity.
Defined.

(** X9. When the loop is left, the prompt and completion totals kept by
    the callback are the sums over the records that the loop handed to
    [log_llm], and the call counter is at least their number. *)
Theorem totals_match_records api model_name task agent s :
  let s2 := at_loop_end api model_name task agent s in
  let sent := usage_sent (calls_since (api_calls s) s2) in
  total_prompt_tokens s2 = total_of prompt_tokens sent /\
  total_completion_tokens s2 = total_of completion_tokens sent /\
  (length sent <= call_count s2)%nat.
Proof.
  intros s2 sent. subst sent s2. unfold at_loop_end.
  destruct (run_events_history api model_name task (events agent)
              (new_callback (reset_flags s))) as (l & Hl & _ & Hp & Hc).
  destruct (run_events_usage api model_name task (events agent)
              (new_callback (reset_flags s))) as (l' & Hl' & Hcount).
  change (api_calls (new_callback (reset_flags s))) with (api_calls s) in Hl, Hl'.
  rewrite (calls_since_app _ _ _ Hl).
  rewrite Hl, usage_sent_app in Hl'. apply app_inv_head in Hl'. subst l'.
  rewrite Hp, Hc. cbn [total_prompt_tokens total_completion_tokens call_count
                       new_callback] in *.
  repeat split; lia.
Qed.

(** X10. An end of a model call that no start precedes is ignored, and
    every end clears the start time: of two ends in a row the second one
    changes nothing, so one model call is never counted or logged twice. *)
Theorem second_llm_end_is_ignored api model_name task a b r1 r2 s :
  let s1 := (on_llm_end api model_name task a r1 s).2 in
  start_time s1 = None /\
  on_llm_end api model_name task b r2 s1 = (Ok tt, s1) /\
  (start_time s = None -> s1 = s).
Proof.
  intros s1.
  assert (Hnone : start_time s1 = None).
  { subst s1. rewrite on_llm_end_eq.
    destruct (start_time s) eqn:Hs; [|exact Hs]. cbn zeta.
    destruct (read_response api r1) as [[[? ?] ?]|]; reflexivity. }
  split; [exact Hnone|]. split.
  - rewrite on_llm_end_eq, Hnone. reflexivity.
  - intros Hs. subst s1. rewrite on_llm_end_eq, Hs. reflexivity.
Qed.

(** ** Comma-separated lists *)

Lemma chars_rev_app c s1 s2 :
  In c (chars (String.rev_app s1 s2)) <-> In c (chars s1) \/ In c (chars s2).
Proof.
  revert s2. induction s1 as [|a s1 IH]; intros s2; cbn.
  - tauto.
  - rewrite IH. cbn. tauto.
Qed.

Lemma rev_app_append s1 s2 : String.rev_app s1 s2 = String.rev s1 +:+ s2.
Proof.
  unfold String.rev. revert s2. induction s1 as [|a s1 IH]; intros s2.
  - reflexivity.
  - cbn [String.rev_app]. rewrite IH, (IH (String a EmptyString)), append_assoc.
    reflexivity.
Qed.

Lemma split_acc_no_sep sep cur s p :
  ~ In sep (chars cur) ->
  In p (split_acc sep cur s) -> ~ In sep (chars p).
Proof.
  revert cur. induction s as [|c s IH]; intros cur Hcur; cbn [split_acc].
  - intros [<-|[]]. unfold String.rev. rewrite chars_rev_app. cbn. tauto.
  - destruct (Ascii.eqb_spec c sep) as [->|Hne].
    + intros [<-|Hin].
      * unfold String.rev. rewrite chars_rev_app. cbn. tauto.
      * apply (IH EmptyString); [cbn; tauto|exact Hin].
    + apply IH. cbn. intros [Heq|Hin]; [congruence|tauto].
Qed.

(** A piece without the separator is read to its end. *)
Lemma split_acc_piece sep cur p :
  ~ In sep (chars p) ->
  split_acc sep cur p = [String.rev cur +:+ p] /\
  forall rest,
    split_acc sep cur (p +:+ String sep rest)
    = (String.rev cur +:+ p) :: split_acc sep EmptyString rest.
Proof.
  assert (Hnil : forall s : string, s +:+ EmptyString = s).
  { induction s as [|a s IH]; [reflexivity|].
    change (String a (s +:+ EmptyString) = String a s). rewrite IH. reflexivity. }
  revert cur. induction p as [|c p IH]; intros cur Hp.
  - split.
    + cbn [split_acc]. rewrite Hnil. reflexivity.
    + intros rest. change (EmptyString +:+ String sep rest) with (String sep rest).
      cbn [split_acc]. rewrite Ascii.eqb_refl, Hnil. reflexivity.
  - assert (Hc : Ascii.eqb c sep = false).
    { apply Ascii.eqb_neq. intros ->. apply Hp. cbn. tauto. }
    assert (Hp' : ~ In sep (chars p)) by (intros H; apply Hp; cbn; tauto).
    destruct (IH (String c cur) Hp') as [IH1 IH2].
    assert (Hrev : String.rev (String c cur) +:+ p = String.rev cur +:+ String c p).
    { unfold String.rev at 1. cbn [String.rev_app].
      rewrite rev_app_append, append_assoc. reflexivity. }
    split.
    + cbn [split_acc]. rewrite Hc, IH1, Hrev. reflexivity.
    + intros rest. change (String c p +:+ String sep rest)
        with (String c (p +:+ String sep rest)).
      cbn [split_acc]. rewrite Hc, IH2, Hrev. reflexivity.
Qed.

Lemma link_items_In kind raw l :
  In l (link_items kind raw) <->
  exists item, In item (split ","%char raw) /\
               strip item <> EmptyString /\ l = make_link kind (strip item).
Proof.
  unfold link_items. rewrite in_flat_map. split.
  - intros (item & Hitem & Hl). exists item. split; [exact Hitem|].
    unfold nonempty in Hl. destruct (String.eqb_spec (strip item) EmptyString);
      [destruct Hl|]. destruct Hl as [<-|[]]. split; [assumption|reflexivity].
  - intros (item & Hitem & Hne & ->). exists item. split; [exact Hitem|].
    unfold nonempty. destruct (String.eqb_spec (strip item) EmptyString);
      [contradiction|]. left. reflexivity.
Qed.

(** X11. Every link read from a comma-separated list has the kind of the
    list, and its id is not empty, contains no comma and has no white
    space at either end: stripping it again gives the same id. *)
Theorem link_items_are_clean k raw l :
  In l (link_items k raw) -> kind l = k /\ clean_id (id l).
Proof.
  intros Hin. apply link_items_In in Hin as (item & Hitem & Hne & ->).
  cbn [kind id make_link]. split; [reflexivity|]. unfold clean_id.
  split; [exact Hne|]. split; [apply strip_idempotent|].
  intros Hcomma. unfold strip in Hcomma.
  apply rstrip_chars, lstrip_chars in Hcomma.
  revert Hcomma. apply (split_acc_no_sep ","%char EmptyString raw item);
    [cbn; tauto|exact Hitem].
Qed.

(** X11 on the list " a, b ,,c ". *)
Lemma link_items_are_clean_witness :
  kind (make_link "employee" "b") = "employee" /\ clean_id "b".
Proof.
  apply (link_items_are_clean "employee" " a, b ,,c " (make_link "employee" "b")).
  vm_compute. right. left. reflexivity.
Defined.

Lemma join_cons_cons sep x y l :
  join sep (x :: y :: l) = x +:+ sep +:+ join sep (y :: l).
Proof. reflexivity. Qed.

Lemma split_join pieces :
  pieces <> [] ->
  Forall (fun p => ~ In ","%char (chars p)) pieces ->
  split ","%char (join "," pieces) = pieces.
Proof.
  intros Hne Hall. unfold split.
  induction Hall as [|p pieces Hp Hall IH]; [contradiction|].
  destruct pieces as [|q pieces].
  - change (join "," [p]) with p.
    apply (split_acc_piece ","%char EmptyString p Hp).
  - rewrite join_cons_cons.
    change ("," +:+ join "," (q :: pieces)) with (String ","%char (join "," (q :: pieces))).
    destruct (split_acc_piece ","%char EmptyString p Hp) as [_ H].
    rewrite H, IH by discriminate. reflexivity.
Qed.

(** X12. Writing ids as a comma-separated list and reading the list back
    gives the ids, in order: when every piece of the list is an id with
    white space around it, free of commas, the links read are those ids
    (so "a,b" and " a , b " both read as a and b). *)
Theorem link_items_round_trip k pieces ids :
  Forall2 piece_of pieces ids ->
  link_items k (join "," pieces) = map (make_link k) ids.
Proof.
  intros Hall. destruct pieces as [|p pieces].
  - inversion Hall; subst. reflexivity.
  - assert (Hsplit : split ","%char (join "," (p :: pieces)) = p :: pieces).
    { apply split_join; [discriminate|].
      clear -Hall. induction Hall as [|? ? ? ? (_ & _ & H) _ IH];
        [apply List.Forall_nil|apply List.Forall_cons; assumption]. }
    unfold link_items. rewrite Hsplit. clear Hsplit.
    induction Hall as [|q i qs is_ (Hstrip & Hne & _) _ IH]; [reflexivity|].
    cbn [flat_map map]. rewrite IH, Hstrip. unfold nonempty.
    destruct (String.eqb_spec i EmptyString); [contradiction|]. reflexivity.
Qed.

(** X12 on the list "emp_1, emp_2". *)
Lemma link_items_round_trip_witness :
  link_items "employee" "emp_1, emp_2"
  = [make_link "employee" "emp_1"; make_link "employee" "emp_2"].
Proof.
  apply (link_items_round_trip "employee" ["emp_1"; " emp_2"] ["emp_1"; "emp_2"]).
  repeat (first [apply List.Forall2_nil | apply List.Forall2_cons]);
    (split; [reflexivity|split; [discriminate|]]);
    cbn; intros H; repeat (destruct H as [H|H]; [discriminate|]); exact H.
Defined.

(** ** What [verify] shows and what the auto-completion sends *)

Lemma links_summary_nil v :
  links_summary v = [] <->
  link_list_given (employee_links v) = false /\
  link_list_given (project_links v) = false /\
  link_list_given (customer_links v) = false.
Proof.
  unfold links_summary, link_list_given.
  destruct (nonempty (employee_links v) && not_none (employee_links v));
    destruct (nonempty (project_links v) && not_none (project_links v));
    destruct (nonempty (customer_links v) && not_none (customer_links v));
    cbn; intuition congruence.
Qed.

Lemma join_first_char sep c x l :
  exists r, join sep (String c x :: l) = String c r.
Proof.
  destruct l as [|y l]; [exists x; reflexivity|].
  rewrite join_cons_cons. eexists. reflexivity.
Qed.

Lemma links_str_none_iff v : links_str v = "none" <-> links_summary v = [].
Proof.
  unfold links_str. split.
  - destruct (links_summary v) as [|x l] eqn:Hs; [reflexivity|].
    intros Hjoin. exfalso.
    assert (Hx : exists c r, x = String c r /\ c <> "n"%char).
    { unfold links_summary in Hs.
      destruct (nonempty (employee_links v) && not_none (employee_links v));
        [injection Hs as <- _; eexists _, _; split; [reflexivity|discriminate]|].
      destruct (nonempty (project_links v) && not_none (project_links v));
        [injection Hs as <- _; eexists _, _; split; [reflexivity|discriminate]|].
      destruct (nonempty (customer_links v) && not_none (customer_links v));
        [injection Hs as <- _; eexists _, _; split; [reflexivity|discriminate]|].
      discriminate. }
    destruct Hx as (c & r & -> & Hc).
    destruct (join_first_char ", " c r l) as [r' Hr]. rewrite Hr in Hjoin.
    injection Hjoin as Hc' _. contradiction.
  - intros ->. reflexivity.
Qed.

Lemma links_none_no_links v : links_str v = "none" -> verified_links v = [].
Proof.
  intros Hnone. apply links_str_none_iff, links_summary_nil in Hnone as (He & Hp & Hc).
  unfold verified_links, declared_links. unfold link_list_given in He, Hp, Hc.
  rewrite He, Hp, Hc. destruct (existsb _ _); reflexivity.
Qed.

(** X13. The instruction returned by [verify] shows "links: none"
    exactly when none of the three link lists is given (each is empty or
    "none" up to case), and then the auto-completion built from the same
    arguments carries no link. *)
Theorem verify_summary_matches_auto_completion v :
  (links_str v = "none" <->
   link_list_given (employee_links v) = false /\
   link_list_given (project_links v) = false /\
   link_list_given (customer_links v) = false) /\
  (links_str v = "none" -> verified_links v = []).
Proof.
  split; [rewrite links_str_none_iff; apply links_summary_nil|].
  apply links_none_no_links.
Qed.

(** X13 on a verification without links. *)
Lemma verify_summary_matches_auto_completion_witness :
  verified_links sample_verify
  = declared_links "employee" "emp_1" /\
  verified_links empty_links_denial = [].
Proof.
  split; [reflexivity|].
  apply (verify_summary_matches_auto_completion empty_links_denial).
  reflexivity.
Defined.

(** X14. An empty link field is read in two ways.  The summary of
    [verify] and the auto-completion take it as "no links", but the
    warnings take it as links that were declared: a [denied_security]
    verification whose three link fields are empty is answered with the
    warning that it should have no links, next to "links: none". *)
Theorem empty_link_field_warns v :
  employee_links v = EmptyString ->
  project_links v = EmptyString ->
  customer_links v = EmptyString ->
  links_str v = "none" /\
  verified_links v = [] /\
  (outcome v = "denied_security" -> In WARN_DENIED_LINKS (verify_warnings v)) /\
  (outcome v = "error_internal" \/ outcome v = "none_unsupported" ->
   In WARN_UNRELIABLE_LINKS (verify_warnings v)).
Proof.
  intros He Hp Hc.
  assert (Hany : any_link_declared v = true)
    by (unfold any_link_declared; rewrite He; reflexivity).
  assert (Hnone : links_str v = "none")
    by (unfold links_str, links_summary; rewrite He, Hp, Hc; reflexivity).
  split; [exact Hnone|].
  split; [apply links_none_no_links; exact Hnone|].
  split; intros Ho; apply verify_warnings_In; [right; left|right; right; left];
    (split; [reflexivity|split; assumption]).
Qed.

(** X14 on a denial with empty link fields. *)
Lemma empty_link_field_warns_witness :
  links_str empty_links_denial = "none" /\
  In WARN_DENIED_LINKS (verify_warnings empty_links_denial).
Proof.
  destruct (empty_link_field_warns empty_links_denial eq_refl eq_refl eq_refl)
    as (H1 & _ & H2 & _).
  split; [exact H1|apply H2; reflexivity].
Defined.

(** ** The file formatter *)

Lemma sub_from_text t s :
  ~ In ESC (chars t) -> sub_from 0 (t +:+ s) = t +:+ sub_from 0 s.
Proof.
  induction t as [|c t IH]; intros Hesc; [reflexivity|].
  change (String c t +:+ s) with (String c (t +:+ s)).
  assert (Hc : Ascii.eqb c ESC = false).
  { apply Ascii.eqb_neq. intros ->. apply Hesc. cbn. tauto. }
  cbn [sub_from]. unfold match_len.
  destruct (t +:+ s); rewrite ?Hc; cbn [andb];
    change (String c t +:+ sub_from 0 s) with (String c (t +:+ sub_from 0 s));
    rewrite <- IH by (intros H; apply Hesc; cbn; tauto); reflexivity.
Qed.

Lemma sub_from_skip p s :
  sub_from (String.length p) (p +:+ s) = sub_from 0 s.
Proof.
  induction p as [|c p IH]; [reflexivity|].
  change (String c p +:+ s) with (String c (p +:+ s)). cbn [String.length sub_from].
  exact IH.
Qed.

Lemma params_len_params p s :
  (forall c, In c (chars p) -> is_param c = true) ->
  params_len (p +:+ String "m"%char s) = Some (String.length p).
Proof.
  induction p as [|c p IH]; intros Hp; [reflexivity|].
  change (String c p +:+ String "m"%char s) with (String c (p +:+ String "m"%char s)).
  cbn [params_len String.length].
  assert (Hc : is_param c = true) by (apply Hp; cbn; tauto).
  assert (Hm : Ascii.eqb c "m"%char = false).
  { apply Ascii.eqb_neq. intros ->. discriminate. }
  rewrite Hm, Hc, IH by (intros c' H; apply Hp; cbn; tauto). reflexivity.
Qed.

Lemma sub_from_color p s :
  (forall c, In c (chars p) -> is_param c = true) ->
  sub_from 0 (render (Color p) +:+ s) = sub_from 0 s.
Proof.
  intros Hp. cbn [render].
  change (String ESC (String "["%char (p +:+ "m")) +:+ s)
    with (String ESC (String "["%char ((p +:+ "m") +:+ s))).
  rewrite append_assoc.
  change ("m" +:+ s) with (String "m"%char s).
  cbn [sub_from]. unfold match_len.
  rewrite !Ascii.eqb_refl. cbn [andb].
  rewrite params_len_params by exact Hp. cbn [option_map].
  replace (String.length p + 3 - 1)%nat with (S (S (String.length p))) by lia.
  cbn [sub_from].
  change (String "m"%char s) with ("m" +:+ s). rewrite <- append_assoc.
  replace (S (String.length p)) with (String.length (p +:+ "m")).
  - apply sub_from_skip.
  - clear. induction p as [|c p IH]; [reflexivity|].
    change (String c p +:+ "m") with (String c (p +:+ "m")). cbn [String.length].
    rewrite IH. reflexivity.
Qed.

(** X15. Text without an escape character goes to the log file
    unchanged. *)
Theorem plain_text_is_kept message :
  ~ In ESC (chars message) -> PlainFormatter_format message = message.
Proof.
  intros Hesc. unfold PlainFormatter_format.
  assert (Hnil : forall s : string, s +:+ EmptyString = s).
  { induction s as [|a s IH]; [reflexivity|].
    change (String a (s +:+ EmptyString) = String a s). rewrite IH. reflexivity. }
  rewrite <- (Hnil message) at 1. rewrite sub_from_text by exact Hesc.
  apply Hnil.
Qed.

(** X15 on a line without colours. *)
Lemma plain_text_is_kept_witness :
  PlainFormatter_format "Session has 3 tasks" = "Session has 3 tasks".
Proof.
  apply plain_text_is_kept. cbn.
  intros H; repeat (destruct H as [H|H]; [discriminate|]); exact H.
Defined.

(** X16. Colouring and then stripping gives the text back: for a message
    made of pieces of text without escape characters and of colour codes
    (ESC, bracket, digits and semicolons, m), the file formatter returns
    the pieces of text, joined, and no trace of the codes. *)
Theorem colours_are_stripped segs :
  Forall well_formed_segment segs ->
  PlainFormatter_format (concat_strings (map render segs))
  = concat_strings (map plain segs).
Proof.
  unfold PlainFormatter_format.
  induction 1 as [|seg segs Hseg _ IH]; [reflexivity|].
  cbn [map concat_strings fold_right].
  fold (concat_strings (map render segs)). fold (concat_strings (map plain segs)).
  destruct seg as [t|p]; cbn [well_formed_segment plain] in *.
  - cbn [render]. rewrite sub_from_text by exact Hseg. rewrite IH. reflexivity.
  - rewrite sub_from_color by exact Hseg. exact IH.
Qed.

(** X16 on the line logged for a tool call. *)
Lemma colours_are_stripped_witness :
  PlainFormatter_format
    (CLI_BLUE +:+ "CALL" +:+ CLI_CLR +:+ ": " +:+ "Req_ListProjects(page=1)")
  = "CALL: Req_ListProjects(page=1)".
Proof.
  apply (colours_are_stripped (call_line "Req_ListProjects(page=1)")).
  unfold call_line.
  repeat (apply List.Forall_cons; [|]); try apply List.Forall_nil;
    cbn; unfold not; intros; repeat (match goal with
                         | H : _ \/ _ |- _ => destruct H as [H|H]
                         | H : _ = _ |- _ => first [discriminate H | subst]
                         | H : False |- _ => destruct H
                         end); reflexivity.
Defined.

Lemma params_len_other p c s :
  (forall a, In a (chars p) -> is_param a = true) ->
  is_param c = false -> c <> "m"%char ->
  params_len (p +:+ String c s) = None /\ params_len p = None.
Proof.
  intros Hp Hc Hm. apply Ascii.eqb_neq in Hm.
  induction p as [|a p IH].
  - change (EmptyString +:+ String c s) with (String c s).
    cbn [params_len]. rewrite Hm, Hc. split; reflexivity.
  - change (String a p +:+ String c s) with (String a (p +:+ String c s)).
    cbn [params_len].
    assert (Ha : is_param a = true) by (apply Hp; cbn; tauto).
    assert (Ham : Ascii.eqb a "m"%char = false).
    { apply Ascii.eqb_neq. intros ->. discriminate. }
    destruct IH as [IH1 IH2]; [intros a' H; apply Hp; cbn; tauto|].
    rewrite Ham, Ha, IH1, IH2. split; reflexivity.
Qed.

Lemma params_no_esc p :
  (forall a, In a (chars p) -> is_param a = true) -> ~ In ESC (chars p).
Proof.
  intros Hp H. apply Hp in H. discriminate.
Qed.

Lemma sub_from_no_match a r :
  match_len (String a r) = None ->
  sub_from 0 (String a r) = String a (sub_from 0 r).
Proof. intros H. cbn [sub_from]. rewrite H. reflexivity. Qed.

(** X17. Only colour codes are removed.  An escape sequence that ends
    in another letter than m (a cursor movement, an erase command), or
    that is cut off by the end of the message, stays in the log file as it
    is, and the rest of the message is cleaned as usual. *)
Theorem other_sequences_are_kept p c rest :
  (forall a, In a (chars p) -> is_param a = true) ->
  is_param c = false -> c <> "m"%char -> c <> ESC ->
  PlainFormatter_format (String ESC (String "["%char (p +:+ String c rest)))
  = String ESC (String "["%char (p +:+ String c (PlainFormatter_format rest))) /\
  PlainFormatter_format (String ESC (String "["%char p))
  = String ESC (String "["%char p).
Proof.
  intros Hp Hc Hm Hesc. unfold PlainFormatter_format.
  destruct (params_len_other p c rest Hp Hc Hm) as [H1 H2].
  assert (Hnil : forall s : string, s +:+ EmptyString = s).
  { induction s as [|a s IH]; [reflexivity|].
    change (String a (s +:+ EmptyString) = String a s). rewrite IH. reflexivity. }
  split.
  - rewrite sub_from_no_match
      by (unfold match_len; rewrite !Ascii.eqb_refl; cbn [andb]; rewrite H1;
          reflexivity).
    f_equal.
    assert (E : forall x,
               String "["%char (p +:+ String c x)
               = String "["%char (p +:+ String c EmptyString) +:+ x).
    { intros x.
      change (String "["%char (p +:+ String c EmptyString) +:+ x)
        with (String "["%char ((p +:+ String c EmptyString) +:+ x)).
      rewrite append_assoc. reflexivity. }
    rewrite (E rest), sub_from_text; [rewrite <- E; reflexivity|].
    change (chars (String "["%char (p +:+ String c EmptyString)))
      with ("["%char :: chars (p +:+ String c EmptyString)).
    rewrite chars_append. cbn [In]. rewrite in_app_iff. cbn.
    intros [H|[H|[H|[]]]]; [discriminate|exact (params_no_esc p Hp H)|congruence].
  - rewrite sub_from_no_match
      by (unfold match_len; rewrite !Ascii.eqb_refl; cbn [andb]; rewrite H2;
          reflexivity).
    f_equal.
    rewrite <- (Hnil (String "["%char p)) at 1. rewrite sub_from_text.
    + apply Hnil.
    + cbn. intros [H|H]; [discriminate|]. exact (params_no_esc p Hp H).
Qed.

(** X17 on an erase-line command. *)
Lemma other_sequences_are_kept_witness :
  PlainFormatter_format (String ESC "[2Kdone") = String ESC "[2Kdone".
Proof.
  destruct (other_sequences_are_kept "2" "K"%char "done") as [H _];
    try discriminate.
  - cbn. intros a [<-|[]]. reflexivity.
  - reflexivity.
  - exact H.
Defined.

(** ** The driver *)

Lemma numbers_from_S i m : numbers_from i (S m) = i :: numbers_from (i + 1) m.
Proof.
  unfold numbers_from. cbn [seq map]. rewrite Z.add_0_r. f_equal.
  rewrite <- seq_shift, map_map. apply map_ext. intros k. lia.
Qed.

Lemma numbers_from_last i m :
  numbers_from i (S m) = numbers_from i m ++ [i + Z.of_nat m].
Proof.
  unfold numbers_from. rewrite seq_S, map_app. reflexivity.
Qed.

Lemma text_length_append s t :
  text_length (s +:+ t) = (text_length s + text_length t)%nat.
Proof.
  induction s as [|c s IH]; [reflexivity|].
  rewrite append_cons. cbn [text_length]. rewrite IH. lia.
Qed.

Lemma take_chars_length n s : (text_length (take_chars n s) <= n)%nat.
Proof.
  revert n. induction s as [|c s IH]; intros n; [cbn; lia|].
  cbn [take_chars]. destruct (is_continuation c) eqn:E.
  - cbn [text_length]. rewrite E. apply IH.
  - destruct n as [|k]; [cbn; lia|]. cbn [text_length]. rewrite E.
    specialize (IH k). lia.
Qed.

Lemma short_text_length text : (text_length (short_text text) <= 63)%nat.
Proof.
  unfold short_text. destruct (Nat.ltb_spec 60 (text_length text)).
  - rewrite text_length_append. pose proof (take_chars_length 60 text).
    change (text_length "...") with 3%nat. lia.
  - lia.
Qed.

(** What a run of the loop adds to the counters: [m] tasks are started
    and numbered from [i], [ds] is added to the failures. *)
Lemma run_tasks_spec world ff i pos tasks t t' :
  run_tasks world ff i pos tasks t = Ok t' ->
  exists m ds,
    (m <= length tasks)%nat /\
    started t' = started t ++ numbers_from i m /\
    failed_task_details t' = failed_task_details t ++ ds /\
    failed_tests t' = (failed_tests t + length ds)%nat /\
    (passed_tests t <= passed_tests t')%nat /\
    (passed_tests t' - passed_tests t + length ds <= m)%nat /\
    Forall (tidy_entry (numbers_from i m)) ds /\
    ((m < length tasks)%nat -> ff = true /\ ds <> []) /\
    (ff = true -> ds = [] \/ exists d, ds = [d] /\ idx d = i + Z.of_nat m - 1).
Proof.
  revert i pos t. induction tasks as [|task rest IH]; intros i pos t.
  - cbn [run_tasks]. intros [= <-]. exists 0%nat, [].
    rewrite !app_nil_r. cbn. repeat split; try lia; auto.
  - cbn [run_tasks]. destruct (world pos task) as [outcome|]; [|discriminate].
    destruct (one_task ff i task outcome t) as [t1 go] eqn:Hone.
    assert (Hstep : exists ds1,
               started t1 = started t ++ [i] /\
               failed_task_details t1 = failed_task_details t ++ ds1 /\
               failed_tests t1 = (failed_tests t + length ds1)%nat /\
               (passed_tests t <= passed_tests t1)%nat /\
               (passed_tests t1 - passed_tests t + length ds1 <= 1)%nat /\
               Forall (tidy_entry [i]) ds1 /\
               (go = false -> ff = true /\ ds1 <> []) /\
               (ds1 = [] \/ exists d, ds1 = [d] /\ idx d = i) /\
               (ff = true -> ds1 <> [] -> go = false)).
    { unfold one_task in Hone. destruct outcome as [ev|].
      - destruct (positive (score ev)).
        + injection Hone as <- <-. exists []. cbn. rewrite app_nil_r.
          repeat split; try lia; auto; try (intros; congruence).
        + injection Hone as <- <-. eexists [_]. cbn.
          repeat split; try lia; auto.
          * apply List.Forall_cons; [|apply List.Forall_nil].
            unfold tidy_entry. cbn. split; [tauto|].
            split; [apply short_text_length|apply strip_idempotent].
          * destruct ff; [reflexivity|discriminate].
          * right. eexists. split; reflexivity.
          * intros ->. reflexivity.
      - injection Hone as <- <-. exists []. cbn. rewrite app_nil_r.
        repeat split; try lia; auto; try (intros; congruence). }
    destruct Hstep as (ds1 & Hs1 & Hd1 & Hf1 & Hp1 & Hc1 & Ht1 & Hgo & Hone1 & Hff1).
    assert (Hmono : forall m, Forall (tidy_entry [i]) ds1 ->
                         Forall (tidy_entry (numbers_from i (S m))) ds1).
    { intros m. apply List.Forall_impl. intros d (Hin & Hlen & Hst).
      split; [|split; assumption]. rewrite numbers_from_S.
      destruct Hin as [<-|[]]. left. reflexivity. }
    destruct go.
    + intros Hrun. apply IH in Hrun
        as (m & ds & Hm & Hs & Hd & Hf & Hp & Hc & Ht & Hlt & Hffm).
      exists (S m), (ds1 ++ ds).
      rewrite Hs, Hs1, Hd, Hd1, Hf, Hf1, numbers_from_S, length_app, <- !app_assoc.
      cbn [length app]. repeat split; try lia.
      * apply Forall_app. split; [rewrite <- numbers_from_S; apply Hmono, Ht1|].
        revert Ht. apply List.Forall_impl. intros d (Hin & Hlen & Hst).
        split; [right; exact Hin|split; assumption].
      * apply Hlt. lia.
      * intros Hnil. apply app_eq_nil in Hnil as [_ Hnil].
        destruct Hlt as [_ Hne]; [lia|]. contradiction.
      * intros Hff. destruct ds1 as [|d1 ds1'].
        -- destruct (Hffm Hff) as [->|(d & -> & Hidx)]; [left; reflexivity|].
           right. exists d. split; [reflexivity|]. lia.
        -- exfalso. assert (true = false) by (apply Hff1; [exact Hff|discriminate]).
           discriminate.
    + intros [= <-]. exists 1%nat, ds1.
      rewrite Hs1, Hd1, Hf1. change (numbers_from i 1) with [i + 0].
      rewrite Z.add_0_r. cbn [length].
      repeat split; try lia; auto.
      * apply Hgo. reflexivity.
      * apply Hgo. reflexivity.
      * intros _. destruct Hone1 as [->|(d & -> & Hidx)]; [left; reflexivity|].
        right. exists d. split; [reflexivity|]. lia.
Qed.

Lemma main_finished args tasks world t sub :
  main args tasks world = Finished t sub ->
  exists to_run first,
    tasks_to_run args tasks = Some (to_run, first) /\
    run_tasks world (fail_fast args) first 0 to_run empty_tally = Ok t /\
    sub = match only args with
          | Some _ => false
          | None => negb (fail_fast args && (0 <? failed_tests t)%nat)
          end.
Proof.
  unfold main. destruct (tasks_to_run args tasks) as [[to_run first]|];
    [|discriminate].
  destruct (run_tasks world (fail_fast args) first 0 to_run empty_tally) as [t0|]
    eqn:Hrun; [|discriminate].
  intros [= <- <-]. exists to_run, first. repeat split. exact Hrun.
Qed.

Lemma tasks_to_run_length args tasks to_run first :
  tasks_to_run args tasks = Some (to_run, first) ->
  (length to_run <= length tasks)%nat /\
  (only args = None -> to_run = tasks /\ first = 1).
Proof.
  unfold tasks_to_run. destruct (only args) as [n|].
  - destruct ((n <? 1) || (Z.of_nat (length tasks) <? n)) eqn:Hrange; [discriminate|].
    destruct (nth_error tasks (Z.to_nat (n - 1))) as [task|] eqn:Hnth; [|discriminate].
    intros [= <- <-]. split; [|discriminate].
    destruct tasks; [destruct (Z.to_nat (n - 1)); discriminate|cbn; lia].
  - intros [= <- <-]. split; [lia|auto].
Qed.

(** X18. With [--only n] the script runs one task or none.  A number
    below 1 or above the number of tasks ends it with exit code 1 before
    any task is started; otherwise exactly the n-th task is started, it is
    reported under the number n, and the session is not submitted. *)
Theorem only_runs_one_task args tasks world n :
  only args = Some n ->
  (n < 1 \/ Z.of_nat (length tasks) < n -> main args tasks world = Exit 1) /\
  (1 <= n <= Z.of_nat (length tasks) ->
   exists task,
     nth_error tasks (Z.to_nat (n - 1)) = Some task /\
     main args tasks world =
     match world 0%nat task with
     | Raise e => Crashed e
     | Ok outcome =>
         Finished (one_task (fail_fast args) n task outcome empty_tally).1 false
     end /\
     forall outcome,
       started (one_task (fail_fast args) n task outcome empty_tally).1 = [n]).
Proof.
  intros Honly. unfold main, tasks_to_run. rewrite Honly. split.
  - intros Hout.
    assert (Hrange : (n <? 1) || (Z.of_nat (length tasks) <? n) = true).
    { apply orb_true_iff. destruct Hout; [left|right]; apply Z.ltb_lt; assumption. }
    rewrite Hrange. reflexivity.
  - intros [Hlo Hhi].
    assert (Hrange : (n <? 1) || (Z.of_nat (length tasks) <? n) = false).
    { apply orb_false_iff. split; apply Z.ltb_ge; lia. }
    rewrite Hrange.
    destruct (nth_error tasks (Z.to_nat (n - 1))) as [task|] eqn:Hnth.
    + exists task. split; [reflexivity|].
      assert (Hn : (n =? 0) = false) by (apply Z.eqb_neq; lia).
      rewrite Hn. cbn [run_tasks]. split.
      * destruct (world 0%nat task) as [outcome|]; [|reflexivity].
        destruct (one_task (fail_fast args) n task outcome empty_tally)
          as [t1 []]; reflexivity.
      * intros outcome. unfold one_task.
        destruct outcome as [ev|]; [destruct (positive (score ev))|]; reflexivity.
    + exfalso. apply nth_error_None in Hnth. lia.
Qed.

(** X18 on a session of three tasks, with [--only 4] and [--only 2]. *)
Lemma only_runs_one_task_witness :
  main {| only := Some 4; fail_fast := false |} sample_tasks sample_world = Exit 1 /\
  exists task,
    nth_error sample_tasks 1 = Some task /\
    main {| only := Some 2; fail_fast := false |} sample_tasks sample_world
    = Finished (one_task false 2 task
                  (Some {| score := 0; logs := " expected denied_security " |})
                  empty_tally).1 false.
Proof.
  split.
  - destruct (only_runs_one_task {| only := Some 4; fail_fast := false |}
                sample_tasks sample_world 4 eq_refl) as [H _].
    apply H. right. cbn. lia.
  - destruct (only_runs_one_task {| only := Some 2; fail_fast := false |}
                sample_tasks sample_world 2 eq_refl) as [_ H].
    destruct H as (task & Hnth & Hmain & _); [cbn; lia|].
    exists task. split; [exact Hnth|].
    rewrite Hmain. injection Hnth as <-. reflexivity.
Defined.

(** X19. When the script reaches its end, the counters agree with each
    other: there is one entry in the list of failures for every failed
    test, passed and failed tests together are at most the tasks that were
    started, which are at most the tasks of the session and are numbered
    in a row; every entry carries the number of a started task, a task
    text of at most 63 characters and a reason without white space around
    it; and with [--fail-fast] there is at most one failure. *)
Theorem tally_is_consistent args tasks world t sub :
  main args tasks world = Finished t sub ->
  failed_tests t = length (failed_task_details t) /\
  (passed_tests t + failed_tests t <= length (started t) <= length tasks)%nat /\
  (exists first, started t = numbers_from first (length (started t))) /\
  Forall (tidy_entry (started t)) (failed_task_details t) /\
  (fail_fast args = true -> (failed_tests t <= 1)%nat).
Proof.
  intros Hmain. apply main_finished in Hmain as (to_run & first & Hsel & Hrun & _).
  apply tasks_to_run_length in Hsel as [Hlen _].
  apply run_tasks_spec in Hrun
    as (m & ds & Hm & Hs & Hd & Hf & Hp & Hc & Ht & _ & Hff).
  cbn [empty_tally started failed_task_details failed_tests passed_tests app] in *.
  assert (Hlength : length (started t) = m).
  { rewrite Hs. unfold numbers_from. rewrite length_map, length_seq. reflexivity. }
  rewrite Hd, Hf, Hlength. repeat split; try lia.
  - exists first. exact Hs.
  - rewrite Hs. exact Ht.
  - intros Hfast. destruct (Hff Hfast) as [->|(d & -> & _)]; cbn; lia.
Qed.

(** X19 on a full run of the sample session. *)
Lemma tally_is_consistent_witness :
  exists t, main {| only := None; fail_fast := false |} sample_tasks sample_world
            = Finished t true /\
            failed_tests t = length (failed_task_details t).
Proof.
  eexists. split; [vm_compute; reflexivity|].
  eapply (tally_is_consistent {| only := None; fail_fast := false |}
            sample_tasks sample_world _ true).
  vm_compute. reflexivity.
Defined.

(** X20. The session is submitted exactly when the script ran without
    [--only] and did not stop early on a failure under [--fail-fast]; in
    that case every task of the session had been started, in order. *)
Theorem session_submitted_iff args tasks world t sub :
  main args tasks world = Finished t sub ->
  (sub = true <->
   only args = None /\ (fail_fast args = false \/ failed_tests t = 0%nat)) /\
  (sub = true -> started t = numbers_from 1 (length tasks)).
Proof.
  intros Hmain. apply main_finished in Hmain as (to_run & first & Hsel & Hrun & ->).
  assert (Hiff : match only args with
                 | Some _ => false
                 | None => negb (fail_fast args && (0 <? failed_tests t)%nat)
                 end = true <->
                 only args = None /\
                 (fail_fast args = false \/ failed_tests t = 0%nat)).
  { destruct (only args); [split; [discriminate|intros [? _]; discriminate]|].
    rewrite negb_true_iff, andb_false_iff, Nat.ltb_ge. split.
    - intros [H|H]; (split; [reflexivity|]); [left; exact H|right; lia].
    - intros [_ [H|H]]; [left; exact H|right; lia]. }
  split; [exact Hiff|].
  intros Hsub. apply Hiff in Hsub as [Honly Hok].
  apply tasks_to_run_length in Hsel as [_ Hall].
  destruct (Hall Honly) as [-> ->].
  apply run_tasks_spec in Hrun
    as (m & ds & Hm & Hs & Hd & Hf & _ & _ & _ & Hlt & _).
  cbn [empty_tally started failed_tests app] in *.
  destruct (Nat.eq_dec m (length tasks)) as [->|Hne]; [exact Hs|].
  exfalso. destruct Hlt as [Hfast Hds]; [lia|].
  destruct Hok as [Hok|Hok]; [congruence|].
  destruct ds; [contradiction|]. cbn in Hf. lia.
Qed.

(** X20 on a full run of the sample session. *)
Lemma session_submitted_iff_witness :
  exists t, main {| only := None; fail_fast := false |} sample_tasks sample_world
            = Finished t true /\
            started t = [1; 2; 3].
Proof.
  eexists. split; [vm_compute; reflexivity|].
  eapply (session_submitted_iff {| only := None; fail_fast := false |}
            sample_tasks sample_world _ true); [vm_compute|]; reflexivity.
Defined.

(** X21. With [--fail-fast] the loop stops at the first failed test:
    when the script ends with a failure, that failure is the only one, the
    failed task is the last task that was started, and the session is not
    submitted. *)
Theorem fail_fast_stops_at_failure args tasks world t sub :
  fail_fast args = true ->
  main args tasks world = Finished t sub ->
  failed_tests t <> 0%nat ->
  sub = false /\
  exists d, failed_task_details t = [d] /\ last (started t) = Some (idx d).
Proof.
  intros Hfast Hmain Hfailed.
  apply main_finished in Hmain as (to_run & first & _ & Hrun & ->).
  apply run_tasks_spec in Hrun
    as (m & ds & _ & Hs & Hd & Hf & _ & Hc & _ & _ & Hff).
  cbn [empty_tally started failed_task_details failed_tests passed_tests app] in *.
  split.
  - destruct (only args); [reflexivity|]. rewrite Hfast. cbn [andb].
    apply negb_false_iff, Nat.ltb_lt. lia.
  - destruct (Hff Hfast) as [->|(d & -> & Hidx)]; [cbn in Hf; lia|].
    exists d. split; [exact Hd|]. rewrite Hs.
    destruct m as [|m]; [cbn in Hc; lia|].
    rewrite numbers_from_last, last_snoc. f_equal. lia.
Qed.

(** X21 on the sample session, whose second task fails. *)
Lemma fail_fast_stops_at_failure_witness :
  exists t, main {| only := None; fail_fast := true |} sample_tasks sample_world
            = Finished t false /\
            exists d, failed_task_details t = [d] /\
                      last (started t) = Some (idx d).
Proof.
  eexists. split; [vm_compute; reflexivity|].
  apply (proj2 (fail_fast_stops_at_failure {| only := None; fail_fast := true |}
                  sample_tasks sample_world _ false eq_refl
                  ltac:(vm_compute; reflexivity)
                  ltac:(vm_compute; discriminate))).
Defined.
